(** * mandacafe: restaurant-menu backend

    A shallow embedding of the parts of the backend that carry state and
    arithmetic: the in-memory metrics aggregator (middleware/monitoring),
    the two persistence adapters (the JSON-file [Database] and the
    [PrismaDatabase]), the administrative controllers built on them, the
    public menu controller and the key check of middleware/auth.

    JavaScript numbers are IEEE-754 binary64 values; they are modelled by
    Rocq's primitive floats.  The aggregator is written once over an
    interface of number operations, so that the very same code can also be
    read in exact rational arithmetic. *)

From Stdlib Require Import ZArith QArith Qround Qcanon Floats Uint63 List String Ascii Lia.
From Stdlib Require Import Sorting.Sorted Sorting.Permutation.
From stdpp Require Import gmap strings list pretty.

Local Open Scope Z_scope.

(* Decimal literals such as 0.05 denote the nearest binary64 value. *)
Set Warnings "-inexact-float".

(** ** JavaScript numbers *)

(** The operations on numbers that the modelled code uses. *)
Class JsNumber (num : Type) := {
  n_of_Z : Z -> num;                 (* an integer literal *)
  nadd : num -> num -> num;          (* x + y *)
  nsub : num -> num -> num;          (* x - y *)
  nmul : num -> num -> num;          (* x * y *)
  ndiv : num -> num -> num;          (* x / y *)
  ngt : num -> num -> bool;          (* x > y *)
  nmax : num -> num -> num;          (* Math.max(x, y) *)
  nround : num -> num;               (* Math.round(x) *)
  n_truthy : num -> bool             (* ToBoolean(x) *)
}.

(** A decimal literal [m]e-[k], such as 0.05 = [n_decimal 5 2]. *)
Definition n_decimal {num} `{JsNumber num} (m : Z) (k : nat) : num :=
  ndiv (n_of_Z m) (n_of_Z (10 ^ Z.of_nat k)).

(** The [x || 0] idiom on a possibly absent counter. *)
Definition or_zero {num} `{JsNumber num} (o : option num) : num :=
  match o with
  | Some x => if n_truthy x then x else n_of_Z 0
  | None => n_of_Z 0
  end.

(** *** binary64: the numbers the program runs on *)

Module F64.

(** Integers of magnitude below 2^53 convert exactly. *)
Definition of_Z (z : Z) : float :=
  match z with
  | Z0 => 0%float
  | Zpos _ => PrimFloat.of_uint63 (Uint63.of_Z z)
  | Zneg _ => PrimFloat.opp (PrimFloat.of_uint63 (Uint63.of_Z (- z)))
  end.

Definition gt (x y : float) : bool := PrimFloat.ltb y x.

(** [Math.max]: NaN is contagious and +0 is larger than -0. *)
Definition max (x y : float) : float :=
  if (PrimFloat.is_nan x || PrimFloat.is_nan y)%bool then PrimFloat.nan
  else if PrimFloat.ltb x y then y
  else if PrimFloat.ltb y x then x
  else if PrimFloat.eqb x 0%float then PrimFloat.add x y
  else x.

(** [Math.round]: the integer nearest to [x], ties towards +infinity; the
    sign of a zero result is the sign of [x]. *)
Definition round (x : float) : float :=
  match Prim2SF x with
  | S754_finite s m e =>
      if 0 <=? e then x
      else
        let z := if s then Z.neg m else Z.pos m in
        let k := - e in
        let r := (2 * z + 2 ^ k) / 2 ^ (k + 1) in
        if r =? 0 then (if s then PrimFloat.opp 0%float else 0%float)
        else of_Z r
  | _ => x
  end.

Definition truthy (x : float) : bool :=
  negb (PrimFloat.eqb x 0%float || PrimFloat.is_nan x).

Definition isNaN (x : float) : bool := PrimFloat.is_nan x.

End F64.

#[export] Instance float_number : JsNumber float := {
  n_of_Z := F64.of_Z;
  nadd := PrimFloat.add;
  nsub := PrimFloat.sub;
  nmul := PrimFloat.mul;
  ndiv := PrimFloat.div;
  ngt := F64.gt;
  nmax := F64.max;
  nround := F64.round;
  n_truthy := F64.truthy
}.

(** *** exact rationals: the same operations without rounding

    Division by zero yields 0 here (it yields NaN or an infinity in
    binary64); the exact reading is only used where the divisor is a
    positive count. *)

Module Exact.

Definition of_Z (z : Z) : Qc := Q2Qc (inject_Z z).

Definition gt (x y : Qc) : bool :=
  match (x ?= y)%Qc with Gt => true | _ => false end.

Definition max (x y : Qc) : Qc := if gt y x then y else x.

Definition round (x : Qc) : Qc :=
  of_Z (Qfloor (x + Q2Qc (1 # 2))%Qc).

Definition truthy (x : Qc) : bool := negb (Qc_eq_bool x 0%Qc).

End Exact.

#[export] Instance exact_number : JsNumber Qc := {
  n_of_Z := Exact.of_Z;
  nadd := Qcplus;
  nsub := Qcminus;
  nmul := Qcmult;
  ndiv := Qcdiv;
  ngt := Exact.gt;
  nmax := Exact.max;
  nround := Exact.round;
  n_truthy := Exact.truthy
}.

(** ** middleware/monitoring: the in-memory metrics aggregator

    The state and the operations that update and read it.  Log output is
    kept only where an operation's result depends on it; [securityMonitor],
    which scans requests for patterns and counts the suspicious ones, is
    not part of the model. *)

(** The parts of an Express request that the middleware reads. *)
Record Request := {
  method : string;
  url : string;
  path : string;
  route : option string;        (* [req.route.path] once a route matched *)
  ip : string
}.

(** A thrown error, as far as [errorMetrics] looks at it. *)
Record JsError := {
  name : option string;
  message : string
}.

(** One entry of [metrics.errors.last24h]; [timestamp] is the time value of
    the [Date] in milliseconds. *)
Record ErrorEntry := {
  timestamp : Z;
  type : string;
  entry_message : string;
  entry_url : string;
  entry_method : string;
  entry_ip : string
}.

(** What [process.memoryUsage()] reports. *)
Record MemoryUsage (num : Type) := {
  heapUsed : num;
  heapTotal : num
}.
Arguments heapUsed {num} _.
Arguments heapTotal {num} _.

(** Readings of the process taken while a snapshot or a health report is
    built. *)
Record Process (num : Type) := {
  now_iso : string;                       (* new Date().toISOString() *)
  uptime : num;                           (* process.uptime() *)
  memoryUsage : MemoryUsage num;          (* process.memoryUsage() *)
  cpuUsage : num * num;                   (* process.cpuUsage(): user, system *)
  npm_package_version : option string;    (* process.env.npm_package_version *)
  NODE_ENV : option string                (* process.env.NODE_ENV *)
}.
Arguments now_iso {num} _.
Arguments uptime {num} _.
Arguments memoryUsage {num} _.
Arguments cpuUsage {num} _.
Arguments npm_package_version {num} _.
Arguments NODE_ENV {num} _.

(** [x || d] on an optional string: the empty string is falsy. *)
Definition str_or (o : option string) (d : string) : string :=
  match o with
  | Some s => if String.eqb s "" then d else s
  | None => d
  end.

Declare Scope num_scope.

Module Monitoring.
Section WithNumbers.

Context {num : Type} `{JsNumber num}.

Notation "0" := (n_of_Z 0) : num_scope.
Notation "1" := (n_of_Z 1) : num_scope.
Infix "+" := nadd : num_scope.
Infix "-" := nsub : num_scope.
Infix "*" := nmul : num_scope.
Infix "/" := ndiv : num_scope.
Infix ">" := ngt : num_scope.
Local Open Scope num_scope.

(** *** The five groups of counters

    Each group is an object of its own; [metrics] holds references to
    them. *)

Record Requests := {
  total : num;
  byMethod : gmap string num;
  byStatus : gmap Z num;
  byEndpoint : gmap string num
}.

Record Performance := {
  averageResponseTime : num;
  slowRequests : num;
  fastRequests : num
}.

Record Errors := {
  errors_total : num;
  byType : gmap string num;
  last24h : list ErrorEntry
}.

Record Database := {
  queries : num;
  averageQueryTime : num;
  slowQueries : num
}.

Record Security := {
  suspiciousRequests : num;
  blockedIPs : gset string;
  rateLimitHits : num
}.

Inductive object :=
| ORequests (r : Requests)
| OPerformance (p : Performance)
| OErrors (e : Errors)
| ODatabase (d : Database)
| OSecurity (s : Security).

Definition loc := nat.

(** The [metrics] object: five properties, each a reference. *)
Record Metrics := {
  requests : loc;
  performance : loc;
  errors : loc;
  database : loc;
  security : loc
}.

(** The module's state: the objects allocated so far and the [metrics]
    binding. *)
Record store := {
  heap : gmap loc object;
  metrics : Metrics
}.

Definition empty_requests : Requests :=
  {| total := 0; byMethod := ∅; byStatus := ∅; byEndpoint := ∅ |}.
Definition empty_performance : Performance :=
  {| averageResponseTime := 0; slowRequests := 0; fastRequests := 0 |}.
Definition empty_errors : Errors :=
  {| errors_total := 0; byType := ∅; last24h := [] |}.
Definition empty_database : Database :=
  {| queries := 0; averageQueryTime := 0; slowQueries := 0 |}.
Definition empty_security : Security :=
  {| suspiciousRequests := 0; blockedIPs := ∅; rateLimitHits := 0 |}.

(** [const metrics = { requests: {...}, ... }] at module load. *)
Definition initial_store : store :=
  {| heap := <[0%nat := ORequests empty_requests]>
             (<[1%nat := OPerformance empty_performance]>
             (<[2%nat := OErrors empty_errors]>
             (<[3%nat := ODatabase empty_database]>
             (<[4%nat := OSecurity empty_security]> ∅))));
     metrics := {| requests := 0%nat; performance := 1%nat; errors := 2%nat;
                   database := 3%nat; security := 4%nat |} |}.

(** *** Reading and writing through a reference *)

Definition read_requests (h : gmap loc object) (l : loc) : option Requests :=
  match h !! l with Some (ORequests r) => Some r | _ => None end.
Definition read_performance (h : gmap loc object) (l : loc) : option Performance :=
  match h !! l with Some (OPerformance p) => Some p | _ => None end.
Definition read_errors (h : gmap loc object) (l : loc) : option Errors :=
  match h !! l with Some (OErrors e) => Some e | _ => None end.
Definition read_database (h : gmap loc object) (l : loc) : option Database :=
  match h !! l with Some (ODatabase d) => Some d | _ => None end.
Definition read_security (h : gmap loc object) (l : loc) : option Security :=
  match h !! l with Some (OSecurity s) => Some s | _ => None end.

Definition write (l : loc) (o : object) (s : store) : store :=
  {| heap := <[l := o]> (heap s); metrics := metrics s |}.

(** [metrics.requests], [metrics.performance], ... dereferenced. *)
Definition get_requests (s : store) := read_requests (heap s) (requests (metrics s)).
Definition get_performance (s : store) := read_performance (heap s) (performance (metrics s)).
Definition get_errors (s : store) := read_errors (heap s) (errors (metrics s)).
Definition get_database (s : store) := read_database (heap s) (database (metrics s)).
Definition get_security (s : store) := read_security (heap s) (security (metrics s)).

Definition set_requests (r : Requests) (s : store) : store :=
  write (requests (metrics s)) (ORequests r) s.
Definition set_performance (p : Performance) (s : store) : store :=
  write (performance (metrics s)) (OPerformance p) s.
Definition set_errors (e : Errors) (s : store) : store :=
  write (errors (metrics s)) (OErrors e) s.
Definition set_database (d : Database) (s : store) : store :=
  write (database (metrics s)) (ODatabase d) s.

(** [m[k] = (m[k] || 0) + 1] *)
Definition bump {K} `{Countable K} (k : K) (m : gmap K num) : gmap K num :=
  <[k := or_zero (m !! k) + 1]> m.

(** *** metricsCollector

    The part that runs when the request arrives. *)
Definition metricsCollector (req : Request) (s : store) : option store :=
  r ← get_requests s;
  let endpoint := match route req with Some p => p | None => path req end in
  Some (set_requests
          {| total := total r + 1;
             byMethod := bump (method req) (byMethod r);
             byStatus := byStatus r;
             byEndpoint := bump endpoint (byEndpoint r) |} s).

(** updatePerformanceMetrics *)
Definition updatePerformanceMetrics (responseTime : num) (s : store) : option store :=
  p ← get_performance s;
  r ← get_requests s;
  let currentAvg := averageResponseTime p in
  let totalRequests := total r in
  let avg := (currentAvg * (totalRequests - 1) + responseTime) / totalRequests in
  Some (set_performance
          (if responseTime > n_of_Z 1000
           then {| averageResponseTime := avg;
                   slowRequests := slowRequests p + 1;
                   fastRequests := fastRequests p |}
           else {| averageResponseTime := avg;
                   slowRequests := slowRequests p;
                   fastRequests := fastRequests p + 1 |}) s).

(** The listener that [metricsCollector] registers on the response's
    'finish' event; [responseTime] is [Date.now() - startTime].  It
    returns the slow-request log line it emits, if any. *)
Definition metricsCollector_finish (req : Request) (statusCode : Z)
    (responseTime : num) (s : store) : option (option (string * num) * store) :=
  r ← get_requests s;
  let s1 := set_requests
              {| total := total r;
                 byMethod := byMethod r;
                 byStatus := bump statusCode (byStatus r);
                 byEndpoint := byEndpoint r |} s in
  s2 ← updatePerformanceMetrics responseTime s1;
  Some (if responseTime > n_of_Z 1000
        then Some ("Slow Request"%string, responseTime) else None, s2).

(** errorMetrics.  The clock is read twice: [new Date()] for the entry
    and [Date.now()] for the cut-off. *)
Definition errorMetrics (error : JsError) (req : Request)
    (new_Date Date_now : Z) (s : store) : option store :=
  e ← get_errors s;
  let errorType := str_or (name error) "UnknownError" in
  let errorEntry := {| timestamp := new_Date;
                       type := errorType;
                       entry_message := message error;
                       entry_url := url req;
                       entry_method := method req;
                       entry_ip := ip req |} in
  let pushed := last24h e ++ [errorEntry] in
  let oneDayAgo := (Date_now - 24 * 60 * 60 * 1000)%Z in
  Some (set_errors
          {| errors_total := errors_total e + 1;
             byType := bump errorType (byType e);
             last24h := List.filter (fun err => (oneDayAgo <? timestamp err)%Z) pushed |} s).

(** recordDatabaseOperation *)
Definition recordDatabaseOperation (operation : string) (duration : num)
    (s : store) : option store :=
  d ← get_database s;
  let totalQueries := queries d + 1 in
  let avg := (averageQueryTime d * (totalQueries - 1) + duration) / totalQueries in
  Some (set_database
          {| queries := totalQueries;
             averageQueryTime := avg;
             slowQueries := if duration > n_of_Z 500
                            then slowQueries d + 1 else slowQueries d |} s).

(** *** getMetrics

    [{...metrics, timestamp, uptime, memory, cpu}]: a new object that
    receives the five properties of [metrics], that is the five
    references, and four readings of the process. *)
Record Snapshot := {
  spread : Metrics;
  snapshot_timestamp : string;
  snapshot_uptime : num;
  snapshot_memory : MemoryUsage num;
  snapshot_cpu : num * num
}.

Definition getMetrics (proc : Process num) (s : store) : Snapshot :=
  {| spread := metrics s;
     snapshot_timestamp := now_iso proc;
     snapshot_uptime := uptime proc;
     snapshot_memory := memoryUsage proc;
     snapshot_cpu := cpuUsage proc |}.

(** What a caller can do to the value it received. *)
Inductive group := GRequests | GPerformance | GErrors | GDatabase | GSecurity.

Definition ref_of (g : group) (m : Metrics) : loc :=
  match g with
  | GRequests => requests m
  | GPerformance => performance m
  | GErrors => errors m
  | GDatabase => database m
  | GSecurity => security m
  end.

Definition assign (g : group) (l : loc) (m : Metrics) : Metrics :=
  match g with
  | GRequests => {| requests := l; performance := performance m; errors := errors m;
                    database := database m; security := security m |}
  | GPerformance => {| requests := requests m; performance := l; errors := errors m;
                       database := database m; security := security m |}
  | GErrors => {| requests := requests m; performance := performance m; errors := l;
                  database := database m; security := security m |}
  | GDatabase => {| requests := requests m; performance := performance m; errors := errors m;
                    database := l; security := security m |}
  | GSecurity => {| requests := requests m; performance := performance m; errors := errors m;
                    database := database m; security := l |}
  end.

Inductive mutation :=
| AssignProperty (g : group) (l : loc)
    (* [snapshot.g = x]: rebinds a property of the returned object *)
| MutateGroup (g : group) (o : object).
    (* [snapshot.g.f = v], [snapshot.g.list.push(v)], ...: writes into
       the object that [snapshot.g] refers to, leaving it as [o] *)

Definition mutate (mu : mutation) (c : Snapshot * store) : Snapshot * store :=
  let (snap, s) := c in
  match mu with
  | AssignProperty g l =>
      ({| spread := assign g l (spread snap);
          snapshot_timestamp := snapshot_timestamp snap;
          snapshot_uptime := snapshot_uptime snap;
          snapshot_memory := snapshot_memory snap;
          snapshot_cpu := snapshot_cpu snap |}, s)
  | MutateGroup g o => (snap, write (ref_of g (spread snap)) o s)
  end.

Definition mutate_all (mus : list mutation) (c : Snapshot * store) : Snapshot * store :=
  fold_left (fun c mu => mutate mu c) mus c.

(** The counters a snapshot shows: its five references dereferenced. *)
Definition counters (snap : Snapshot) (s : store) :
    option Requests * option Performance * option Errors
    * option Database * option Security :=
  (read_requests (heap s) (requests (spread snap)),
   read_performance (heap s) (performance (spread snap)),
   read_errors (heap s) (errors (spread snap)),
   read_database (heap s) (database (spread snap)),
   read_security (heap s) (security (spread snap))).

(** The aggregator's own view of its counters. *)
Definition internal_state (s : store) :=
  (get_requests s, get_performance s, get_errors s, get_database s, get_security s).

(** *** resetMetrics

    Every property of [metrics] is bound to a newly allocated object. *)
Definition alloc (o : object) (h : gmap loc object) : loc * gmap loc object :=
  let l := fresh (dom h) in (l, <[l := o]> h).

Definition resetMetrics (s : store) : store :=
  let '(l0, h0) := alloc (ORequests empty_requests) (heap s) in
  let '(l1, h1) := alloc (OPerformance empty_performance) h0 in
  let '(l2, h2) := alloc (OErrors empty_errors) h1 in
  let '(l3, h3) := alloc (ODatabase empty_database) h2 in
  let '(l4, h4) := alloc (OSecurity empty_security) h3 in
  {| heap := h4;
     metrics := {| requests := l0; performance := l1; errors := l2;
                   database := l3; security := l4 |} |}.

(** *** getHealthStatus *)
Record HealthMetrics := {
  health_requests : num;
  health_averageResponseTime : num;
  health_errorRate : num;
  health_memoryUsage : num;
  health_databaseQueries : num
}.

Record Health := {
  status : string;
  health_timestamp : string;
  health_uptime : num;
  version : string;
  environment : string;
  issues : option (list string);       (* absent unless set *)
  health_metrics : HealthMetrics
}.

Definition getHealthStatus (proc : Process num) (s : store) : option Health :=
  p ← get_performance s;
  e ← get_errors s;
  r ← get_requests s;
  d ← get_database s;
  let criticalIssues0 : list string := [] in
  let criticalIssues1 :=
    if averageResponseTime p > n_of_Z 2000
    then criticalIssues0 ++ ["High average response time"%string] else criticalIssues0 in
  let errorRate := errors_total e / nmax (total r) 1 in
  let criticalIssues2 :=
    if errorRate > n_decimal 5 2
    then criticalIssues1 ++ ["High error rate"%string] else criticalIssues1 in
  let memUsage := memoryUsage proc in
  let memUsagePercent := heapUsed memUsage / heapTotal memUsage in
  let criticalIssues :=
    if memUsagePercent > n_decimal 9 1
    then criticalIssues2 ++ ["High memory usage"%string] else criticalIssues2 in
  let warning := (0 <? length criticalIssues)%nat in
  Some {| status := if warning then "WARNING" else "OK";
          health_timestamp := now_iso proc;
          health_uptime := uptime proc;
          version := str_or (npm_package_version proc) "2.0.0";
          environment := str_or (NODE_ENV proc) "development";
          issues := if warning then Some criticalIssues else None;
          health_metrics :=
            {| health_requests := total r;
               health_averageResponseTime := nround (averageResponseTime p);
               health_errorRate := nround (errorRate * n_of_Z 100) / n_of_Z 100;
               health_memoryUsage := nround (memUsagePercent * n_of_Z 100);
               health_databaseQueries := queries d |} |}.

(** *** Requests served one after the other *)

(** A request together with how its response ended. *)
Record Exchange := {
  exchange_req : Request;
  statusCode : Z;
  responseTime : num
}.

(** Record request start, then record request finish. *)
Definition handle (x : Exchange) (s : store) : option store :=
  s1 ← metricsCollector (exchange_req x) s;
  '(_, s2) ← metricsCollector_finish (exchange_req x) (statusCode x) (responseTime x) s1;
  Some s2.

Fixpoint serve (xs : list Exchange) (s : store) : option store :=
  match xs with
  | [] => Some s
  | x :: rest => s' ← handle x s; serve rest s'
  end.

(** The arithmetic mean [(d1 + ... + dN) / N], summed left to right. *)
Definition sum (ds : list num) : num := fold_left nadd ds 0.
Definition mean (ds : list num) : num :=
  sum ds / n_of_Z (Z.of_nat (length ds)).

(** The running average read after [xs] were served from a given state. *)
Definition average_after (xs : list Exchange) (s : store) : option num :=
  s' ← serve xs s;
  p ← get_performance s';
  Some (averageResponseTime p).

End WithNumbers.
End Monitoring.

(** ** Values of a JSON request body

    What [JSON.parse] yields for a body field: the scalars, arrays and
    objects (an object is its list of own properties, in the order of the
    text); [JUndefined] stands for an absent field. *)

Unset Elimination Schemes.
Inductive jsval :=
| JUndefined
| JNull
| JBool (b : bool)
| JNum (x : float)
| JStr (s : string)
| JArr (items : list jsval)
| JObj (fields : list (string * jsval)).
Set Elimination Schemes.

(** ToBoolean: what [!v], [v || d] and [Boolean(v)] test. *)
Definition truthy (v : jsval) : bool :=
  match v with
  | JUndefined | JNull => false
  | JBool b => b
  | JNum x => F64.truthy x
  | JStr s => negb (String.eqb s "")
  | JArr _ | JObj _ => true
  end.

Definition Boolean (v : jsval) : bool := truthy v.

Definition typeof (v : jsval) : string :=
  match v with
  | JUndefined => "undefined"
  | JNull => "object"
  | JBool _ => "boolean"
  | JNum _ => "number"
  | JStr _ => "string"
  | JArr _ | JObj _ => "object"
  end.

Definition is_undefined (v : jsval) : bool :=
  match v with JUndefined => true | _ => false end.

(** ToString, as a template literal [`${v}`], [parseInt(v)] and
    [parseFloat(v)] apply it, throws a TypeError on some values.  No
    property of a parsed object is callable.  An object with an own
    property [toString] hides [Object.prototype.toString]; [valueOf], own
    or inherited, yields no primitive either, and the conversion throws.
    Any other object converts to "[object Object]".  An array is joined:
    each item other than [null] is converted in turn. *)
Fixpoint ToString_throws (v : jsval) : bool :=
  match v with
  | JObj fields => existsb (fun kv => String.eqb (fst kv) "toString") fields
  | JArr items => existsb ToString_throws items
  | _ => false
  end.

(** Built-in functions of the JavaScript runtime.  The controllers are
    written against this interface; [parseInt] yields [None] for NaN and
    the integer otherwise.  Both parsers are given values whose conversion
    to a string succeeds. *)
Class JsBuiltins := {
  parseFloat : jsval -> float;
  parseInt : jsval -> option Z;
  trim : string -> string
}.

(** [v.trim()]: only strings have the method; on anything else the call
    throws a TypeError ([None]). *)
Definition call_trim {RT : JsBuiltins} (v : jsval) : option string :=
  match v with
  | JStr s => Some (trim s)
  | _ => None
  end.

(** [parseFloat(v)] and [parseInt(v)] convert their argument to a string
    first; [None] when that conversion throws. *)
Definition call_parseFloat {RT : JsBuiltins} (v : jsval) : option float :=
  if ToString_throws v then None else Some (parseFloat v).

Definition call_parseInt {RT : JsBuiltins} (v : jsval) : option (option Z) :=
  if ToString_throws v then None else Some (parseInt v).

(** [parseFloat] applied to a number prints it and reads it back: every
    number survives, except that -0 becomes +0. *)
Definition parseFloat_number (x : float) : float :=
  if PrimFloat.eqb x 0%float then 0%float else x.

(** [n.toString().padStart(3, '0')] for an integer [n]. *)
Fixpoint zeros (k : nat) : string :=
  match k with
  | O => ""
  | S k' => String "0"%char (zeros k')
  end.

Definition padStart (width : nat) (s : string) : string :=
  (zeros (width - String.length s) ++ s)%string.

Definition toString (n : Z) : string := pretty n.

(** *** A runtime for ASCII input

    An implementation of the interface on plain decimal input, used to run
    the controllers on examples: optional leading blanks, an optional sign,
    digits, and for [parseFloat] an optional fraction.  The value of a
    decimal with at most 15 significant digits is computed by one
    correctly rounded division, as the runtime does. *)

Module AsciiRuntime.

Definition is_blank (c : ascii) : bool :=
  let n := nat_of_ascii c in
  ((n =? 32) || (9 <=? n) && (n <=? 13))%nat.

Definition digit (c : ascii) : option Z :=
  let n := nat_of_ascii c in
  if ((48 <=? n) && (n <=? 57))%nat then Some (Z.of_nat (n - 48)) else None.

Fixpoint skip_blanks (s : string) : string :=
  match s with
  | String c s' => if is_blank c then skip_blanks s' else s
  | EmptyString => s
  end.

(** Reads a run of digits: its value continuing [acc], how many digits
    were read, and the rest of the input. *)
Fixpoint digits (s : string) (acc : Z) (count : nat) : Z * nat * string :=
  match s with
  | String c s' =>
      match digit c with
      | Some d => digits s' (10 * acc + d) (S count)
      | None => (acc, count, s)
      end
  | EmptyString => (acc, count, s)
  end.

Definition sign (s : string) : bool * string :=
  match s with
  | String "-"%char s' => (true, s')
  | String "+"%char s' => (false, s')
  | _ => (false, s)
  end.

Definition parse_int (s : string) : option Z :=
  let '(neg, s1) := sign (skip_blanks s) in
  let '(n, count, _) := digits s1 0 0 in
  if (count =? 0)%nat then None else Some (if neg then - n else n).

Definition parse_float (s : string) : float :=
  let '(neg, s1) := sign (skip_blanks s) in
  let '(n, count, s2) := digits s1 0 0 in
  let '(m, scale, fcount) :=
    match s2 with
    | String "."%char s3 =>
        let '(m, k, _) := digits s3 n 0 in (m, k, k)
    | _ => (n, O, O)
    end in
  if ((count =? 0) && (fcount =? 0))%nat then PrimFloat.nan
  else
    let v := PrimFloat.div (F64.of_Z m) (F64.of_Z (10 ^ Z.of_nat scale)) in
    if neg then PrimFloat.opp v else v.

(** Blanks removed at both ends. *)
Fixpoint trim_end (s : string) : string :=
  match s with
  | EmptyString => EmptyString
  | String c s' =>
      match trim_end s' with
      | EmptyString => if is_blank c then EmptyString else String c EmptyString
      | t => String c t
      end
  end.

Definition trim_blanks (s : string) : string := trim_end (skip_blanks s).

(** The integer part of a number, for numbers that print in plain
    decimal notation. *)
Definition int_of_float (x : float) : option Z :=
  match Prim2SF x with
  | S754_zero _ => Some 0
  | S754_finite s m e =>
      let q := if 0 <=? e then Z.pos m * 2 ^ e else Z.pos m / 2 ^ (- e) in
      Some (if s then - q else q)
  | _ => None
  end.

(** The text of an array starts with the text of its first item, and the
    comma that follows ends every numeral: an array parses as its first
    item does, and the empty array, like any object, as no number. *)
Fixpoint parse_float_of (v : jsval) : float :=
  match v with
  | JStr s => parse_float s
  | JNum x => parseFloat_number x
  | JArr (v' :: _) => parse_float_of v'
  | _ => PrimFloat.nan
  end.

Fixpoint parse_int_of (v : jsval) : option Z :=
  match v with
  | JStr s => parse_int s
  | JNum x => int_of_float x
  | JArr (v' :: _) => parse_int_of v'
  | _ => None
  end.

#[export] Instance builtins : JsBuiltins := {
  parseFloat := parse_float_of;
  parseInt := parse_int_of;
  trim := trim_blanks
}.

End AsciiRuntime.

(** ** The two persisted entities

    Identifiers and display orders are integers: the INTEGER and SERIAL
    columns of the migration and, in the JSON files, whole numbers in the
    range where JavaScript numbers are exact (magnitude below 2^53).  On
    such a number [parseInt] gives the number back, so the conversions
    [parseInt(dadosPrato.id_categoria)] of the adapters leave an identifier
    that is already a number as it is. *)

Record Categoria := {
  id_categoria : Z;
  nome_categoria : string;
  ordem_exibicao : Z
}.

Record Prato := {
  id_prato : Z;
  codigo_prato : string;
  nome_prato : string;
  descricao : string;
  preco : float;
  disponivel : bool;
  prato_id_categoria : Z;       (* the dish's [id_categoria] *)
  tipo_item : string
}.

(** One group of the menu: [{categoria, ordem_exibicao, pratos}]. *)
Record Grupo := {
  categoria : string;
  grupo_ordem_exibicao : Z;
  pratos : list Prato
}.

(** [`PRATO${id.toString().padStart(3, '0')}`] *)
Definition codigo_of_id (id : Z) : string :=
  ("PRATO" ++ padStart 3 (toString id))%string.

(** A stable sort, as [Array.prototype.sort] and as a model of ORDER BY:
    [x] is placed before the first element that is not below it. *)
Section Sort.
Context {A : Type} (le : A -> A -> bool).

Fixpoint insert_sorted (x : A) (l : list A) : list A :=
  match l with
  | [] => [x]
  | y :: l' => if le x y then x :: l else y :: insert_sorted x l'
  end.

Fixpoint sort_by (l : list A) : list A :=
  match l with
  | [] => []
  | x :: l' => insert_sorted x (sort_by l')
  end.
End Sort.

(** [(a, b) => a.ordem_exibicao - b.ordem_exibicao] puts [a] first when the
    difference is not positive. *)
Definition by_ordem_exibicao (a b : Categoria) : bool :=
  ordem_exibicao a - ordem_exibicao b <=? 0.

(** The largest of a non-empty list: [Math.max(...ids)]. *)
Definition Math_max (x : Z) (xs : list Z) : Z := fold_left Z.max xs x.

(** How a call of the JSON-file adapter ends: with a value, or with the
    TypeError of a failed string conversion, which its [catch] throws
    again. *)
Inductive completion (A : Type) :=
| Returned (a : A)
| Thrown.
Arguments Returned {A} a.
Arguments Thrown {A}.

(** ** models/database: the JSON-file store *)

Module JsonDatabase.
Section WithBuiltins.

Context {RT : JsBuiltins}.

(** The contents of [categorias.json] and [pratos.json]. *)
Record files := {
  categorias_json : list Categoria;
  pratos_json : list Prato
}.

(** What [createPrato] is given: texts, numbers and a flag, with
    [disponivel] and [tipo_item] possibly left out. *)
Record DadosPrato := {
  dados_nome_prato : string;
  dados_descricao : string;
  dados_preco : float;
  dados_disponivel : option bool;      (* [None]: undefined *)
  dados_id_categoria : Z;
  dados_tipo_item : option string      (* [None]: undefined *)
}.

(** What [updatePrato] is given: only the fields to change. *)
Record DadosAtualizacao := {
  novo_nome_prato : option string;
  nova_descricao : option string;
  novo_preco : option float;
  nova_disponivel : option bool;
  novo_id_categoria : option Z
}.

Definition getCategorias (db : files) : list Categoria :=
  sort_by by_ordem_exibicao (categorias_json db).

(** [parseInt(id)] runs inside the callback of [find]; when it throws,
    the [catch] returns [null]. *)
Definition getCategoriaById (id : jsval) (db : files) : option Categoria :=
  if ToString_throws id then None
  else List.find (fun cat => match parseInt id with
                             | Some k => id_categoria cat =? k
                             | None => false
                             end) (categorias_json db).

Definition getPratos (db : files) : list Prato := pratos_json db.

Definition getPratosDisponiveis (db : files) : list Grupo :=
  let todos := getPratos db in
  let categorias := getCategorias db in
  let pratosDisponiveis := List.filter (fun prato => disponivel prato) todos in
  List.filter (fun grupo => (0 <? length (pratos grupo))%nat)
    (map (fun cat =>
            {| categoria := nome_categoria cat;
               grupo_ordem_exibicao := ordem_exibicao cat;
               pratos := List.filter
                           (fun prato => prato_id_categoria prato =? id_categoria cat)
                           pratosDisponiveis |})
         categorias).

Definition is_prato (id : jsval) (prato : Prato) : bool :=
  match parseInt id with
  | Some k => id_prato prato =? k
  | None => false
  end.

Definition getPratoById (id : jsval) (db : files) : option Prato :=
  if ToString_throws id then None
  else List.find (is_prato id) (pratos_json db).

Definition createPrato (dadosPrato : DadosPrato) (db : files) : Prato * files :=
  let pratos := pratos_json db in
  let novoId :=
    match map id_prato pratos with
    | [] => 1
    | i :: ids => Math_max i ids + 1
    end in
  let codigoPrato := codigo_of_id novoId in
  let novoPrato :=
    {| id_prato := novoId;
       codigo_prato := codigoPrato;
       nome_prato := dados_nome_prato dadosPrato;
       descricao := dados_descricao dadosPrato;
       preco := parseFloat_number (dados_preco dadosPrato);
       disponivel := match dados_disponivel dadosPrato with
                     | Some b => b
                     | None => true
                     end;
       prato_id_categoria := dados_id_categoria dadosPrato;
       tipo_item := str_or (dados_tipo_item dadosPrato) "Cardápio" |} in
  (novoPrato,
   {| categorias_json := categorias_json db;
      pratos_json := pratos ++ [novoPrato] |}).

(** The assignments [pratos[indice].campo = ...] of [updatePrato]. *)
Definition aplicar (d : DadosAtualizacao) (p : Prato) : Prato :=
  {| id_prato := id_prato p;
     codigo_prato := codigo_prato p;
     nome_prato := match novo_nome_prato d with Some n => n | None => nome_prato p end;
     descricao := match nova_descricao d with Some t => t | None => descricao p end;
     preco := match novo_preco d with
              | Some x => parseFloat_number x
              | None => preco p
              end;
     disponivel := match nova_disponivel d with Some b => b | None => disponivel p end;
     prato_id_categoria := match novo_id_categoria d with
                           | Some k => k
                           | None => prato_id_categoria p
                           end;
     tipo_item := tipo_item p |}.

(** [findIndex], then an update in place of the element found. *)
Fixpoint update_first (test : Prato -> bool) (f : Prato -> Prato)
    (l : list Prato) : option (Prato * list Prato) :=
  match l with
  | [] => None
  | p :: l' =>
      if test p then Some (f p, f p :: l')
      else match update_first test f l' with
           | Some (q, l'') => Some (q, p :: l'')
           | None => None
           end
  end.

(** The callback of [findIndex] evaluates [parseInt(id)] at the first
    stored dish. *)
Definition findIndex_throws (id : jsval) (db : files) : bool :=
  ToString_throws id && (0 <? length (pratos_json db))%nat.

Definition updatePrato (id : jsval) (dadosAtualizacao : DadosAtualizacao)
    (db : files) : completion (option Prato) * files :=
  if findIndex_throws id db then (Thrown, db)
  else
    match update_first (is_prato id) (aplicar dadosAtualizacao) (pratos_json db) with
    | None => (Returned None, db)
    | Some (p, pratos) =>
        (Returned (Some p),
         {| categorias_json := categorias_json db; pratos_json := pratos |})
    end.

Definition updateDisponibilidadePrato (id : jsval) (nova : bool)
    (db : files) : completion (option Prato) * files :=
  let set p :=
    {| id_prato := id_prato p; codigo_prato := codigo_prato p;
       nome_prato := nome_prato p; descricao := descricao p;
       preco := preco p; disponivel := nova;
       prato_id_categoria := prato_id_categoria p;
       tipo_item := tipo_item p |} in
  if findIndex_throws id db then (Thrown, db)
  else
    match update_first (is_prato id) set (pratos_json db) with
    | None => (Returned None, db)
    | Some (p, pratos) =>
        (Returned (Some p),
         {| categorias_json := categorias_json db; pratos_json := pratos |})
    end.

End WithBuiltins.
End JsonDatabase.

(** ** models/prismaDatabase: the relational store behind Prisma *)

(** What the database engine contributes and the source does not fix: the
    collation that ORDER BY uses on names, whether a row's values fit their
    columns (VARCHAR(20/200/50), DECIMAL(10,2)), and the value a price
    takes when stored in its DECIMAL(10,2) column. *)
Class Engine := {
  collate_le : string -> string -> bool;
  fits_columns : Prato -> bool;
  to_decimal : float -> float
}.

Module PrismaDatabase.

(** Errors the client throws, and the TypeError of a failed string
    conversion in an argument of a call. *)
Inductive PrismaError :=
| P2002 (target : list string)      (* unique constraint failed on [target] *)
| P2003                             (* foreign key constraint failed *)
| P2025                             (* record to update not found *)
| ValidationError                   (* an argument of the wrong type *)
| DatabaseError                     (* a value rejected by the engine *)
| TypeError.                        (* thrown by [parseInt(id)] *)

Inductive outcome (A : Type) :=
| Resolved (a : A)
| Rejected (e : PrismaError).
Arguments Resolved {A} a.
Arguments Rejected {A} e.

Section WithEngine.

Context {RT : JsBuiltins} {DB : Engine}.

(** The two tables of the migration and the sequence that feeds the
    SERIAL column [id_prato]. *)
Record tables := {
  categorias : list Categoria;
  pratos_table : list Prato;
  pratos_id_prato_seq : Z           (* the value [nextval] returns next *)
}.

(** A dish with [include: { categoria: true }]. *)
Record PratoComCategoria := {
  prato : Prato;
  prato_categoria : option Categoria
}.

(** What [createPrato] is given by the controller. *)
Record DadosPrato := {
  dados_nome_prato : string;
  dados_descricao : string;
  dados_preco : float;
  dados_id_categoria : option Z;     (* [None]: NaN *)
  dados_disponivel : option bool;    (* [None]: undefined *)
  dados_tipo_item : jsval
}.

(** What [updatePrato] is given: only the fields to change. *)
Record DadosAtualizacao := {
  novo_nome_prato : option string;
  nova_descricao : option string;
  novo_preco : option float;
  nova_disponivel : option bool;
  novo_id_categoria : option (option Z)
}.

(** INTEGER columns hold 32-bit values; the client rejects others. *)
Definition int4 (k : Z) : bool := (- 2 ^ 31 <=? k) && (k <? 2 ^ 31).

(** An argument for an Int field: NaN and out-of-range values are
    rejected before any query runs. *)
Definition int_argument (v : option Z) : outcome Z :=
  match v with
  | Some k => if int4 k then Resolved k else Rejected ValidationError
  | None => Rejected ValidationError
  end.

Definition categoria_of (db : tables) (k : Z) : option Categoria :=
  List.find (fun cat => id_categoria cat =? k) (categorias db).

Definition with_categoria (db : tables) (p : Prato) : PratoComCategoria :=
  {| prato := p; prato_categoria := categoria_of db (prato_id_categoria p) |}.

Definition by_nome_prato (a b : Prato) : bool :=
  collate_le (nome_prato a) (nome_prato b).

(** [orderBy: { ordem_exibicao: 'asc' }] *)
Definition getCategorias (db : tables) : outcome (list Categoria) :=
  Resolved (sort_by by_ordem_exibicao (categorias db)).

Definition getCategoriaById (id : jsval) (db : tables) : outcome (option Categoria) :=
  match call_parseInt id with
  | None => Rejected TypeError
  | Some n =>
      match int_argument n with
      | Resolved k => Resolved (categoria_of db k)
      | Rejected e => Rejected e
      end
  end.

(** The category's display order of a joined dish, for
    [orderBy: [{ categoria: { ordem_exibicao: 'asc' } }, { nome_prato: 'asc' }]]. *)
Definition by_categoria_ordem (a b : PratoComCategoria) : bool :=
  match prato_categoria a, prato_categoria b with
  | Some ca, Some cb => by_ordem_exibicao ca cb
  | _, _ => true
  end.

Definition getPratos (db : tables) : outcome (list PratoComCategoria) :=
  Resolved (sort_by by_categoria_ordem
              (map (with_categoria db) (sort_by by_nome_prato (pratos_table db)))).

(** [include: { pratos: { where: { disponivel: true },
                          orderBy: { nome_prato: 'asc' } } }] *)
Definition pratos_of (db : tables) (cat : Categoria) : list Prato :=
  sort_by by_nome_prato
    (List.filter (fun p => (prato_id_categoria p =? id_categoria cat) && disponivel p)
       (pratos_table db)).

Definition getPratosDisponiveis (db : tables) : outcome (list Grupo) :=
  let categorias := map (fun cat => (cat, pratos_of db cat))
                        (sort_by by_ordem_exibicao (categorias db)) in
  Resolved
    (map (fun '(cat, ps) =>
            {| categoria := nome_categoria cat;
               grupo_ordem_exibicao := ordem_exibicao cat;
               pratos := ps |})
         (List.filter (fun '(cat, ps) => (0 <? length ps)%nat) categorias)).

Definition getPratoById (id : jsval) (db : tables) : outcome (option PratoComCategoria) :=
  match call_parseInt id with
  | None => Rejected TypeError
  | Some n =>
      match int_argument n with
      | Resolved k =>
          Resolved (option_map (with_categoria db)
                      (List.find (fun p => id_prato p =? k) (pratos_table db)))
      | Rejected e => Rejected e
      end
  end.

(** [findFirst({ orderBy: { id_prato: 'desc' } })]: a row with the
    largest identifier. *)
Definition ultimo_prato (db : tables) : option Prato :=
  match pratos_table db with
  | [] => None
  | p :: ps =>
      Some (fold_left (fun best q => if id_prato best <? id_prato q then q else best)
              ps p)
  end.

(** INSERT of a row whose identifier is drawn from the sequence.  The
    sequence moves on whether or not the row is accepted. *)
Definition insert_prato (row : Z -> Prato) (db : tables) : outcome Prato * tables :=
  let id := pratos_id_prato_seq db in
  let novo := row id in
  let advanced ps :=
    {| categorias := categorias db; pratos_table := ps;
       pratos_id_prato_seq := id + 1 |} in
  if negb (fits_columns novo) then (Rejected DatabaseError, advanced (pratos_table db))
  else if existsb (fun p => id_prato p =? id) (pratos_table db)
  then (Rejected (P2002 ["id_prato"%string]), advanced (pratos_table db))
  else if existsb (fun p => String.eqb (codigo_prato p) (codigo_prato novo))
            (pratos_table db)
  then (Rejected (P2002 ["codigo_prato"%string]), advanced (pratos_table db))
  else match categoria_of db (prato_id_categoria novo) with
       | None => (Rejected P2003, advanced (pratos_table db))
       | Some _ => (Resolved novo, advanced (pratos_table db ++ [novo]))
       end.

Definition createPrato (dadosPrato : DadosPrato) (db : tables)
    : outcome PratoComCategoria * tables :=
  let ultimoPrato := ultimo_prato db in
  let proximoId := match ultimoPrato with
                   | Some p => id_prato p + 1
                   | None => 1
                   end in
  let codigoPrato := codigo_of_id proximoId in
  let tipo := if truthy (dados_tipo_item dadosPrato)
              then dados_tipo_item dadosPrato else JStr "Cardápio" in
  match int_argument (dados_id_categoria dadosPrato), tipo with
  | Resolved k, JStr tipo_item =>
      let row id :=
        {| id_prato := id;
           codigo_prato := codigoPrato;
           nome_prato := dados_nome_prato dadosPrato;
           descricao := dados_descricao dadosPrato;
           preco := to_decimal (parseFloat_number (dados_preco dadosPrato));
           disponivel := match dados_disponivel dadosPrato with
                         | Some b => b
                         | None => true
                         end;
           prato_id_categoria := k;
           tipo_item := tipo_item |} in
      match insert_prato row db with
      | (Resolved novo, db') => (Resolved (with_categoria db' novo), db')
      | (Rejected e, db') => (Rejected e, db')
      end
  | _, _ => (Rejected ValidationError, db)
  end.

Definition aplicar (d : DadosAtualizacao) (k : option Z) (p : Prato) : Prato :=
  {| id_prato := id_prato p;
     codigo_prato := codigo_prato p;
     nome_prato := match novo_nome_prato d with Some n => n | None => nome_prato p end;
     descricao := match nova_descricao d with Some t => t | None => descricao p end;
     preco := match novo_preco d with
              | Some x => to_decimal (parseFloat_number x)
              | None => preco p
              end;
     disponivel := match nova_disponivel d with Some b => b | None => disponivel p end;
     prato_id_categoria := match k with Some k' => k' | None => prato_id_categoria p end;
     tipo_item := tipo_item p |}.

(** UPDATE of the row with identifier [k]. *)
Definition update_prato (k : Z) (f : Prato -> Prato) (db : tables)
    : outcome PratoComCategoria * tables :=
  match List.find (fun p => id_prato p =? k) (pratos_table db) with
  | None => (Rejected P2025, db)
  | Some p =>
      let novo := f p in
      if negb (fits_columns novo) then (Rejected DatabaseError, db)
      else match categoria_of db (prato_id_categoria novo) with
           | None => (Rejected P2003, db)
           | Some _ =>
               let db' :=
                 {| categorias := categorias db;
                    pratos_table :=
                      map (fun q => if id_prato q =? k then f q else q)
                          (pratos_table db);
                    pratos_id_prato_seq := pratos_id_prato_seq db |} in
               (Resolved (with_categoria db' novo), db')
           end
  end.

Definition updatePrato (id : jsval) (dadosAtualizacao : DadosAtualizacao)
    (db : tables) : outcome PratoComCategoria * tables :=
  let categoria_arg :=
    match novo_id_categoria dadosAtualizacao with
    | Some v => match int_argument v with
                | Resolved k => Resolved (Some k)
                | Rejected e => Rejected e
                end
    | None => Resolved None
    end in
  match call_parseInt id with
  | None => (Rejected TypeError, db)
  | Some n =>
      match categoria_arg, int_argument n with
      | Resolved kc, Resolved k => update_prato k (aplicar dadosAtualizacao kc) db
      | _, _ => (Rejected ValidationError, db)
      end
  end.

Definition updateDisponibilidadePrato (id : jsval) (nova : bool) (db : tables)
    : outcome PratoComCategoria * tables :=
  match call_parseInt id with
  | None => (Rejected TypeError, db)
  | Some n =>
      match int_argument n with
      | Resolved k =>
          update_prato k
            (fun p => {| id_prato := id_prato p; codigo_prato := codigo_prato p;
                         nome_prato := nome_prato p; descricao := descricao p;
                         preco := preco p; disponivel := nova;
                         prato_id_categoria := prato_id_categoria p;
                         tipo_item := tipo_item p |}) db
      | Rejected e => (Rejected e, db)
      end
  end.

End WithEngine.

End PrismaDatabase.

(** ** The administrative controllers *)

(** The fields the controllers read from [req.body]. *)
Record Body := {
  body_nome_prato : jsval;
  body_descricao : jsval;
  body_preco : jsval;
  body_id_categoria : jsval;
  body_disponivel : jsval;
  body_tipo_item : jsval
}.

(** The panel statistics of the list-all-dishes response. *)
Record Estatisticas := {
  total_pratos : nat;
  pratos_disponiveis : nat;
  pratos_indisponiveis : nat;
  categorias_ativas : nat
}.

(** What a handler sends: the HTTP status with, for a failure, the [error]
    label of the JSON body, for a success the dish (and the name of its
    category when the response carries one) or the listing.  The free-text
    [message] of a failure is left out.  In the dedicated availability
    operation the value passed on is the body's [disponivel] itself, a
    boolean at that point, written [Boolean nova]. *)
Inductive Response :=
| Erro (status : Z) (error : string)
| ComPrato (status : Z) (message : string) (p : Prato) (nome_categoria : option string)
| Lista (ps : list (Prato * string)) (estatisticas : Estatisticas).

Definition http_status (r : Response) : Z :=
  match r with
  | Erro status _ => status
  | ComPrato status _ _ _ => status
  | Lista _ _ => 200
  end.

Definition erro_interno : Response := Erro 500 "Erro interno do servidor".

(** [isNaN(precoNumerico) || precoNumerico < 0] *)
Definition preco_invalido (precoNumerico : float) : bool :=
  F64.isNaN precoNumerico || PrimFloat.ltb precoNumerico 0%float.

(** A dish as the responses show it: [preco: parseFloat(prato.preco)]. *)
Definition com_preco_numerico (p : Prato) : Prato :=
  {| id_prato := id_prato p; codigo_prato := codigo_prato p;
     nome_prato := nome_prato p; descricao := descricao p;
     preco := parseFloat_number (preco p); disponivel := disponivel p;
     prato_id_categoria := prato_id_categoria p; tipo_item := tipo_item p |}.

Definition estatisticas_de (ps : list Prato) (categorias : list Categoria) : Estatisticas :=
  {| total_pratos := length ps;
     pratos_disponiveis := length (List.filter (fun p => disponivel p) ps);
     pratos_indisponiveis := length (List.filter (fun p => negb (disponivel p)) ps);
     categorias_ativas := length categorias |}.

(** *** controllers/adminControllerPrisma *)

Module AdminControllerPrisma.
Import PrismaDatabase.
Section WithEngine.

Context {RT : JsBuiltins} {DB : Engine}.

(** GET /api/admin/pratos *)
Definition getTodosPratos (db : tables) : Response :=
  match getPratos db with
  | Rejected _ => erro_interno
  | Resolved ps =>
      match getCategorias db with
      | Rejected _ => erro_interno
      | Resolved categorias =>
          let pratosEnriquecidos :=
            map (fun pc =>
                   (com_preco_numerico (prato pc),
                    match prato_categoria pc with
                    | Some c => nome_categoria c
                    | None => "Categoria não encontrada"%string
                    end)) ps in
          Lista pratosEnriquecidos (estatisticas_de (map prato ps) categorias)
      end
  end.

(** The [catch] of [criarPrato]. *)
Definition criarPrato_catch (e : PrismaError) : Response :=
  match e with
  | P2002 target =>
      if existsb (String.eqb "codigo_prato") target
      then Erro 400 "Código duplicado"
      else erro_interno
  | _ => erro_interno
  end.

Definition resposta (status : Z) (message : string) (pc : PratoComCategoria) : Response :=
  ComPrato status message (com_preco_numerico (prato pc))
    (option_map nome_categoria (prato_categoria pc)).

(** POST /api/admin/pratos *)
Definition criarPrato (body : Body) (db : tables) : Response * tables :=
  if negb (truthy (body_nome_prato body)) || negb (truthy (body_descricao body))
     || negb (truthy (body_preco body)) || negb (truthy (body_id_categoria body))
  then (Erro 400 "Dados inválidos", db)
  else
    match getCategoriaById (body_id_categoria body) db with
    | Rejected e => (criarPrato_catch e, db)
    | Resolved None => (Erro 400 "Categoria inválida", db)
    | Resolved (Some _) =>
        match call_parseFloat (body_preco body) with
        | None => (erro_interno, db)
        | Some precoNumerico =>
        if preco_invalido precoNumerico
        then (Erro 400 "Preço inválido", db)
        else
          match call_trim (body_nome_prato body), call_trim (body_descricao body) with
          | Some nome, Some desc =>
              let dadosPrato :=
                {| dados_nome_prato := nome;
                   dados_descricao := desc;
                   dados_preco := precoNumerico;
                   dados_id_categoria := parseInt (body_id_categoria body);
                   dados_disponivel :=
                     Some (if is_undefined (body_disponivel body) then true
                           else Boolean (body_disponivel body));
                   dados_tipo_item :=
                     if truthy (body_tipo_item body) then body_tipo_item body
                     else JStr "Cardápio" |} in
              match createPrato dadosPrato db with
              | (Resolved novoPrato, db') =>
                  (resposta 201 "Prato criado com sucesso" novoPrato, db')
              | (Rejected e, db') => (criarPrato_catch e, db')
              end
          | _, _ => (erro_interno, db)
          end
        end
    end.

(** The validations of [atualizarPrato], field by field; each may end
    the request with a response. *)
Definition validar_nome (v : jsval) : Response + option string :=
  if is_undefined v then inr None
  else match call_trim v with
       | None => inl erro_interno
       | Some t => if String.eqb t "" then inl (Erro 400 "Nome inválido")
                   else inr (Some t)
       end.

Definition validar_descricao (v : jsval) : Response + option string :=
  if is_undefined v then inr None
  else match call_trim v with
       | None => inl erro_interno
       | Some t => inr (Some t)
       end.

Definition validar_preco (v : jsval) : Response + option float :=
  if is_undefined v then inr None
  else match call_parseFloat v with
       | None => inl erro_interno
       | Some precoNumerico =>
           if preco_invalido precoNumerico then inl (Erro 400 "Preço inválido")
           else inr (Some precoNumerico)
       end.

Definition validar_categoria (v : jsval) (db : tables) : Response + option (option Z) :=
  if is_undefined v then inr None
  else match getCategoriaById v db with
       | Rejected _ => inl erro_interno
       | Resolved None => inl (Erro 400 "Categoria inválida")
       | Resolved (Some _) => inr (Some (parseInt v))
       end.

Definition coagir_disponivel (v : jsval) : option bool :=
  if is_undefined v then None else Some (Boolean v).

(** PUT /api/admin/pratos/:id *)
Definition atualizarPrato (id : string) (body : Body) (db : tables) : Response * tables :=
  match getPratoById (JStr id) db with
  | Rejected _ => (erro_interno, db)
  | Resolved None => (Erro 404 "Prato não encontrado", db)
  | Resolved (Some _) =>
      match validar_nome (body_nome_prato body) with
      | inl r => (r, db)
      | inr nome =>
      match validar_descricao (body_descricao body) with
      | inl r => (r, db)
      | inr desc =>
      match validar_preco (body_preco body) with
      | inl r => (r, db)
      | inr prec =>
      match validar_categoria (body_id_categoria body) db with
      | inl r => (r, db)
      | inr cat =>
          let dadosAtualizacao :=
            {| novo_nome_prato := nome;
               nova_descricao := desc;
               novo_preco := prec;
               nova_disponivel := coagir_disponivel (body_disponivel body);
               novo_id_categoria := cat |} in
          match updatePrato (JStr id) dadosAtualizacao db with
          | (Resolved pratoAtualizado, db') =>
              (resposta 200 "Prato atualizado com sucesso" pratoAtualizado, db')
          | (Rejected _, db') => (erro_interno, db')
          end
      end end end end
  end.

(** PATCH /api/admin/pratos/:id/disponibilidade.  The handler starts by
    logging a line that interpolates [disponivel]. *)
Definition alterarDisponibilidade (id : string) (body : Body) (db : tables)
    : Response * tables :=
  let nova := body_disponivel body in
  if ToString_throws nova then (erro_interno, db)
  else
  if is_undefined nova || negb (String.eqb (typeof nova) "boolean")
  then (Erro 400 "Parâmetro inválido", db)
  else
    match getPratoById (JStr id) db with
    | Rejected _ => (erro_interno, db)
    | Resolved None => (Erro 404 "Prato não encontrado", db)
    | Resolved (Some _) =>
        match updateDisponibilidadePrato (JStr id) (Boolean nova) db with
        | (Resolved pratoAtualizado, db') =>
            (resposta 200
               (if Boolean nova then "Prato marcado como disponível com sucesso"
                else "Prato marcado como indisponível com sucesso")
               pratoAtualizado, db')
        | (Rejected _, db') => (erro_interno, db')
        end
    end.

End WithEngine.
End AdminControllerPrisma.

(** *** controllers/adminController, on the JSON-file store

    Every handler first logs [req.usuario.nome]; [usuario] is the name the
    authentication middleware attached, [None] when it attached none (the
    property access then throws). *)

Module AdminController.
Import JsonDatabase.
Section WithBuiltins.

Context {RT : JsBuiltins}.

(** GET /api/admin/pratos *)
Definition getTodosPratos (usuario : option string) (db : files) : Response :=
  match usuario with
  | None => erro_interno
  | Some _ =>
      let ps := getPratos db in
      let categorias := getCategorias db in
      let pratosEnriquecidos :=
        map (fun p =>
               (p,
                match List.find (fun cat => id_categoria cat =? prato_id_categoria p)
                        categorias with
                | Some c => nome_categoria c
                | None => "Categoria não encontrada"%string
                end)) ps in
      Lista pratosEnriquecidos (estatisticas_de ps categorias)
  end.

Definition validar_nome (v : jsval) : Response + option string :=
  if is_undefined v then inr None
  else match call_trim v with
       | None => inl erro_interno
       | Some t => if String.eqb t "" then inl (Erro 400 "Nome inválido")
                   else inr (Some t)
       end.

Definition validar_descricao (v : jsval) : Response + option string :=
  if is_undefined v then inr None
  else match call_trim v with
       | None => inl erro_interno
       | Some t => inr (Some t)
       end.

Definition validar_preco (v : jsval) : Response + option float :=
  if is_undefined v then inr None
  else match call_parseFloat v with
       | None => inl erro_interno
       | Some precoNumerico =>
           if preco_invalido precoNumerico then inl (Erro 400 "Preço inválido")
           else inr (Some precoNumerico)
       end.

(** [parseInt(id_categoria)] is an integer once the category was found.
    The message of the 400 answer interpolates [id_categoria]. *)
Definition validar_categoria (v : jsval) (db : files) : Response + option Z :=
  if is_undefined v then inr None
  else match getCategoriaById v db with
       | None => if ToString_throws v then inl erro_interno
                 else inl (Erro 400 "Categoria inválida")
       | Some c => inr (Some (id_categoria c))
       end.

Definition coagir_disponivel (v : jsval) : option bool :=
  if is_undefined v then None else Some (Boolean v).

(** PUT /api/admin/pratos/:id *)
Definition atualizarPrato (usuario : option string) (id : string) (body : Body)
    (db : files) : Response * files :=
  match usuario with
  | None => (erro_interno, db)
  | Some _ =>
  match getPratoById (JStr id) db with
  | None => (Erro 404 "Prato não encontrado", db)
  | Some _ =>
      match validar_nome (body_nome_prato body) with
      | inl r => (r, db)
      | inr nome =>
      match validar_descricao (body_descricao body) with
      | inl r => (r, db)
      | inr desc =>
      match validar_preco (body_preco body) with
      | inl r => (r, db)
      | inr prec =>
      match validar_categoria (body_id_categoria body) db with
      | inl r => (r, db)
      | inr cat =>
          let dadosAtualizacao :=
            {| novo_nome_prato := nome;
               nova_descricao := desc;
               novo_preco := prec;
               nova_disponivel := coagir_disponivel (body_disponivel body);
               novo_id_categoria := cat |} in
          match updatePrato (JStr id) dadosAtualizacao db with
          | (Returned (Some pratoAtualizado), db') =>
              (ComPrato 200 "Prato atualizado com sucesso" pratoAtualizado None, db')
          | (_, db') => (erro_interno, db')
          end
      end end end end
  end
  end.

(** PATCH /api/admin/pratos/:id/disponibilidade.  The line logged first
    interpolates [req.usuario.nome] and [disponivel]. *)
Definition alterarDisponibilidade (usuario : option string) (id : string)
    (body : Body) (db : files) : Response * files :=
  match usuario with
  | None => (erro_interno, db)
  | Some _ =>
  let nova := body_disponivel body in
  if ToString_throws nova then (erro_interno, db)
  else
  if is_undefined nova || negb (String.eqb (typeof nova) "boolean")
  then (Erro 400 "Parâmetro inválido", db)
  else
    match getPratoById (JStr id) db with
    | None => (Erro 404 "Prato não encontrado", db)
    | Some _ =>
        match updateDisponibilidadePrato (JStr id) (Boolean nova) db with
        | (Returned (Some pratoAtualizado), db') =>
            (ComPrato 200
               (if Boolean nova then "Prato marcado como disponível com sucesso"
                else "Prato marcado como indisponível com sucesso")
               pratoAtualizado None, db')
        | (_, db') => (erro_interno, db')
        end
    end
  end.

End WithBuiltins.
End AdminController.

(** ** Example data *)

Module Examples.

(** A database engine for examples: names compare by character codes,
    every value fits its column and prices are stored as given. *)
Definition engine : Engine :=
  {| collate_le := String.leb;
     fits_columns := fun _ => true;
     to_decimal := fun x => x |}.

Definition entradas : Categoria :=
  {| id_categoria := 1; nome_categoria := "Entradas"; ordem_exibicao := 1 |}.
Definition principais : Categoria :=
  {| id_categoria := 2; nome_categoria := "Pratos Principais"; ordem_exibicao := 2 |}.
Definition sobremesas : Categoria :=
  {| id_categoria := 3; nome_categoria := "Sobremesas"; ordem_exibicao := 3 |}.
Definition bebidas : Categoria :=
  {| id_categoria := 4; nome_categoria := "Bebidas"; ordem_exibicao := 4 |}.

Definition bruschetta : Prato :=
  {| id_prato := 1; codigo_prato := "PRATO001"; nome_prato := "Bruschetta Italiana";
     descricao := "Pão italiano tostado"; preco := 18.9%float; disponivel := true;
     prato_id_categoria := 1; tipo_item := "Cardápio" |}.
Definition salmao : Prato :=
  {| id_prato := 2; codigo_prato := "PRATO002"; nome_prato := "Salmão Grelhado";
     descricao := "Filé de salmão grelhado"; preco := 45.9%float; disponivel := true;
     prato_id_categoria := 2; tipo_item := "Cardápio" |}.
Definition tiramisu : Prato :=
  {| id_prato := 3; codigo_prato := "PRATO003"; nome_prato := "Tiramisu";
     descricao := "Sobremesa italiana"; preco := 16.9%float; disponivel := false;
     prato_id_categoria := 3; tipo_item := "Cardápio" |}.

(** The data [initializeData] writes. *)
Definition initial_files : JsonDatabase.files :=
  {| JsonDatabase.categorias_json := [entradas; principais; sobremesas; bebidas];
     JsonDatabase.pratos_json := [bruschetta; salmao; tiramisu] |}.

(** The same rows in the relational store, the sequence set past them as
    seed.sql does. *)
Definition seeded_tables : PrismaDatabase.tables :=
  {| PrismaDatabase.categorias := [entradas; principais; sobremesas; bebidas];
     PrismaDatabase.pratos_table := [bruschetta; salmao; tiramisu];
     PrismaDatabase.pratos_id_prato_seq := 4 |}.

(** Two available desserts, stored in the order Tiramisu, Pudim. *)
Definition tiramisu_disponivel : Prato :=
  {| id_prato := 1; codigo_prato := "PRATO001"; nome_prato := "Tiramisu";
     descricao := "Sobremesa italiana"; preco := 16.9%float; disponivel := true;
     prato_id_categoria := 3; tipo_item := "Cardápio" |}.
Definition pudim : Prato :=
  {| id_prato := 2; codigo_prato := "PRATO002"; nome_prato := "Pudim";
     descricao := "Pudim de leite"; preco := 12%float; disponivel := true;
     prato_id_categoria := 3; tipo_item := "Cardápio" |}.
Definition two_desserts : JsonDatabase.files :=
  {| JsonDatabase.categorias_json := [sobremesas];
     JsonDatabase.pratos_json := [tiramisu_disponivel; pudim] |}.

Definition empty_body : Body :=
  {| body_nome_prato := JUndefined; body_descricao := JUndefined;
     body_preco := JUndefined; body_id_categoria := JUndefined;
     body_disponivel := JUndefined; body_tipo_item := JUndefined |}.

(** [{nome_prato: "Bolo", descricao: "x", preco: "10.00", id_categoria: 1}] *)
Definition bolo : Body :=
  {| body_nome_prato := JStr "Bolo"; body_descricao := JStr "x";
     body_preco := JStr "10.00"; body_id_categoria := JNum 1%float;
     body_disponivel := JUndefined; body_tipo_item := JUndefined |}.

(** The same request with the price given as the number 0. *)
Definition bolo_gratis : Body :=
  {| body_nome_prato := JStr "Bolo"; body_descricao := JStr "x";
     body_preco := JNum 0%float; body_id_categoria := JNum 1%float;
     body_disponivel := JUndefined; body_tipo_item := JUndefined |}.

(** [{disponivel: "yes"}] *)
Definition disponivel_yes : Body :=
  {| body_nome_prato := JUndefined; body_descricao := JUndefined;
     body_preco := JUndefined; body_id_categoria := JUndefined;
     body_disponivel := JStr "yes"; body_tipo_item := JUndefined |}.

(** [{disponivel: {toString: null}}] *)
Definition disponivel_sem_texto : Body :=
  {| body_nome_prato := JUndefined; body_descricao := JUndefined;
     body_preco := JUndefined; body_id_categoria := JUndefined;
     body_disponivel := JObj [("toString"%string, JNull)];
     body_tipo_item := JUndefined |}.

(** [{disponivel: "false"}] *)
Definition disponivel_false_string : Body :=
  {| body_nome_prato := JUndefined; body_descricao := JUndefined;
     body_preco := JUndefined; body_id_categoria := JUndefined;
     body_disponivel := JStr "false"; body_tipo_item := JUndefined |}.

(** [{disponivel: "false", preco: "-1"}] *)
Definition disponivel_false_preco_negativo : Body :=
  {| body_nome_prato := JUndefined; body_descricao := JUndefined;
     body_preco := JStr "-1"; body_id_categoria := JUndefined;
     body_disponivel := JStr "false"; body_tipo_item := JUndefined |}.


(** What the controller hands to [createPrato] for a cake and for a juice. *)
Definition dados_bolo : JsonDatabase.DadosPrato :=
  {| JsonDatabase.dados_nome_prato := "Bolo";
     JsonDatabase.dados_descricao := "x";
     JsonDatabase.dados_preco := 10%float;
     JsonDatabase.dados_disponivel := Some true;
     JsonDatabase.dados_id_categoria := 3;
     JsonDatabase.dados_tipo_item := Some "Cardápio"%string |}.
Definition dados_suco : JsonDatabase.DadosPrato :=
  {| JsonDatabase.dados_nome_prato := "Suco Natural de Laranja";
     JsonDatabase.dados_descricao := "Suco de laranja natural 300ml";
     JsonDatabase.dados_preco := 8.9%float;
     JsonDatabase.dados_disponivel := None;
     JsonDatabase.dados_id_categoria := 4;
     JsonDatabase.dados_tipo_item := None |}.

(** The update data of a body that only sets [disponivel] to a truthy
    value. *)
Definition so_disponivel : PrismaDatabase.DadosAtualizacao :=
  {| PrismaDatabase.novo_nome_prato := None;
     PrismaDatabase.nova_descricao := None;
     PrismaDatabase.novo_preco := None;
     PrismaDatabase.nova_disponivel := Some true;
     PrismaDatabase.novo_id_categoria := None |}.
Definition so_disponivel_json : JsonDatabase.DadosAtualizacao :=
  {| JsonDatabase.novo_nome_prato := None;
     JsonDatabase.nova_descricao := None;
     JsonDatabase.novo_preco := None;
     JsonDatabase.nova_disponivel := Some true;
     JsonDatabase.novo_id_categoria := None |}.

End Examples.

(** ** Notions used to state the properties of the aggregator *)

Module MonitoringStatements.
Import Monitoring.

Definition a_request : Request :=
  {| method := "GET"; url := "/api/cardapio"; path := "/api/cardapio";
     route := None; ip := "127.0.0.1" |}.

Definition timed (d : float) : Exchange (num:=float) :=
  {| exchange_req := a_request; statusCode := 200; responseTime := d |}.

Definition eight_durations : list float := [29; 0; 0; 0; 0; 0; 0; 0]%float.

Definition a_process : Process float :=
  {| now_iso := "2025-01-01T00:00:00.000Z";
     uptime := 12%float;
     memoryUsage := {| heapUsed := 95%float; heapTotal := 100%float |};
     cpuUsage := (1%float, 1%float);
     npm_package_version := None;
     NODE_ENV := None |}.

(** [snapshot.requests.total = 999] *)
Definition tampered_requests : Requests (num:=float) :=
  {| total := 999%float; byMethod := ∅; byStatus := ∅; byEndpoint := ∅ |}.

Definition is_assignment {num} `{JsNumber num} (mu : mutation (num:=num)) : Prop :=
  match mu with AssignProperty _ _ => True | MutateGroup _ _ => False end.

Definition a_failure : JsError :=
  {| name := Some "TypeError"%string; message := "x is not a function" |}.

(** A store holding one error recorded at time 1000. *)
Definition store_with_old_error : store (num:=float) :=
  set_errors {| errors_total := 1%float;
                byType := {[ "TypeError"%string := 1%float ]};
                last24h := [{| timestamp := 1000; type := "TypeError";
                               entry_message := "old"; entry_url := "/";
                               entry_method := "GET"; entry_ip := "::1" |}] |}
    initial_store.

Definition one_day : Z := 24 * 60 * 60 * 1000.

Section WithNumbers.

Context {num : Type} `{JsNumber num}.

(** The three threshold conditions in the words of the specification:
    average response time > 2000 ms, error rate = total errors /
    max(total requests, 1) > 0.05, heap-used / heap-total > 0.9. *)
Definition high_response_time (p : Performance) : bool :=
  ngt (averageResponseTime p) (n_of_Z 2000).
Definition error_rate (e : Errors) (r : Requests) : num :=
  ndiv (errors_total e) (nmax (total r) (n_of_Z 1)).
Definition high_error_rate (e : Errors) (r : Requests) : bool :=
  ngt (error_rate e r) (n_decimal 5 2).
Definition memory_ratio (m : MemoryUsage num) : num :=
  ndiv (heapUsed m) (heapTotal m).
Definition high_memory (m : MemoryUsage num) : bool :=
  ngt (memory_ratio m) (n_decimal 9 1).

(** The conditions that hold, in the order in which they are checked. *)
Definition triggered_conditions (p : Performance) (e : Errors) (r : Requests)
    (m : MemoryUsage num) : list string :=
  (if high_response_time p then ["High average response time"%string] else [])
  ++ (if high_error_rate e r then ["High error rate"%string] else [])
  ++ (if high_memory m then ["High memory usage"%string] else []).

End WithNumbers.

End MonitoringStatements.

(** ** Notions used to state the properties of the store and the controllers *)

Module Statements.

(** A printed integer is not empty and has no leading zero, unless it is
    "0" itself. *)
Definition canonical (s : string) : Prop :=
  s ≠ ""%string ∧ ∀ rest, s = String "0"%char rest -> rest = ""%string.

(** The available dishes of a category, in storage order. *)
Definition available_of (ps : list Prato) (cat : Categoria) : list Prato :=
  List.filter (fun p => (prato_id_categoria p =? id_categoria cat) && disponivel p) ps.

Definition has_available (ps : list Prato) (cat : Categoria) : bool :=
  (0 <? length (available_of ps cat))%nat.

Definition ordem_le (a b : Categoria) : Prop := ordem_exibicao a <= ordem_exibicao b.

(** [g] is category [c] together with its available dishes, in some order. *)
Definition group_of (ps : list Prato) (c : Categoria) (g : Grupo) : Prop :=
  categoria g = nome_categoria c
  ∧ grupo_ordem_exibicao g = ordem_exibicao c
  ∧ Permutation (pratos g) (available_of ps c).

(** The menu in the words of the specification: the categories that have
    at least one available dish, in display order, each with exactly its
    available dishes. *)
Definition menu_of (cats : list Categoria) (ps : list Prato) (gs : list Grupo) : Prop :=
  ∃ cs, Permutation cs (List.filter (has_available ps) cats)
        ∧ Sorted ordem_le cs
        ∧ Forall2 (group_of ps) cs gs.

(** Within every group the names ascend. *)
Definition names_ascending (le : string -> string -> bool) (gs : list Grupo) : Prop :=
  List.Forall (fun g => Sorted (fun a b => le (nome_prato a) (nome_prato b) = true)
                          (pratos g)) gs.

(** Within every group the dishes keep the order of the store. *)
Definition storage_order (cats : list Categoria) (ps : list Prato) (gs : list Grupo) : Prop :=
  List.Forall (fun g => ∃ c, In c cats ∧ pratos g = available_of ps c) gs.

Section Json.
Import JsonDatabase AdminController.

Context {RT : JsBuiltins}.

Definition ids (db : files) : list Z := map id_prato (pratos_json db).

(** Every stored code is the one derived from the dish's identifier. *)
Definition codes_derived (db : files) : Prop :=
  ∀ p, In p (pratos_json db) -> codigo_prato p = codigo_of_id (id_prato p).

(** One create after the other. *)
Definition create_all (ds : list DadosPrato) (db : files) : files :=
  fold_left (fun db d => snd (createPrato d db)) ds db.

Definition passes_json (body : Body) (db : files) (d : DadosAtualizacao) : Prop :=
  validar_nome (body_nome_prato body) = inr (novo_nome_prato d)
  ∧ validar_descricao (body_descricao body) = inr (nova_descricao d)
  ∧ validar_preco (body_preco body) = inr (novo_preco d)
  ∧ validar_categoria (body_id_categoria body) db = inr (novo_id_categoria d)
  ∧ nova_disponivel d = coagir_disponivel (body_disponivel body).

End Json.

Section Prisma.
Import PrismaDatabase AdminControllerPrisma.

Context {RT : JsBuiltins} {DB : Engine}.

(** The body's other fields pass their validations and yield the update
    data [d]. *)
Definition passes (body : Body) (db : tables) (d : DadosAtualizacao) : Prop :=
  validar_nome (body_nome_prato body) = inr (novo_nome_prato d)
  ∧ validar_descricao (body_descricao body) = inr (nova_descricao d)
  ∧ validar_preco (body_preco body) = inr (novo_preco d)
  ∧ validar_categoria (body_id_categoria body) db = inr (novo_id_categoria d)
  ∧ nova_disponivel d = coagir_disponivel (body_disponivel body).

(** The category the updated row points to. *)
Definition nova_categoria (d : DadosAtualizacao) : option Z :=
  match novo_id_categoria d with
  | Some (Some k) => Some k
  | _ => None
  end.

(** The next sequential identifier: 1 for an empty table, the largest
    identifier plus 1 otherwise. *)
Definition proximo_id (db : tables) : Z :=
  match map id_prato (pratos_table db) with
  | [] => 1
  | i :: ids => Math_max i ids + 1
  end.

Definition string_of (v : jsval) : string :=
  match v with JStr s => s | _ => ""%string end.

(** The row a valid body leads to, given the identifier [id] that the
    sequence provides. *)
Definition linha (id : Z) (body : Body) (k : Z) (db : tables) : Prato :=
  {| id_prato := id;
     codigo_prato := codigo_of_id (proximo_id db);
     nome_prato := trim (string_of (body_nome_prato body));
     descricao := trim (string_of (body_descricao body));
     preco := to_decimal (parseFloat_number (parseFloat (body_preco body)));
     disponivel := if is_undefined (body_disponivel body) then true
                   else Boolean (body_disponivel body);
     prato_id_categoria := k;
     tipo_item := if truthy (body_tipo_item body)
                  then string_of (body_tipo_item body) else "Cardápio" |}.


(** All four required fields are given. *)
Definition required_given (body : Body) : Prop :=
  truthy (body_nome_prato body) = true
  ∧ truthy (body_descricao body) = true
  ∧ truthy (body_preco body) = true
  ∧ truthy (body_id_categoria body) = true.

(** A well-formed body: the texts are strings, the required fields are
    given, the price and the category id convert to strings, the price is a
    non-negative number, the category exists, and the item type is absent
    (or otherwise falsy) or a string. *)
Definition well_formed (body : Body) (db : tables) (k : Z) (c : Categoria) : Prop :=
  (∃ s, body_nome_prato body = JStr s)
  ∧ (∃ s, body_descricao body = JStr s)
  ∧ required_given body
  ∧ ToString_throws (body_preco body) = false
  ∧ ToString_throws (body_id_categoria body) = false
  ∧ preco_invalido (parseFloat (body_preco body)) = false
  ∧ parseInt (body_id_categoria body) = Some k
  ∧ int4 k = true
  ∧ categoria_of db k = Some c
  ∧ (truthy (body_tipo_item body) = false ∨ ∃ s, body_tipo_item body = JStr s).

End Prisma.

End Statements.

(** ** The read-only handlers and the key check *)

(** What the read-only handlers send. *)
Record Metadata := {
  total_categorias : nat;
  metadata_total_pratos : nat;
  ultima_atualizacao : string;
  versao_api : option string         (* absent in the JSON-file controller *)
}.

Record ResumoCategoria := {
  resumo_nome_categoria : string;
  resumo_ordem_exibicao : Z;
  resumo_total_pratos : nat
}.

Inductive Leitura :=
| Falha (status : Z) (error : string)
| Cardapio (cardapio : list Grupo) (metadata : Metadata)
| CategoriasDisponiveis (categorias : list ResumoCategoria) (total : nat)
| UmPrato (p : Prato) (nome_categoria : option string)
| TodasCategorias (categorias : list Categoria) (total : nat).

Definition falha_interna : Leitura := Falha 500 "Erro interno do servidor".

(** *** controllers/cardapioControllerPrisma: the public menu *)

Module CardapioControllerPrisma.
Import PrismaDatabase.
Section WithEngine.

Context {RT : JsBuiltins} {DB : Engine}.

(** [{...categoria, pratos: categoria.pratos.map(...)}] *)
Definition formatar (g : Grupo) : Grupo :=
  {| categoria := categoria g;
     grupo_ordem_exibicao := grupo_ordem_exibicao g;
     pratos := map com_preco_numerico (pratos g) |}.

(** GET /api/cardapio; [agora] is [new Date().toISOString()]. *)
Definition getCardapioPublico (agora : string) (db : tables) : Leitura :=
  match getPratosDisponiveis db with
  | Rejected _ => falha_interna
  | Resolved cardapio =>
      let cardapioFormatado := map formatar cardapio in
      Cardapio cardapioFormatado
        {| total_categorias := length cardapioFormatado;
           metadata_total_pratos :=
             fold_left (fun total g => (total + length (pratos g))%nat)
               cardapioFormatado 0%nat;
           ultima_atualizacao := agora;
           versao_api := Some "2.0.0-prisma"%string |}
  end.

(** GET /api/cardapio/categorias *)
Definition getCategoriasDisponiveis (db : tables) : Leitura :=
  match getPratosDisponiveis db with
  | Rejected _ => falha_interna
  | Resolved cardapio =>
      let categorias :=
        map (fun item => {| resumo_nome_categoria := categoria item;
                            resumo_ordem_exibicao := grupo_ordem_exibicao item;
                            resumo_total_pratos := length (pratos item) |})
            cardapio in
      CategoriasDisponiveis categorias (length categorias)
  end.

(** GET /api/cardapio/prato/:id *)
Definition getPratoPublico (id : string) (db : tables) : Leitura :=
  match getPratoById (JStr id) db with
  | Rejected _ => falha_interna
  | Resolved None => Falha 404 "Prato não encontrado"
  | Resolved (Some pc) =>
      if negb (disponivel (prato pc)) then Falha 404 "Prato indisponível"
      else UmPrato (com_preco_numerico (prato pc))
             (option_map nome_categoria (prato_categoria pc))
  end.

End WithEngine.
End CardapioControllerPrisma.

(** *** controllers/cardapioController: the public menu on the JSON-file store *)

Module CardapioController.
Import JsonDatabase.

(** GET /api/cardapio; [agora] is [new Date().toISOString()]. *)
Definition getCardapioPublico (agora : string) (db : files) : Leitura :=
  let cardapio := getPratosDisponiveis db in
  Cardapio cardapio
    {| total_categorias := length cardapio;
       metadata_total_pratos :=
         fold_left (fun total g => (total + length (pratos g))%nat) cardapio 0%nat;
       ultima_atualizacao := agora;
       versao_api := None |}.

(** GET /api/cardapio/categorias *)
Definition getCategoriasDisponiveis (db : files) : Leitura :=
  let cardapio := getPratosDisponiveis db in
  let categorias :=
    map (fun item => {| resumo_nome_categoria := categoria item;
                        resumo_ordem_exibicao := grupo_ordem_exibicao item;
                        resumo_total_pratos := length (pratos item) |})
        cardapio in
  CategoriasDisponiveis categorias (length categorias).

End CardapioController.

(** *** controllers/adminControllerPrisma: the two handlers that only read *)

Module AdminReadsPrisma.
Import PrismaDatabase.
Section WithEngine.

Context {RT : JsBuiltins} {DB : Engine}.

(** GET /api/admin/pratos/:id *)
Definition getPratoPorId (id : string) (db : tables) : Leitura :=
  match getPratoById (JStr id) db with
  | Rejected _ => falha_interna
  | Resolved None => Falha 404 "Prato não encontrado"
  | Resolved (Some pc) =>
      UmPrato (com_preco_numerico (prato pc))
        (Some match prato_categoria pc with
              | Some c => nome_categoria c
              | None => "Categoria não encontrada"%string
              end)
  end.

(** GET /api/admin/categorias *)
Definition getCategorias (db : tables) : Leitura :=
  match PrismaDatabase.getCategorias db with
  | Rejected _ => falha_interna
  | Resolved categorias => TodasCategorias categorias (length categorias)
  end.

End WithEngine.
End AdminReadsPrisma.

(** *** middleware/auth: the demonstration key check *)

Module Auth.

(** The two request headers the check reads; [None] when a header is not
    sent. *)
Record Headers := {
  authorization : option string;
  x_api_key : option string
}.

Record Usuario := {
  usuario_id : Z;
  usuario_nome : string;
  usuario_role : string
}.

(** How the middleware ends: with the 401 answer, or by calling [next()]
    after setting [req.usuario]. *)
Inductive Autenticacao :=
| NaoAutorizado
| Proximo (usuario : Usuario).

(** [s.startsWith(p)] *)
Definition startsWith (s p : string) : bool := String.prefix p s.

(** [s.substring(n)]: what follows the first [n] characters. *)
Fixpoint substring_from (n : nat) (s : string) : string :=
  match n, s with
  | O, _ => s
  | S n', String _ s' => substring_from n' s'
  | S _, EmptyString => EmptyString
  end.

Definition administrador : Usuario :=
  {| usuario_id := 1; usuario_nome := "Administrador"; usuario_role := "admin" |}.

Definition verificarAutenticacao (headers : Headers) : Autenticacao :=
  let apiKey := x_api_key headers in
  let pela_chave :=      (* the [else if] branch *)
    match apiKey with
    | Some k => if String.eqb k "admin-key-123" then Proximo administrador
                else NaoAutorizado
    | None => NaoAutorizado
    end in
  match authorization headers with
  | Some authHeader =>
      if negb (String.eqb authHeader "") && startsWith authHeader "Bearer "
      then
        let token := substring_from 7 authHeader in
        if negb (String.eqb token "") && (0 <? String.length token)%nat
        then Proximo administrador
        else NaoAutorizado
      else pela_chave
  | None => pela_chave
  end.

End Auth.

(** ** Runs of the aggregator

    Notions used to state what the counters hold after several
    operations. *)

Module AggregatorRuns.
Import Monitoring.

Section WithNumbers.

Context {num : Type} `{JsNumber num}.

(** Database operations recorded one after the other. *)
Fixpoint record_all (ops : list (string * num)) (s : store) : option store :=
  match ops with
  | [] => Some s
  | (operation, duration) :: rest =>
      s' ← recordDatabaseOperation operation duration s; record_all rest s'
  end.

(** An error reaching [errorMetrics], with the two readings of the clock
    taken while it is handled. *)
Record Failure := {
  failure_error : JsError;
  failure_req : Request;
  failure_new_Date : Z;
  failure_Date_now : Z
}.

Fixpoint fail_all (fs : list Failure) (s : store (num:=num)) : option store :=
  match fs with
  | [] => Some s
  | f :: rest =>
      s' ← errorMetrics (failure_error f) (failure_req f)
             (failure_new_Date f) (failure_Date_now f) s;
      fail_all rest s'
  end.

(** The history entry written for a failure. *)
Definition entry_of (f : Failure) : ErrorEntry :=
  {| timestamp := failure_new_Date f;
     type := str_or (name (failure_error f)) "UnknownError";
     entry_message := message (failure_error f);
     entry_url := url (failure_req f);
     entry_method := method (failure_req f);
     entry_ip := ip (failure_req f) |}.

(** The cut-off of the pruning done while [f] is handled. *)
Definition cutoff (f : Failure) : Z := failure_Date_now f - 24 * 60 * 60 * 1000.

(** How many of the values pass a test. *)
Definition count_if {A} (test : A -> bool) (l : list A) : Z :=
  Z.of_nat (length (List.filter test l)).

Definition slow_request (x : Exchange (num:=num)) : bool := ngt (responseTime x) (n_of_Z 1000).
Definition slow_query (op : string * num) : bool := ngt (snd op) (n_of_Z 500).

(** The key under which a request is counted in [byEndpoint]. *)
Definition endpoint_of (req : Request) : string :=
  match route req with Some p => p | None => path req end.

(** A counter of a map that has been bumped [k] times. *)
Definition counted (k : Z) : option num :=
  if k =? 0 then None else Some (n_of_Z k).

(** The five groups are five different objects. *)
Definition distinct_groups (s : store (num:=num)) : Prop :=
  List.NoDup [requests (metrics s); performance (metrics s); errors (metrics s);
              database (metrics s); security (metrics s)].

(** Every group of [metrics] is allocated. *)
Definition allocated (s : store (num:=num)) : Prop :=
  ∀ g, is_Some (heap s !! ref_of g (metrics s)).

(** What [internal_state] shows when every counter is empty. *)
Definition all_empty :
    option Requests * option Performance * option Errors
    * option Database * option Security :=
  (Some empty_requests, Some empty_performance, Some empty_errors,
   Some empty_database, Some empty_security).

(** A mutation by a caller that holds no reference of the current
    groups of [s]: it writes through the references of its own value, or
    binds a property of that value to something else it holds. *)
Definition stale (s : store (num:=num)) (mu : mutation (num:=num)) : Prop :=
  match mu with
  | MutateGroup _ _ => True
  | AssignProperty _ l => ∀ g, l ≠ ref_of g (metrics s)
  end.

(** What the request and performance groups hold once the exchanges
    [pre] have been served: the totals, the split into slow and fast
    requests, and one counter per method, status and endpoint seen. *)
Definition counts_requests (pre : list (Exchange (num:=num)))
    (r : Requests) (p : Performance) : Prop :=
  total r = n_of_Z (Z.of_nat (length pre))
  ∧ slowRequests p = n_of_Z (count_if slow_request pre)
  ∧ fastRequests p = n_of_Z (count_if (fun x => negb (slow_request x)) pre)
  ∧ (∀ m, byMethod r !! m
          = counted (count_if (fun x => String.eqb (method (exchange_req x)) m) pre))
  ∧ (∀ c, byStatus r !! c = counted (count_if (fun x => statusCode x =? c) pre))
  ∧ (∀ e, byEndpoint r !! e
          = counted (count_if
                       (fun x => String.eqb (endpoint_of (exchange_req x)) e) pre)).

(** What the database group holds once the operations [pre] have been
    recorded. *)
Definition counts_queries (pre : list (string * num)) (d : Database) : Prop :=
  queries d = n_of_Z (Z.of_nat (length pre))
  ∧ nmul (averageQueryTime d) (n_of_Z (Z.of_nat (length pre))) = sum (map snd pre)
  ∧ slowQueries d = n_of_Z (count_if slow_query pre).

(** What the error group counts once the failures [pre] have been
    handled. *)
Definition counts_errors (pre : list Failure) (e : Errors) : Prop :=
  errors_total e = n_of_Z (Z.of_nat (length pre))
  ∧ ∀ t, byType e !! t
         = counted (count_if (fun f => String.eqb (type (entry_of f)) t) pre).

(** The entries of a history that a pruning with cut-off [c] keeps. *)
Definition younger_than (c : Z) (l : list ErrorEntry) : list ErrorEntry :=
  List.filter (fun err => c <? timestamp err) l.

End WithNumbers.

(** Three database operations of 120, 800 and 40 ms. *)
Definition three_queries : list (string * float) :=
  [("findMany"%string, 120%float); ("create"%string, 800%float);
   ("update"%string, 40%float)].

(** A failure handled at time 1000 and one handled two days later. *)
Definition early_failure : Failure :=
  {| failure_error := {| name := None; message := "boom" |};
     failure_req := MonitoringStatements.a_request;
     failure_new_Date := 1000; failure_Date_now := 1000 |}.
Definition late_failure : Failure :=
  {| failure_error := MonitoringStatements.a_failure;
     failure_req := MonitoringStatements.a_request;
     failure_new_Date := 172801000; failure_Date_now := 172801000 |}.

End AggregatorRuns.

(** ** Notions used to state more properties of the stores and handlers *)

Module StoreStatements.

(** The columns of the dishes that no update may touch. *)
Definition identity_columns (ps : list Prato) : list (Z * string * string) :=
  map (fun p => (id_prato p, codigo_prato p, tipo_item p)) ps.

(** A dish with its availability flag set. *)
Definition com_disponivel (nova : bool) (p : Prato) : Prato :=
  {| id_prato := id_prato p; codigo_prato := codigo_prato p;
     nome_prato := nome_prato p; descricao := descricao p;
     preco := preco p; disponivel := nova;
     prato_id_categoria := prato_id_categoria p;
     tipo_item := tipo_item p |}.

Section Json.
Import JsonDatabase.

Context {RT : JsBuiltins}.

(** An update of the JSON-file store keeps the identity columns and the
    categories; it returns a stored dish with the requested identifier, or
    leaves the files as they were. *)
Definition keeps_identity (id : jsval) (db : files)
    (r : completion (option Prato) * files) : Prop :=
  identity_columns (pratos_json (snd r)) = identity_columns (pratos_json db)
  ∧ categorias_json (snd r) = categorias_json db
  ∧ match fst r with
    | Returned (Some p) => In p (pratos_json (snd r)) ∧ is_prato id p = true
    | _ => snd r = db
    end.

End Json.

Section Prisma.
Import PrismaDatabase.

(** What an update may not change in the relational store. *)
Definition same_identity (db db' : tables) : Prop :=
  identity_columns (pratos_table db') = identity_columns (pratos_table db)
  ∧ categorias db' = categorias db
  ∧ pratos_id_prato_seq db' = pratos_id_prato_seq db.

(** The table after the row with identifier [k] got its flag set. *)
Definition com_flag (k : Z) (nova : bool) (ps : list Prato) : list Prato :=
  map (fun q => if id_prato q =? k then com_disponivel nova q else q) ps.

End Prisma.

(** [{disponivel: b}] *)
Definition so_flag (b : bool) : Body :=
  {| body_nome_prato := JUndefined; body_descricao := JUndefined;
     body_preco := JUndefined; body_id_categoria := JUndefined;
     body_disponivel := JBool b; body_tipo_item := JUndefined |}.

(** The rows of the example store as prisma/seed.js leaves them: inserted
    with explicit identifiers, the sequence still at its start. *)
Definition seeded_by_script : PrismaDatabase.tables :=
  {| PrismaDatabase.categorias := PrismaDatabase.categorias Examples.seeded_tables;
     PrismaDatabase.pratos_table := PrismaDatabase.pratos_table Examples.seeded_tables;
     PrismaDatabase.pratos_id_prato_seq := 1 |}.

(** [Authorization: Bearer abc] together with a wrong key. *)
Definition bearer_abc : Auth.Headers :=
  {| Auth.authorization := Some "Bearer abc"%string;
     Auth.x_api_key := Some "wrong"%string |}.

End StoreStatements.

(** * Properties of the metrics aggregator *)

Module MonitoringFacts.
Import Monitoring MonitoringStatements.

Section Store.

Context {num : Type} `{JsNumber num}.
Implicit Types (s : store (num:=num)).

Lemma get_requests_set_requests r s :
  get_requests (set_requests r s) = Some r.
Proof.
  unfold get_requests, set_requests, write, read_requests; simpl.
  by rewrite lookup_insert_eq.
Qed.

Lemma get_performance_set_performance p s :
  get_performance (set_performance p s) = Some p.
Proof.
  unfold get_performance, set_performance, write, read_performance; simpl.
  by rewrite lookup_insert_eq.
Qed.

Lemma get_errors_set_errors e s :
  get_errors (set_errors e s) = Some e.
Proof.
  unfold get_errors, set_errors, write, read_errors; simpl.
  by rewrite lookup_insert_eq.
Qed.

Lemma get_performance_set_requests r s :
  requests (metrics s) ≠ performance (metrics s) ->
  get_performance (set_requests r s) = get_performance s.
Proof.
  intros Hne.
  unfold get_performance, set_requests, write, read_performance; simpl.
  by rewrite lookup_insert_ne.
Qed.

Lemma get_requests_set_performance p s :
  requests (metrics s) ≠ performance (metrics s) ->
  get_requests (set_performance p s) = get_requests s.
Proof.
  intros Hne.
  unfold get_requests, set_performance, write, read_requests; simpl.
  by rewrite lookup_insert_ne.
Qed.

Lemma metrics_write l o s : metrics (write l o s) = metrics s.
Proof. reflexivity. Qed.

(** One request served: the count grows by one and the average is
    recomputed from the previous average and the new count. *)
Lemma handle_step x s r p :
  get_requests s = Some r ->
  get_performance s = Some p ->
  requests (metrics s) ≠ performance (metrics s) ->
  ∃ s' r' p',
    handle x s = Some s'
    ∧ get_requests s' = Some r'
    ∧ get_performance s' = Some p'
    ∧ requests (metrics s') ≠ performance (metrics s')
    ∧ total r' = nadd (total r) (n_of_Z 1)
    ∧ averageResponseTime p' =
        ndiv (nadd (nmul (averageResponseTime p)
                         (nsub (nadd (total r) (n_of_Z 1)) (n_of_Z 1)))
                   (responseTime x))
             (nadd (total r) (n_of_Z 1)).
Proof.
  intros Hr Hp Hne.
  unfold handle, metricsCollector. rewrite Hr. simpl.
  unfold metricsCollector_finish.
  rewrite get_requests_set_requests. simpl.
  unfold updatePerformanceMetrics.
  rewrite !get_performance_set_requests by assumption.
  rewrite Hp, get_requests_set_requests. simpl.
  eexists _, _, _. split; [reflexivity|].
  rewrite get_performance_set_performance.
  rewrite get_requests_set_performance by assumption.
  rewrite get_requests_set_requests.
  split; [reflexivity|]. split; [reflexivity|].
  split; [simpl; exact Hne|].
  split; [reflexivity|].
  destruct (ngt (responseTime x) (n_of_Z 1000)); reflexivity.
Qed.

End Store.

(** ** Exact arithmetic *)

Section ExactMean.

Local Open Scope Qc_scope.

Lemma exact_of_Z_add a b : Exact.of_Z (a + b) = Exact.of_Z a + Exact.of_Z b.
Proof.
  unfold Exact.of_Z. apply Qc_is_canon. simpl.
  rewrite !Qred_correct. rewrite inject_Z_plus. reflexivity.
Qed.

Lemma exact_of_Z_0 : Exact.of_Z 0 = 0.
Proof. reflexivity. Qed.

Lemma exact_of_Z_1 : Exact.of_Z 1 = 1.
Proof. reflexivity. Qed.

Lemma exact_of_Z_pos k : (0 < k)%Z -> Exact.of_Z k ≠ 0.
Proof.
  intros Hk E. unfold Exact.of_Z in E.
  apply (f_equal this) in E. simpl in E.
  assert (Hq : (Qred (inject_Z k) == 0)%Q) by (rewrite E; reflexivity).
  rewrite Qred_correct in Hq. unfold Qeq in Hq. simpl in Hq. lia.
Qed.

Lemma sum_from (ds : list Qc) (a : Qc) :
  fold_left Qcplus ds a = a + fold_left Qcplus ds 0.
Proof.
  revert a. induction ds as [|d ds IH]; intros a; simpl.
  - ring.
  - rewrite (IH (a + d)), (IH (0 + d)). ring.
Qed.

Lemma quotient_of_product (a n t : Qc) : n ≠ 0 -> a * n = t -> a = ndiv t n.
Proof. intros Hn <-. simpl. field. exact Hn. Qed.

(** The invariant of a sequential run: the average times the count is
    the sum of the durations seen. *)
Lemma serve_exact (xs : list (Exchange (num:=Qc))) :
  ∀ (s : store (num:=Qc)) r p (k : nat),
    get_requests s = Some r ->
    get_performance s = Some p ->
    requests (metrics s) ≠ performance (metrics s) ->
    total r = Exact.of_Z (Z.of_nat k) ->
    ∃ s' r' p',
      serve xs s = Some s'
      ∧ get_requests s' = Some r'
      ∧ get_performance s' = Some p'
      ∧ total r' = Exact.of_Z (Z.of_nat (k + length xs))
      ∧ averageResponseTime p' * Exact.of_Z (Z.of_nat (k + length xs)) =
          averageResponseTime p * Exact.of_Z (Z.of_nat k)
          + sum (map responseTime xs).
Proof.
  induction xs as [|x xs IH]; intros s r p k Hr Hp Hne Hk.
  - exists s, r, p. simpl. rewrite Nat.add_0_r.
    repeat split; auto. unfold sum; simpl. rewrite exact_of_Z_0. ring.
  - destruct (handle_step x s r p Hr Hp Hne)
      as (s1 & r1 & p1 & Hh & Hr1 & Hp1 & Hne1 & Ht1 & Ha1).
    simpl in Ht1, Ha1.
    assert (Hk1 : total r1 = Exact.of_Z (Z.of_nat (S k))).
    { rewrite Ht1, Hk, Nat2Z.inj_succ, <- Z.add_1_r, exact_of_Z_add.
      reflexivity. }
    destruct (IH s1 r1 p1 (S k) Hr1 Hp1 Hne1 Hk1)
      as (s' & r' & p' & Hs & Hr' & Hp' & Ht' & Ha').
    exists s', r', p'. simpl serve. rewrite Hh. simpl.
    replace (k + S (length xs))%nat with (S k + length xs)%nat by lia.
    repeat split; auto.
    rewrite Ha'. unfold sum. simpl fold_left.
    rewrite (sum_from _ (Exact.of_Z 0 + responseTime x)).
    rewrite Ha1, <- Ht1, Hk1.
    assert (Hnz : Exact.of_Z (Z.of_nat (S k)) ≠ 0)
      by (apply exact_of_Z_pos; lia).
    rewrite Ht1, Hk in Hk1.
    replace (Exact.of_Z (Z.of_nat (S k)) - Exact.of_Z 1)
      with (Exact.of_Z (Z.of_nat k)).
    2:{ rewrite <- Hk1. change (Exact.of_Z 1) with 1. ring. }
    rewrite exact_of_Z_0. field. exact Hnz.
Qed.

(** From any state whose request count is zero, the average after a
    sequential run is the mean of the durations. *)
Lemma average_from_zero (s : store (num:=Qc)) r p x xs :
  get_requests s = Some r ->
  get_performance s = Some p ->
  requests (metrics s) ≠ performance (metrics s) ->
  total r = Exact.of_Z 0 ->
  average_after (x :: xs) s = Some (mean (map responseTime (x :: xs))).
Proof.
  intros Hr Hp Hne Ht.
  destruct (serve_exact (x :: xs) s r p 0 Hr Hp Hne Ht)
    as (s' & r' & p' & Hs & Hr' & Hp' & Ht' & Ha).
  unfold average_after. rewrite Hs. simpl. rewrite Hp'. simpl.
  f_equal. unfold mean. rewrite length_map.
  apply quotient_of_product.
  - apply exact_of_Z_pos. simpl length. lia.
  - simpl Nat.add in Ha. rewrite Ha.
    change (Z.of_nat 0) with 0%Z. rewrite exact_of_Z_0.
    simpl map. generalize (sum (responseTime x :: map responseTime xs)).
    intros t. ring.
Qed.

End ExactMean.

(** ** Reset *)

Section Reset.

Context {num : Type} `{JsNumber num}.

Lemma alloc_lookup (o : object (num:=num)) h :
  (alloc o h).2 !! (alloc o h).1 = Some o ∧ h !! (alloc o h).1 = None.
Proof.
  unfold alloc. simpl. split; [apply lookup_insert_eq|].
  apply not_elem_of_dom. apply is_fresh.
Qed.

Lemma alloc_other (o : object (num:=num)) h l :
  is_Some (h !! l) -> (alloc o h).2 !! l = h !! l ∧ l ≠ (alloc o h).1.
Proof.
  intros Hl. destruct (alloc_lookup o h) as [_ Hfresh].
  assert (Hne : (alloc o h).1 ≠ l).
  { intros E. rewrite E in Hfresh. rewrite Hfresh in Hl. destruct Hl; discriminate. }
  split; [|congruence]. unfold alloc in *. simpl in *. by rewrite lookup_insert_ne.
Qed.

(** After a reset the aggregator reads empty counters, held by two
    different objects. *)
Lemma resetMetrics_fresh (s : store (num:=num)) :
  get_requests (resetMetrics s) = Some empty_requests
  ∧ get_performance (resetMetrics s) = Some empty_performance
  ∧ requests (metrics (resetMetrics s)) ≠ performance (metrics (resetMetrics s)).
Proof.
  unfold resetMetrics.
  destruct (alloc (ORequests empty_requests) (heap s)) as [l0 h0] eqn:E0.
  destruct (alloc (OPerformance empty_performance) h0) as [l1 h1] eqn:E1.
  destruct (alloc (OErrors empty_errors) h1) as [l2 h2] eqn:E2.
  destruct (alloc (ODatabase empty_database) h2) as [l3 h3] eqn:E3.
  destruct (alloc (OSecurity empty_security) h3) as [l4 h4] eqn:E4.
  pose proof (alloc_lookup (ORequests empty_requests) (heap s)) as [A0 _].
  rewrite E0 in A0. simpl in A0.
  pose proof (alloc_lookup (OPerformance empty_performance) h0) as [A1 _].
  rewrite E1 in A1. simpl in A1.
  pose proof (alloc_other (OPerformance empty_performance) h0 l0) as B1.
  rewrite E1 in B1. simpl in B1. destruct B1 as [B1 N1]; [eauto|].
  rewrite A0 in B1.
  assert (C2 : h2 !! l0 = Some (ORequests empty_requests) ∧
               h2 !! l1 = Some (OPerformance empty_performance)).
  { pose proof (alloc_other (OErrors empty_errors) h1 l0) as X.
    pose proof (alloc_other (OErrors empty_errors) h1 l1) as Y.
    rewrite E2 in X, Y. simpl in X, Y.
    destruct X as [X _]; [eauto|]. destruct Y as [Y _]; [eauto|].
    rewrite X, Y. auto. }
  assert (C3 : h3 !! l0 = Some (ORequests empty_requests) ∧
               h3 !! l1 = Some (OPerformance empty_performance)).
  { destruct C2 as [X2 Y2].
    pose proof (alloc_other (ODatabase empty_database) h2 l0) as X.
    pose proof (alloc_other (ODatabase empty_database) h2 l1) as Y.
    rewrite E3 in X, Y. simpl in X, Y.
    destruct X as [X _]; [eauto|]. destruct Y as [Y _]; [eauto|].
    rewrite X, Y. auto. }
  assert (C4 : h4 !! l0 = Some (ORequests empty_requests) ∧
               h4 !! l1 = Some (OPerformance empty_performance)).
  { destruct C3 as [X3 Y3].
    pose proof (alloc_other (OSecurity empty_security) h3 l0) as X.
    pose proof (alloc_other (OSecurity empty_security) h3 l1) as Y.
    rewrite E4 in X, Y. simpl in X, Y.
    destruct X as [X _]; [eauto|]. destruct Y as [Y _]; [eauto|].
    rewrite X, Y. auto. }
  destruct C4 as [X4 Y4].
  unfold get_requests, get_performance, read_requests, read_performance. simpl.
  rewrite X4, Y4. auto.
Qed.

End Reset.

Section ExactMeanClaim.

Local Open Scope Qc_scope.

(** C1, as amended.  In exact rational arithmetic, after [N >= 1]
    requests recorded one after the other (start, then finish) from the
    initial state or from the state a reset leaves, the running average
    response time is the arithmetic mean of the [N] durations. *)
Theorem running_average_is_mean_exact
    (x : Exchange (num:=Qc)) (xs : list (Exchange (num:=Qc)))
    (s : store (num:=Qc)) :
  average_after (x :: xs) initial_store
  = Some (mean (map responseTime (x :: xs)))
  ∧ average_after (x :: xs) (resetMetrics s)
    = Some (mean (map responseTime (x :: xs))).
Proof.
  split.
  - apply (average_from_zero initial_store empty_requests empty_performance);
      try reflexivity.
    simpl. discriminate.
  - destruct (resetMetrics_fresh s) as (Hr & Hp & Hne).
    apply (average_from_zero (resetMetrics s) empty_requests empty_performance);
      auto.
Qed.

End ExactMeanClaim.

(** ** binary64 arithmetic *)

Section Binary64Mean.


(** The literals of the health check, as binary64 values: a decimal
    literal denotes the double nearest to it, which is what one correctly
    rounded division of its digits by the power of ten yields. *)
Example thresholds_binary64 :
  n_of_Z 2000 = 2000%float
  ∧ n_decimal 5 2 = 0.05%float
  ∧ n_decimal 9 1 = 0.9%float.
Proof. repeat split; vm_compute; reflexivity. Qed.

(** Two floats that [===] tells apart are different. *)
Lemma float_neq (a b : float) :
  PrimFloat.eqb a a = true -> PrimFloat.eqb a b = false -> a ≠ b.
Proof. intros Ha Hab E. rewrite <- E in Hab. congruence. Qed.

(** C1, as stated, fails on the numbers the program computes with: eight
    requests taking 29, 0, 0, 0, 0, 0, 0 and 0 ms leave a running average
    of 3.6250000000000004, while their mean 29 / 8 is 3.625. *)
Lemma running_average_differs_in_binary64 :
  average_after (map timed eight_durations) initial_store
    = Some 3.6250000000000004%float
  ∧ mean (map responseTime (map timed eight_durations)) = 3.625%float
  ∧ average_after (map timed eight_durations) initial_store
    ≠ Some (mean (map responseTime (map timed eight_durations))).
Proof.
  assert (E1 : average_after (map timed eight_durations) initial_store
               = Some 3.6250000000000004%float) by (vm_compute; reflexivity).
  assert (E2 : mean (map responseTime (map timed eight_durations))
               = 3.625%float) by (vm_compute; reflexivity).
  split; [exact E1|]. split; [exact E2|].
  rewrite E1, E2. intros E.
  apply (f_equal (fun o => match o with Some a => a | None => 0%float end)) in E.
  revert E. apply float_neq; vm_compute; reflexivity.
Qed.

End Binary64Mean.

(** ** Health verdict *)

Section HealthVerdict.

Context {num : Type} `{JsNumber num}.


(** C2.  The status is "WARNING" exactly when at least one of the three
    conditions holds (average response time > 2000, total errors /
    max(total requests, 1) > 0.05, heapUsed / heapTotal > 0.9) and "OK"
    otherwise; a "WARNING" report carries exactly the conditions that
    hold, an "OK" report carries no list. *)
Theorem health_verdict (proc : Process num) (s : store) p e r d :
  get_performance s = Some p ->
  get_errors s = Some e ->
  get_requests s = Some r ->
  get_database s = Some d ->
  ∃ h, getHealthStatus proc s = Some h
    ∧ (status h = "WARNING"%string
       <-> high_response_time p = true
           ∨ high_error_rate e r = true
           ∨ high_memory (memoryUsage proc) = true)
    ∧ (status h = "OK"%string
       <-> high_response_time p = false
           ∧ high_error_rate e r = false
           ∧ high_memory (memoryUsage proc) = false)
    ∧ (status h = "WARNING"%string ->
       issues h = Some (triggered_conditions p e r (memoryUsage proc)))
    ∧ (status h = "OK"%string -> issues h = None).
Proof.
  intros Hp He Hr Hd.
  unfold getHealthStatus. rewrite Hp, He, Hr, Hd. simpl.
  eexists. split; [reflexivity|].
  unfold triggered_conditions, high_response_time, high_error_rate,
    error_rate, high_memory, memory_ratio.
  simpl.
  destruct (ngt (averageResponseTime p) (n_of_Z 2000));
    destruct (ngt (ndiv (errors_total e) (nmax (total r) (n_of_Z 1)))
                  (n_decimal 5 2));
    destruct (ngt (ndiv (heapUsed (memoryUsage proc))
                        (heapTotal (memoryUsage proc))) (n_decimal 9 1));
    simpl; repeat split; intros; try discriminate; try tauto;
    try (intuition discriminate).
Qed.

End HealthVerdict.

(** ** Error window *)

Section ErrorWindow.

Context {num : Type} `{JsNumber num}.


(** C7.  After [errorMetrics] ran, every record in the list is younger
    than 24 hours at the instant the operation read the clock for
    pruning, and, when the clock did not run backwards between the
    operation's two readings, also relative to the timestamp given to the
    inserted record; a snapshot taken in that state shows this list. *)
Theorem error_window (error : JsError) (req : Request) (new_Date Date_now : Z)
    (proc : Process num) (s : store) e :
  get_errors s = Some e ->
  ∃ s' e',
    errorMetrics error req new_Date Date_now s = Some s'
    ∧ get_errors s' = Some e'
    ∧ read_errors (heap s') (errors (spread (getMetrics proc s'))) = Some e'
    ∧ (∀ err, In err (last24h e') -> Date_now - one_day < timestamp err)
    ∧ (new_Date <= Date_now ->
       ∀ err, In err (last24h e') -> new_Date - one_day < timestamp err).
Proof.
  intros He. unfold errorMetrics. rewrite He. simpl.
  eexists _, _. split; [reflexivity|].
  rewrite get_errors_set_errors. split; [reflexivity|].
  split; [apply get_errors_set_errors|].
  simpl last24h.
  assert (Hcut : ∀ err,
    In err (List.filter (fun err0 => Date_now - 24 * 60 * 60 * 1000 <? timestamp err0)
              (last24h e ++ [{| timestamp := new_Date;
                                type := str_or (name error) "UnknownError";
                                entry_message := message error;
                                entry_url := url req;
                                entry_method := method req;
                                entry_ip := ip req |}])) ->
    Date_now - one_day < timestamp err).
  { intros err Hin. apply filter_In in Hin. destruct Hin as [_ Hlt].
    apply Z.ltb_lt in Hlt. unfold one_day. exact Hlt. }
  split; [exact Hcut|].
  intros Hmono err Hin. specialize (Hcut err Hin). lia.
Qed.

End ErrorWindow.


(** ** Snapshots *)

Section Snapshots.


Lemma mutate_assignments {num} `{JsNumber num} (mus : list (mutation (num:=num))) :
  Forall is_assignment mus ->
  ∀ snap s, snd (mutate_all mus (snap, s)) = s.
Proof.
  induction 1 as [|mu mus Hmu _ IH]; intros snap s; [reflexivity|].
  destruct mu as [g l|g o]; [|destruct Hmu].
  unfold mutate_all. simpl. apply IH.
Qed.

(** C3, as stated, fails: the value returned by [getMetrics] refers to
    the aggregator's own [requests] object, so setting
    [snapshot.requests.total = 999] on a fresh aggregator changes the
    aggregator's total from 0 to 999, and the next snapshot shows 999. *)
Lemma snapshot_write_reaches_aggregator :
  let snap := getMetrics a_process initial_store in
  let s' := snd (mutate_all [MutateGroup GRequests (ORequests tampered_requests)]
                   (snap, initial_store)) in
  get_requests (num:=float) initial_store = Some empty_requests
  ∧ get_requests s' = Some tampered_requests
  ∧ internal_state s' ≠ internal_state initial_store
  ∧ counters (getMetrics a_process s') s' ≠ counters snap initial_store.
Proof.
  cbv zeta.
  assert (E0 : get_requests (num:=float) initial_store = Some empty_requests)
    by reflexivity.
  assert (E1 : get_requests
                 (snd (mutate_all
                         [MutateGroup GRequests (ORequests tampered_requests)]
                         (getMetrics a_process initial_store, initial_store)))
               = Some tampered_requests) by reflexivity.
  pose (total_of := fun o : option (Requests (num:=float)) =>
                      match o with Some r => total r | None => 0%float end).
  assert (Hne : total_of (Some tampered_requests) ≠ total_of (Some empty_requests)).
  { apply float_neq; vm_compute; reflexivity. }
  split; [exact E0|]. split; [exact E1|]. split.
  - intros E. apply Hne. rewrite <- E0, <- E1.
    unfold internal_state in E. congruence.
  - intros E. apply Hne. rewrite <- E0, <- E1.
    unfold counters in E. simpl spread in E.
    unfold get_requests. simpl metrics. congruence.
Qed.

(** C3, as amended.  [getMetrics] returns a new object whose five group
    properties are the aggregator's own references (a shallow copy):
    rebinding properties of the returned object, in any number, leaves
    the aggregator's state as it was and a later snapshot shows the same
    counters; a write into a group reached through the returned object
    is a write to the aggregator's group. *)
Theorem snapshot_is_shallow {num} `{JsNumber num} (proc : Process num)
    (s : store) :
  spread (getMetrics proc s) = metrics s
  ∧ (∀ mus, Forall is_assignment mus ->
       let s' := snd (mutate_all mus (getMetrics proc s, s)) in
       s' = s
       ∧ internal_state s' = internal_state s
       ∧ ∀ proc', counters (getMetrics proc' s') s'
                  = counters (getMetrics proc s) s)
  ∧ (∀ g o,
       let s' := snd (mutate (MutateGroup g o) (getMetrics proc s, s)) in
       metrics s' = metrics s
       ∧ heap s' !! ref_of g (metrics s') = Some o).
Proof.
  split; [reflexivity|]. split.
  - intros mus Hmus. cbv zeta.
    rewrite (mutate_assignments mus Hmus). auto.
  - intros g o. cbv zeta. simpl. split; [reflexivity|].
    apply lookup_insert_eq.
Qed.

End Snapshots.

(** ** Instances of the theorems above *)

Section Instances.

Lemma health_verdict_witness :
  ∃ h, getHealthStatus a_process initial_store = Some h
    ∧ status h = "WARNING"%string
    ∧ issues h = Some ["High memory usage"%string].
Proof.
  destruct (health_verdict a_process initial_store empty_performance
              empty_errors empty_requests empty_database
              eq_refl eq_refl eq_refl eq_refl)
    as (h & Hh & Hw & _ & Hi & _).
  exists h. split; [exact Hh|].
  assert (Hs : status h = "WARNING"%string).
  { apply Hw. right. right. vm_compute. reflexivity. }
  split; [exact Hs|]. rewrite (Hi Hs). vm_compute. reflexivity.
Defined.


Lemma error_window_witness :
  ∃ s' e',
    errorMetrics a_failure a_request 90000000 90000001 store_with_old_error = Some s'
    ∧ get_errors s' = Some e'
    ∧ map timestamp (last24h e') = [90000000].
Proof.
  destruct (error_window a_failure a_request 90000000 90000001 a_process
              store_with_old_error _ eq_refl)
    as (s' & e' & Hs & He & _ & _ & _).
  exists s', e'. split; [exact Hs|]. split; [exact He|].
  vm_compute in Hs. injection Hs as <-.
  vm_compute in He. injection He as <-.
  reflexivity.
Defined.

Lemma snapshot_is_shallow_witness :
  let s' := snd (mutate_all [AssignProperty GRequests 7%nat; AssignProperty GErrors 0%nat]
                   (getMetrics a_process initial_store, initial_store)) in
  s' = initial_store.
Proof.
  destruct (snapshot_is_shallow a_process initial_store) as (_ & Hassign & _).
  apply (Hassign [AssignProperty GRequests 7%nat; AssignProperty GErrors 0%nat]).
  repeat constructor.
Defined.

End Instances.

End MonitoringFacts.

(** * Properties of the persistence adapters and the controllers *)

Module SortFacts.
Section Sort.

Context {A : Type} (le : A -> A -> bool).

Lemma insert_sorted_perm x l : Permutation (x :: l) (insert_sorted le x l).
Proof.
  induction l as [|y l IH]; simpl; [reflexivity|].
  destruct (le x y); [reflexivity|].
  rewrite perm_swap. constructor. exact IH.
Qed.

Lemma sort_by_perm l : Permutation l (sort_by le l).
Proof.
  induction l as [|x l IH]; simpl; [reflexivity|].
  rewrite <- insert_sorted_perm. constructor. exact IH.
Qed.

Lemma sort_by_length l : length (sort_by le l) = length l.
Proof. symmetry. apply Permutation_length, sort_by_perm. Qed.

Lemma sort_by_In x l : In x (sort_by le l) <-> In x l.
Proof.
  split; intros Hin.
  - eapply Permutation_in; [symmetry; apply sort_by_perm|exact Hin].
  - eapply Permutation_in; [apply sort_by_perm|exact Hin].
Qed.

Hypothesis le_total : ∀ a b, le a b = true ∨ le b a = true.

Lemma insert_sorted_sorted x l :
  Sorted (fun a b => le a b = true) l ->
  Sorted (fun a b => le a b = true) (insert_sorted le x l).
Proof.
  induction 1 as [|y l Hs IH Hhd]; simpl.
  - repeat constructor.
  - destruct (le x y) eqn:E.
    + constructor; [constructor; assumption|constructor; exact E].
    + constructor; [exact IH|].
      destruct l as [|z l']; simpl.
      * constructor. destruct (le_total x y); congruence.
      * destruct (le x z).
        -- constructor. destruct (le_total x y); congruence.
        -- constructor. inversion Hhd; assumption.
Qed.

Lemma sort_by_sorted l : Sorted (fun a b => le a b = true) (sort_by le l).
Proof.
  induction l as [|x l IH]; simpl; [constructor|].
  apply insert_sorted_sorted, IH.
Qed.

End Sort.

Lemma by_ordem_exibicao_total a b :
  by_ordem_exibicao a b = true ∨ by_ordem_exibicao b a = true.
Proof.
  unfold by_ordem_exibicao.
  destruct (Z.leb_spec (ordem_exibicao a - ordem_exibicao b) 0); [left; reflexivity|].
  right. apply Z.leb_le. lia.
Qed.

Lemma by_ordem_exibicao_le a b :
  by_ordem_exibicao a b = true <-> ordem_exibicao a <= ordem_exibicao b.
Proof. unfold by_ordem_exibicao. rewrite Z.leb_le. lia. Qed.

(** Filtering and mapping keep a list in order. *)
Lemma Sorted_filter {A} (R : A -> A -> Prop) (f : A -> bool) l :
  (∀ a b c, R a b -> R b c -> R a c) ->
  Sorted R l -> Sorted R (List.filter f l).
Proof.
  intros Htrans Hs. apply Sorted_StronglySorted in Hs; [|exact Htrans].
  apply StronglySorted_Sorted.
  induction Hs as [|x l Hs IH Hall]; simpl; [constructor|].
  destruct (f x); [|exact IH].
  constructor; [exact IH|].
  rewrite List.Forall_forall in *. intros y Hy.
  apply filter_In in Hy. apply Hall, Hy.
Qed.

Lemma Sorted_map {A B} (R : A -> A -> Prop) (S : B -> B -> Prop) (g : A -> B) l :
  (∀ a b, R a b -> S (g a) (g b)) ->
  Sorted R l -> Sorted S (map g l).
Proof.
  intros Hg. induction 1 as [|x l Hs IH Hhd]; simpl; constructor; [exact IH|].
  destruct Hhd; simpl; constructor. apply Hg. assumption.
Qed.

End SortFacts.

(** ** Dish codes *)

Module CodeFacts.
Import Statements.


Lemma pretty_N_go_head x s :
  (0 < x)%N -> ∃ c rest, pretty_N_go x s = String c rest ∧ c ≠ "0"%char.
Proof.
  revert s. induction (N.lt_wf_0 x) as [x _ IH]; intros s Hx.
  rewrite pretty_N_go_step by exact Hx.
  destruct (decide (x `div` 10 = 0)%N) as [E|E].
  - rewrite E, pretty_N_go_0. eexists _, _. split; [reflexivity|].
    assert (x < 10)%N.
    { pose proof (N.div_mod x 10 ltac:(discriminate)) as Hdm.
      pose proof (N.mod_lt x 10 ltac:(discriminate)) as Hm.
      rewrite E in Hdm. lia. }
    rewrite N.mod_small by assumption.
    assert (x = 1 ∨ x = 2 ∨ x = 3 ∨ x = 4 ∨ x = 5 ∨ x = 6
            ∨ x = 7 ∨ x = 8 ∨ x = 9)%N as Hc by lia.
    destruct Hc as [->|[->|[->|[->|[->|[->|[->|[->| ->]]]]]]]]; discriminate.
  - apply IH; [apply N.div_lt; lia|].
    apply N.neq_0_lt_0. exact E.
Qed.

Lemma toString_canonical (n : Z) : canonical (toString n).
Proof.
  unfold toString, pretty, pretty_Z. destruct n as [|p|p].
  - split; [discriminate|]. intros rest E. injection E as <-. reflexivity.
  - unfold pretty, pretty_positive, pretty, pretty_N.
    destruct (decide (N.pos p = 0%N)) as [E|_]; [discriminate E|].
    destruct (pretty_N_go_head (N.pos p) "") as (c & rest & E & Hc); [lia|].
    rewrite E. split; [discriminate|].
    intros rest' E'. injection E' as Ec _. destruct (Hc Ec).
  - split; [discriminate|]. intros rest E. discriminate E.
Qed.

Lemma zeros_length k : String.length (zeros k) = k.
Proof. induction k; simpl; congruence. Qed.

Lemma append_assoc (a b c : string) : ((a ++ b) ++ c = a ++ (b ++ c))%string.
Proof.
  induction a as [|x a IH]; [reflexivity|].
  change (String x ((a ++ b) ++ c) = String x (a ++ (b ++ c)))%string.
  rewrite IH. reflexivity.
Qed.

Lemma zeros_add a b : zeros (a + b) = (zeros a ++ zeros b)%string.
Proof.
  induction a as [|a IH]; [reflexivity|].
  change (zeros (S a + b)) with (String "0"%char (zeros (a + b))).
  rewrite IH. reflexivity.
Qed.

Lemma padStart_inj w s t :
  canonical s -> canonical t -> padStart w s = padStart w t -> s = t.
Proof.
  assert (Hlt : ∀ s t, canonical s -> canonical t ->
            (w - String.length s < w - String.length t)%nat ->
            padStart w s = padStart w t -> False).
  { clear s t. intros s t [Hs0 Hs] [Ht0 _] Hlen E. unfold padStart in E.
    replace (w - String.length t)%nat
      with ((w - String.length s) + S (w - String.length t - S (w - String.length s)))%nat
      in E by lia.
    rewrite zeros_add in E. rewrite append_assoc in E.
    apply String.app_inj in E. simpl in E.
    specialize (Hs _ E). 
    destruct (w - String.length t - S (w - String.length s))%nat; simpl in Hs.
    - apply Ht0. exact Hs.
    - discriminate Hs. }
  intros Hs Ht E.
  destruct (lt_eq_lt_dec (w - String.length s) (w - String.length t))
    as [[Hl|He]|Hl].
  - destruct (Hlt s t Hs Ht Hl E).
  - unfold padStart in E. rewrite He in E.
    apply String.app_inj in E. exact E.
  - destruct (Hlt t s Ht Hs Hl (eq_sym E)).
Qed.

Lemma codigo_of_id_inj a b : codigo_of_id a = codigo_of_id b -> a = b.
Proof.
  unfold codigo_of_id. intros E. apply String.app_inj in E.
  apply padStart_inj in E; try apply toString_canonical.
  unfold toString in E. apply (inj pretty) in E. exact E.
Qed.

Lemma Math_max_ge x xs : x <= Math_max x xs ∧ ∀ y, In y xs -> y <= Math_max x xs.
Proof.
  unfold Math_max. revert x. induction xs as [|z xs IH]; intros x; simpl.
  - split; [lia|]. intros y [].
  - destruct (IH (Z.max x z)) as [H1 H2]. split; [lia|].
    intros y [<-|Hy]; [lia|]. apply H2, Hy.
Qed.

End CodeFacts.

(** ** The JSON-file store *)

Module JsonDatabaseFacts.
Import JsonDatabase SortFacts CodeFacts Statements.

Lemma NoDup_snoc {A} (l : list A) (x : A) :
  List.NoDup l -> ¬ In x l -> List.NoDup (l ++ [x]).
Proof.
  induction 1 as [|y l Hy Hl IH]; intros Hx; simpl.
  - constructor; [intros []|constructor].
  - constructor.
    + rewrite in_app_iff. intros [Hin|[->|[]]]; [exact (Hy Hin)|].
      apply Hx. left. reflexivity.
    + apply IH. intros Hin. apply Hx. right. exact Hin.
Qed.

Lemma NoDup_map_injective {A B} (f : A -> B) (l : list A) :
  (∀ a b, f a = f b -> a = b) -> List.NoDup l -> List.NoDup (map f l).
Proof.
  intros Hf. induction 1 as [|x l Hx Hl IH]; simpl; constructor; [|exact IH].
  rewrite in_map_iff. intros (y & Hy & Hin). apply Hf in Hy. congruence.
Qed.

Lemma Math_max_in x xs : In (Math_max x xs) (x :: xs).
Proof.
  unfold Math_max. revert x. induction xs as [|z xs IH]; intros x; simpl.
  - left. reflexivity.
  - destruct (IH (Z.max x z)) as [E|Hin].
    + destruct (Z.max_spec x z) as [[_ Hm]|[_ Hm]]; rewrite Hm in E |- *.
      * right. left. exact E.
      * left. exact E.
    + right. right. exact Hin.
Qed.

Section WithBuiltins.

Context {RT : JsBuiltins}.


Lemma createPrato_stored dados db :
  pratos_json (snd (createPrato dados db))
  = pratos_json db ++ [fst (createPrato dados db)].
Proof. reflexivity. Qed.

Lemma createPrato_greater dados db p :
  In p (pratos_json db) -> id_prato p < id_prato (fst (createPrato dados db)).
Proof.
  intros Hin. simpl.
  assert (Hi : In (id_prato p) (map id_prato (pratos_json db)))
    by (apply in_map; exact Hin).
  destruct (map id_prato (pratos_json db)) as [|i is_]; [destruct Hi|].
  destruct (Math_max_ge i is_) as [H1 H2].
  destruct Hi as [<-|Hi]; [lia|]. specialize (H2 _ Hi). lia.
Qed.

Lemma createPrato_NoDup dados db :
  List.NoDup (ids db) -> List.NoDup (ids (snd (createPrato dados db))).
Proof.
  intros Hnd. unfold ids. rewrite createPrato_stored, map_app.
  apply (NoDup_snoc _ (id_prato (fst (createPrato dados db)))); [exact Hnd|].
  rewrite in_map_iff. intros (p & Hp & Hin).
  pose proof (createPrato_greater dados db p Hin) as Hlt.
  rewrite Hp in Hlt. exact (Z.lt_irrefl _ Hlt).
Qed.

Lemma createPrato_codes_derived dados db :
  codes_derived db -> codes_derived (snd (createPrato dados db)).
Proof.
  intros Hd p. rewrite createPrato_stored, in_app_iff.
  intros [Hin|[<-|[]]]; [apply Hd, Hin|reflexivity].
Qed.

Lemma create_all_invariant ds : ∀ db,
  List.NoDup (ids db) ->
  List.NoDup (ids (create_all ds db))
  ∧ (codes_derived db -> codes_derived (create_all ds db)).
Proof.
  induction ds as [|d ds IH]; intros db Hnd; simpl; [auto|].
  destruct (IH (snd (createPrato d db)) (createPrato_NoDup d db Hnd)) as [H1 H2].
  split; [exact H1|]. intros Hd. apply H2, createPrato_codes_derived, Hd.
Qed.

(** C9.  [createPrato] gives the new dish an identifier above every
    stored one: 1 in an empty store, the largest stored identifier plus 1
    otherwise; its code is the one derived from that identifier.  Hence,
    from a store with pairwise distinct identifiers, any number of
    creates leaves the identifiers pairwise distinct and the codes derived
    from them pairwise distinct; when the stored codes are the derived
    ones, the stored codes are pairwise distinct. *)
Theorem createPrato_fresh_id (dados : DadosPrato) (ds : list DadosPrato) (db : files) :
  let novo := fst (createPrato dados db) in
  (∀ p, In p (pratos_json db) -> id_prato p < id_prato novo)
  ∧ (pratos_json db = [] -> id_prato novo = 1)
  ∧ (pratos_json db ≠ [] ->
     ∃ m, In m (ids db) ∧ (∀ i, In i (ids db) -> i <= m) ∧ id_prato novo = m + 1)
  ∧ codigo_prato novo = codigo_of_id (id_prato novo)
  ∧ pratos_json (snd (createPrato dados db)) = pratos_json db ++ [novo]
  ∧ (List.NoDup (ids db) ->
     List.NoDup (ids (create_all ds db))
     ∧ List.NoDup (map codigo_of_id (ids (create_all ds db)))
     ∧ (codes_derived db ->
        List.NoDup (map codigo_prato (pratos_json (create_all ds db))))).
Proof.
  cbv zeta. split; [intros p; apply createPrato_greater|].
  split; [intros E; simpl; rewrite E; reflexivity|].
  split.
  { intros Hne. unfold ids. simpl.
    destruct (pratos_json db) as [|p ps]; [congruence|]. simpl map.
    exists (Math_max (id_prato p) (map id_prato ps)).
    split; [apply Math_max_in|]. split; [|reflexivity].
    destruct (Math_max_ge (id_prato p) (map id_prato ps)) as [H1 H2].
    intros i [<-|Hi]; [exact H1|apply H2, Hi]. }
  split; [reflexivity|]. split; [reflexivity|].
  intros Hnd. destruct (create_all_invariant ds db Hnd) as [H1 H2].
  split; [exact H1|]. split.
  - apply NoDup_map_injective; [apply codigo_of_id_inj|exact H1].
  - intros Hd. specialize (H2 Hd).
    replace (map codigo_prato (pratos_json (create_all ds db)))
      with (map codigo_of_id (ids (create_all ds db))).
    + apply NoDup_map_injective; [apply codigo_of_id_inj|exact H1].
    + unfold ids. rewrite map_map. apply map_ext_in. intros p Hp.
      symmetry. apply H2, Hp.
Qed.

End WithBuiltins.

(** Two creates on the initial data. *)
Lemma createPrato_fresh_id_witness :
  let db := create_all [Examples.dados_bolo; Examples.dados_suco] Examples.initial_files in
  map id_prato (pratos_json db) = [1; 2; 3; 4; 5]
  ∧ List.NoDup (ids db)
  ∧ List.NoDup (map codigo_prato (pratos_json db)).
Proof.
  cbv zeta.
  destruct (createPrato_fresh_id Examples.dados_bolo
              [Examples.dados_bolo; Examples.dados_suco] Examples.initial_files)
    as (_ & _ & _ & _ & _ & Hseq).
  destruct Hseq as (Hids & _ & Hcodes).
  { unfold ids. simpl. repeat constructor; simpl; intuition discriminate. }
  split; [reflexivity|]. split; [exact Hids|].
  apply Hcodes. intros p [<-|[<-|[<-|[]]]]; reflexivity.
Defined.

End JsonDatabaseFacts.

(** ** The public menu *)

Module MenuFacts.
Import SortFacts Statements.


Lemma filter_perm {A} (f : A -> bool) (l l' : list A) :
  Permutation l l' -> Permutation (List.filter f l) (List.filter f l').
Proof.
  induction 1 as [|x l l' _ IH|x y l|l l' l'' _ IH1 _ IH2]; simpl.
  - constructor.
  - destruct (f x); [constructor|]; exact IH.
  - destruct (f x), (f y); try reflexivity. apply perm_swap.
  - etransitivity; eassumption.
Qed.

Lemma filter_filter {A} (f g : A -> bool) (l : list A) :
  List.filter f (List.filter g l) = List.filter (fun x => f x && g x) l.
Proof.
  induction l as [|x l IH]; simpl; [reflexivity|].
  destruct (g x); simpl.
  - destruct (f x); simpl; rewrite IH; reflexivity.
  - rewrite andb_false_r. exact IH.
Qed.

Lemma sorted_categorias (cats : list Categoria) (ps : list Prato) :
  let cs := List.filter (has_available ps) (sort_by by_ordem_exibicao cats) in
  Permutation cs (List.filter (has_available ps) cats) ∧ Sorted ordem_le cs.
Proof.
  cbv zeta. split.
  - apply filter_perm. symmetry. apply sort_by_perm.
  - apply Sorted_filter; [unfold ordem_le; intros; lia|].
    rewrite <- (map_id (sort_by by_ordem_exibicao cats)).
    apply (Sorted_map (fun a b => by_ordem_exibicao a b = true) ordem_le).
    + intros a b. apply by_ordem_exibicao_le.
    + apply sort_by_sorted. apply by_ordem_exibicao_total.
Qed.

Section Prisma.

Context {RT : JsBuiltins} {DB : Engine}.

Lemma pratos_of_perm db cat :
  Permutation (PrismaDatabase.pratos_of db cat)
              (available_of (PrismaDatabase.pratos_table db) cat).
Proof. unfold PrismaDatabase.pratos_of. symmetry. apply sort_by_perm. Qed.

Lemma prisma_groups db (l : list Categoria) :
  let ps := PrismaDatabase.pratos_table db in
  let gs :=
    map (fun '(cat, ps) =>
           {| categoria := nome_categoria cat;
              grupo_ordem_exibicao := ordem_exibicao cat;
              pratos := ps |})
        (List.filter (fun '(cat, ps) => (0 <? length ps)%nat)
           (map (fun cat => (cat, PrismaDatabase.pratos_of db cat)) l)) in
  Forall2 (group_of ps) (List.filter (has_available ps) l) gs
  ∧ (∀ g, In g gs -> ∃ c, In c l ∧ pratos g = PrismaDatabase.pratos_of db c).
Proof.
  cbv zeta. induction l as [|c l [IH1 IH2]]; simpl.
  - split; [constructor|intros g []].
  - unfold has_available at 1.
    rewrite <- (Permutation_length (pratos_of_perm db c)).
    destruct (0 <? length (PrismaDatabase.pratos_of db c))%nat; simpl.
    + split.
      * constructor; [|exact IH1].
        repeat split; simpl; auto. apply pratos_of_perm.
      * intros g [<-|Hg]; [exists c; simpl; auto|].
        destruct (IH2 g Hg) as (c' & Hc' & E). exists c'. auto.
    + split; [exact IH1|]. intros g Hg.
      destruct (IH2 g Hg) as (c' & Hc' & E). exists c'. auto.
Qed.

Lemma prisma_menu db :
  (∀ a b, collate_le a b = true ∨ collate_le b a = true) ->
  ∃ gs, PrismaDatabase.getPratosDisponiveis db = PrismaDatabase.Resolved gs
        ∧ menu_of (PrismaDatabase.categorias db) (PrismaDatabase.pratos_table db) gs
        ∧ names_ascending collate_le gs.
Proof.
  intros Htotal. eexists. split; [reflexivity|].
  destruct (prisma_groups db
              (sort_by by_ordem_exibicao (PrismaDatabase.categorias db)))
    as [Hg Hn].
  destruct (sorted_categorias (PrismaDatabase.categorias db)
              (PrismaDatabase.pratos_table db)) as [Hp Hs].
  split.
  - eexists. split; [exact Hp|]. split; [exact Hs|]. exact Hg.
  - apply List.Forall_forall. intros g Hin.
    destruct (Hn g Hin) as (c & _ & ->).
    unfold PrismaDatabase.pratos_of.
    apply (sort_by_sorted PrismaDatabase.by_nome_prato).
    intros a b. apply Htotal.
Qed.

End Prisma.

Section Json.

Context {RT : JsBuiltins}.

Lemma json_groups (ps : list Prato) (l : list Categoria) :
  let gs :=
    List.filter (fun grupo => (0 <? length (pratos grupo))%nat)
      (map (fun cat =>
              {| categoria := nome_categoria cat;
                 grupo_ordem_exibicao := ordem_exibicao cat;
                 pratos := List.filter
                             (fun prato => prato_id_categoria prato =? id_categoria cat)
                             (List.filter (fun prato => disponivel prato) ps) |}) l) in
  Forall2 (group_of ps) (List.filter (has_available ps) l) gs
  ∧ (∀ g, In g gs -> ∃ c, In c l ∧ pratos g = available_of ps c).
Proof.
  cbv zeta. induction l as [|c l [IH1 IH2]]; simpl.
  - split; [constructor|intros g []].
  - rewrite filter_filter. fold (available_of ps c).
    unfold has_available at 1.
    destruct (0 <? length (available_of ps c))%nat; simpl.
    + split.
      * constructor; [|exact IH1]. repeat split; simpl; auto.
      * intros g [<-|Hg]; [exists c; simpl; auto|].
        destruct (IH2 g Hg) as (c' & Hc' & E). exists c'. auto.
    + split; [exact IH1|]. intros g Hg.
      destruct (IH2 g Hg) as (c' & Hc' & E). exists c'. auto.
Qed.

Lemma json_menu (db : JsonDatabase.files) :
  let gs := JsonDatabase.getPratosDisponiveis db in
  menu_of (JsonDatabase.categorias_json db) (JsonDatabase.pratos_json db) gs
  ∧ storage_order (JsonDatabase.categorias_json db) (JsonDatabase.pratos_json db) gs.
Proof.
  cbv zeta.
  destruct (json_groups (JsonDatabase.pratos_json db)
              (sort_by by_ordem_exibicao (JsonDatabase.categorias_json db)))
    as [Hg Hn].
  destruct (sorted_categorias (JsonDatabase.categorias_json db)
              (JsonDatabase.pratos_json db)) as [Hp Hs].
  split.
  - eexists. split; [exact Hp|]. split; [exact Hs|]. exact Hg.
  - apply List.Forall_forall. intros g Hin.
    destruct (Hn g Hin) as (c & Hc & E). exists c. split; [|exact E].
    apply sort_by_In in Hc. exact Hc.
Qed.

End Json.

End MenuFacts.

(** ** The public menu, for both adapters *)

Module MenuClaims.
Import SortFacts MenuFacts Examples Statements.

(** C5, as stated, fails for the JSON-file adapter: with the desserts
    stored in the order Tiramisu, Pudim, the menu lists them in that
    order, which is not ascending by name. *)
Lemma json_menu_keeps_storage_order :
  map (fun g => map nome_prato (pratos g))
      (JsonDatabase.getPratosDisponiveis two_desserts)
    = [["Tiramisu"%string; "Pudim"%string]]
  ∧ String.leb "Tiramisu" "Pudim" = false
  ∧ ¬ names_ascending String.leb (JsonDatabase.getPratosDisponiveis two_desserts).
Proof.
  split; [reflexivity|]. split; [reflexivity|].
  intros Hasc. unfold names_ascending in Hasc.
  apply List.Forall_inv in Hasc. simpl in Hasc.
  apply Sorted_inv in Hasc. destruct Hasc as [_ Hhd].
  inversion Hhd as [|b l Hle]; subst. vm_compute in Hle. discriminate Hle.
Qed.

(** C5, as amended.  The menu consists of the categories that have at
    least one available dish, in ascending [ordem_exibicao], each with
    exactly its available dishes.  In the Prisma adapter the dishes of a
    category ascend by name in the database's collation (a total order);
    in the JSON-file adapter they keep the order of the store. *)
Theorem public_menu {RT : JsBuiltins} {DB : Engine}
    (db : PrismaDatabase.tables) (dbj : JsonDatabase.files) :
  (∀ a b, collate_le a b = true ∨ collate_le b a = true) ->
  (∃ gs, PrismaDatabase.getPratosDisponiveis db = PrismaDatabase.Resolved gs
         ∧ menu_of (PrismaDatabase.categorias db) (PrismaDatabase.pratos_table db) gs
         ∧ names_ascending collate_le gs)
  ∧ menu_of (JsonDatabase.categorias_json dbj) (JsonDatabase.pratos_json dbj)
      (JsonDatabase.getPratosDisponiveis dbj)
  ∧ storage_order (JsonDatabase.categorias_json dbj) (JsonDatabase.pratos_json dbj)
      (JsonDatabase.getPratosDisponiveis dbj).
Proof.
  intros Htotal. split; [apply prisma_menu, Htotal|apply json_menu].
Qed.

Lemma public_menu_witness :
  ∃ gs, PrismaDatabase.getPratosDisponiveis (DB := engine) seeded_tables
        = PrismaDatabase.Resolved gs
        ∧ names_ascending String.leb gs
        ∧ map categoria gs = ["Entradas"%string; "Pratos Principais"%string].
Proof.
  destruct (public_menu (RT := AsciiRuntime.builtins) (DB := engine)
              seeded_tables initial_files String.leb_total)
    as [(gs & Hgs & _ & Hasc) _].
  exists gs. split; [exact Hgs|]. split; [exact Hasc|].
  vm_compute in Hgs. injection Hgs as <-. reflexivity.
Defined.

End MenuClaims.

(** ** The administrative controllers *)

Module ControllerClaims.
Import SortFacts Examples.

(** C10.  In the list-all-dishes response, [categorias_ativas] is the
    number of categories in the store, whatever dishes they own; this
    holds for the controller on either adapter. *)
Theorem categorias_ativas_counts_every_category {RT : JsBuiltins} {DB : Engine}
    (db : PrismaDatabase.tables) (usuario : string) (dbj : JsonDatabase.files) :
  (∃ ps st, AdminControllerPrisma.getTodosPratos db = Lista ps st
            ∧ categorias_ativas st = length (PrismaDatabase.categorias db))
  ∧ (∃ ps st, AdminController.getTodosPratos (Some usuario) dbj = Lista ps st
              ∧ categorias_ativas st = length (JsonDatabase.categorias_json dbj)).
Proof.
  split; eexists _, _; (split; [reflexivity|]); simpl; apply sort_by_length.
Qed.

(** With the initial data, "Bebidas" owns no dish and the only dessert is
    unavailable; both categories are counted. *)
Example categorias_ativas_initial_data :
  AdminController.getTodosPratos (Some "Administrador"%string) initial_files
  = Lista [(bruschetta, "Entradas"%string); (salmao, "Pratos Principais"%string);
           (tiramisu, "Sobremesas"%string)]
      {| total_pratos := 3; pratos_disponiveis := 2;
         pratos_indisponiveis := 1; categorias_ativas := 4 |}.
Proof. reflexivity. Qed.

(** In the availability operation a [disponivel] that is not a boolean
    never reaches the store.  The answer is 400 when the value converts to
    a string, and 500 when the line logged first throws on it. *)
Lemma toggle_non_boolean_prisma {RT : JsBuiltins} {DB : Engine}
    (id : string) (body : Body) (db : PrismaDatabase.tables) :
  (∀ b, body_disponivel body ≠ JBool b) ->
  AdminControllerPrisma.alterarDisponibilidade id body db
  = (if ToString_throws (body_disponivel body) then erro_interno
     else Erro 400 "Parâmetro inválido", db).
Proof.
  intros Hnb. unfold AdminControllerPrisma.alterarDisponibilidade.
  destruct (ToString_throws (body_disponivel body)); [reflexivity|].
  destruct (body_disponivel body) as [| |b| | | |]; try reflexivity.
  destruct (Hnb b eq_refl).
Qed.

(** The controller on the JSON-file store does the same. *)
Lemma toggle_non_boolean_json {RT : JsBuiltins}
    (usuario id : string) (body : Body) (db : JsonDatabase.files) :
  (∀ b, body_disponivel body ≠ JBool b) ->
  AdminController.alterarDisponibilidade (Some usuario) id body db
  = (if ToString_throws (body_disponivel body) then erro_interno
     else Erro 400 "Parâmetro inválido", db).
Proof.
  intros Hnb. unfold AdminController.alterarDisponibilidade.
  destruct (ToString_throws (body_disponivel body)); [reflexivity|].
  destruct (body_disponivel body) as [| |b| | | |]; try reflexivity.
  destruct (Hnb b eq_refl).
Qed.

(** C6, the failing input.  The body [{disponivel: {toString: null}}]
    carries a [disponivel] that is not a boolean, and the availability
    operation answers 500 where the claim says 400: the line logged before
    the [typeof] test interpolates [disponivel], and the conversion of this
    object to a string throws.  The stored dish is left as it was; the
    body [{disponivel: "yes"}] of the specification's example is answered
    400.  The controller on the JSON-file store behaves alike. *)
Theorem toggle_throws_before_type_check :
  (∀ b, body_disponivel disponivel_sem_texto ≠ JBool b)
  ∧ typeof (body_disponivel disponivel_sem_texto) = "object"%string
  ∧ AdminControllerPrisma.alterarDisponibilidade (RT := AsciiRuntime.builtins)
      (DB := engine) "3" disponivel_sem_texto seeded_tables
    = (Erro 500 "Erro interno do servidor", seeded_tables)
  ∧ AdminControllerPrisma.alterarDisponibilidade (RT := AsciiRuntime.builtins)
      (DB := engine) "3" disponivel_yes seeded_tables
    = (Erro 400 "Parâmetro inválido", seeded_tables)
  ∧ AdminController.alterarDisponibilidade (RT := AsciiRuntime.builtins)
      (Some "Administrador"%string) "3" disponivel_sem_texto initial_files
    = (Erro 500 "Erro interno do servidor", initial_files).
Proof.
  split; [intros b; discriminate|]. repeat split.
Qed.

End ControllerClaims.

(** ** The full update against the availability operation *)

Module UpdateClaims.
Import Examples Statements.

Lemma find_update {A} (test : A -> bool) (f : A -> A) (l : list A) :
  (∀ a, test (f a) = test a) ->
  List.find test (map (fun a => if test a then f a else a) l)
  = option_map f (List.find test l).
Proof.
  intros Hf. induction l as [|a l IH]; simpl; [reflexivity|].
  destruct (test a) eqn:E.
  - rewrite Hf, E. reflexivity.
  - rewrite E. exact IH.
Qed.

Section Prisma.
Import PrismaDatabase AdminControllerPrisma.

Context {RT : JsBuiltins} {DB : Engine}.

Lemma int_argument_inv v k :
  int_argument v = Resolved k -> v = Some k ∧ int4 k = true.
Proof.
  unfold int_argument. destruct v as [k'|]; [|discriminate].
  destruct (int4 k') eqn:E; [|discriminate].
  intros [= <-]. auto.
Qed.

Lemma call_parseInt_inv v n :
  call_parseInt v = Some n -> ToString_throws v = false ∧ n = parseInt v.
Proof.
  unfold call_parseInt. destruct (ToString_throws v); [discriminate|].
  intros [= <-]. auto.
Qed.

Lemma getPratoById_inv id db pc :
  getPratoById id db = Resolved (Some pc) ->
  ∃ k p, call_parseInt id = Some (parseInt id)
         ∧ int_argument (parseInt id) = Resolved k
         ∧ List.find (fun p => id_prato p =? k) (pratos_table db) = Some p
         ∧ pc = with_categoria db p.
Proof.
  unfold getPratoById. destruct (call_parseInt id) as [n|] eqn:En; [|discriminate].
  destruct (call_parseInt_inv _ _ En) as [_ ->].
  destruct (int_argument (parseInt id)) as [k|e]; [|discriminate].
  destruct (List.find _ _) as [p|] eqn:E; simpl; [|discriminate].
  intros [= <-]. exists k, p. auto.
Qed.

Lemma getCategoriaById_inv v db c :
  getCategoriaById v db = Resolved (Some c) ->
  ∃ k, int_argument (parseInt v) = Resolved k ∧ categoria_of db k = Some c.
Proof.
  unfold getCategoriaById. destruct (call_parseInt v) as [n|] eqn:En; [|discriminate].
  destruct (call_parseInt_inv _ _ En) as [_ ->].
  destruct (int_argument (parseInt v)) as [k|e]; [|discriminate].
  intros [= E]. exists k. auto.
Qed.


Lemma atualizarPrato_coerces (id : string) (body : Body) (db : tables)
    (pc : PratoComCategoria) (d : DadosAtualizacao) :
  truthy (body_disponivel body) = true ->
  (∀ b, body_disponivel body ≠ JBool b) ->
  getPratoById (JStr id) db = Resolved (Some pc) ->
  prato_categoria pc ≠ None ->
  passes body db d ->
  fits_columns (aplicar d (nova_categoria d) (prato pc)) = true ->
  ∃ p nc db' pc',
    atualizarPrato id body db
    = (ComPrato 200 "Prato atualizado com sucesso" p nc, db')
    ∧ disponivel p = true
    ∧ getPratoById (JStr id) db' = Resolved (Some pc')
    ∧ disponivel (prato pc') = true.
Proof.
  intros Ht Hnb Hget Hfk (Hn & Hd & Hp & Hc & Hdisp) Hfit.
  assert (Hund : is_undefined (body_disponivel body) = false).
  { destruct (body_disponivel body); try reflexivity; discriminate Ht. }
  assert (Hnova : nova_disponivel d = Some true).
  { rewrite Hdisp. unfold coagir_disponivel, Boolean. rewrite Hund, Ht. reflexivity. }
  destruct (getPratoById_inv _ _ _ Hget) as (k & p0 & Hcall & Hk & Hfind & ->).
  simpl in Hfk, Hfit.
  unfold atualizarPrato. rewrite Hget, Hn, Hd, Hp, Hc.
  assert (Hdados :
    {| novo_nome_prato := novo_nome_prato d; nova_descricao := nova_descricao d;
       novo_preco := novo_preco d;
       nova_disponivel := coagir_disponivel (body_disponivel body);
       novo_id_categoria := novo_id_categoria d |} = d).
  { rewrite <- Hdisp. destruct d; reflexivity. }
  rewrite Hdados. clear Hdados.
  (* the category argument *)
  assert (Hcat : ∃ kc,
    match novo_id_categoria d with
    | Some v => match int_argument v with
                | Resolved k => Resolved (Some k)
                | Rejected e => Rejected e
                end
    | None => Resolved None
    end = Resolved kc
    ∧ kc = nova_categoria d
    ∧ categoria_of db (prato_id_categoria (aplicar d kc p0)) ≠ None).
  { unfold nova_categoria. unfold validar_categoria in Hc.
    destruct (is_undefined (body_id_categoria body)).
    - injection Hc as <-. exists None. split; [reflexivity|].
      split; [reflexivity|]. exact Hfk.
    - destruct (getCategoriaById (body_id_categoria body) db) as [[c|]|e] eqn:Eg;
        try discriminate Hc.
      injection Hc as <-.
      destruct (getCategoriaById_inv _ _ _ Eg) as (kc & Hkc & Hfound).
      rewrite Hkc. destruct (int_argument_inv _ _ Hkc) as [-> _].
      exists (Some kc). split; [reflexivity|]. split; [reflexivity|].
      simpl. rewrite Hfound. discriminate. }
  destruct Hcat as (kc & Hkc & -> & Hfk').
  unfold updatePrato. rewrite Hcall, Hkc, Hk.
  unfold update_prato. rewrite Hfind, Hfit. simpl negb. cbv iota.
  destruct (categoria_of db (prato_id_categoria (aplicar d (nova_categoria d) p0)))
    as [c|] eqn:Ec; [|destruct (Hfk' eq_refl)].
  eexists _, _, _, _. split; [reflexivity|].
  split; [simpl; rewrite Hnova; reflexivity|].
  unfold getPratoById. rewrite Hcall, Hk. simpl pratos_table.
  rewrite (find_update (fun p => id_prato p =? k)
             (aplicar d (nova_categoria d))) by reflexivity.
  rewrite Hfind. simpl. split; [reflexivity|].
  simpl. rewrite Hnova. reflexivity.
Qed.

End Prisma.

Section Json.
Import JsonDatabase AdminController.

Context {RT : JsBuiltins}.


Lemma update_first_find (test : Prato -> bool) (f : Prato -> Prato) l p :
  (∀ a, test (f a) = test a) ->
  List.find test l = Some p ->
  ∃ l', update_first test f l = Some (f p, l')
        ∧ List.find test l' = Some (f p).
Proof.
  intros Hf. induction l as [|a l IH]; simpl; [discriminate|].
  destruct (test a) eqn:E.
  - intros [= <-]. eexists. split; [reflexivity|]. simpl. rewrite Hf, E. reflexivity.
  - intros Hfind. destruct (IH Hfind) as (l' & -> & Hl').
    eexists. split; [reflexivity|]. simpl. rewrite E. exact Hl'.
Qed.

Lemma atualizarPrato_coerces_json (usuario id : string) (body : Body) (db : files)
    (p0 : Prato) (d : DadosAtualizacao) :
  truthy (body_disponivel body) = true ->
  (∀ b, body_disponivel body ≠ JBool b) ->
  getPratoById (JStr id) db = Some p0 ->
  passes_json body db d ->
  ∃ p db',
    atualizarPrato (Some usuario) id body db
    = (ComPrato 200 "Prato atualizado com sucesso" p None, db')
    ∧ disponivel p = true
    ∧ getPratoById (JStr id) db' = Some p.
Proof.
  intros Ht Hnb Hget (Hn & Hd & Hp & Hc & Hdisp).
  assert (Hund : is_undefined (body_disponivel body) = false).
  { destruct (body_disponivel body); try reflexivity; discriminate Ht. }
  assert (Hnova : nova_disponivel d = Some true).
  { rewrite Hdisp. unfold coagir_disponivel, Boolean. rewrite Hund, Ht. reflexivity. }
  unfold atualizarPrato. rewrite Hget, Hn, Hd, Hp, Hc.
  assert (Hdados :
    {| novo_nome_prato := novo_nome_prato d; nova_descricao := nova_descricao d;
       novo_preco := novo_preco d;
       nova_disponivel := coagir_disponivel (body_disponivel body);
       novo_id_categoria := novo_id_categoria d |} = d).
  { rewrite <- Hdisp. destruct d; reflexivity. }
  rewrite Hdados. clear Hdados.
  unfold getPratoById in Hget. cbn [ToString_throws] in Hget.
  destruct (update_first_find (is_prato (JStr id)) (aplicar d) _ _
              ltac:(reflexivity) Hget) as (l' & Hup & Hfind').
  unfold updatePrato, findIndex_throws. cbn [ToString_throws andb]. rewrite Hup.
  eexists _, _. split; [reflexivity|].
  split; [simpl; rewrite Hnova; reflexivity|].
  unfold getPratoById. simpl. exact Hfind'.
Qed.

End Json.

(** C8, as stated, fails: an update of an existing dish with
    [{disponivel: "false", preco: "-1"}] carries a truthy non-boolean
    [disponivel], yet it is answered 400 for its price and the store is
    left as it was. *)
Lemma update_rejected_for_another_field :
  truthy (body_disponivel disponivel_false_preco_negativo) = true
  ∧ PrismaDatabase.getPratoById (RT := AsciiRuntime.builtins) (JStr "3") seeded_tables
    = PrismaDatabase.Resolved
        (Some (PrismaDatabase.with_categoria seeded_tables tiramisu))
  ∧ AdminControllerPrisma.atualizarPrato (RT := AsciiRuntime.builtins) (DB := engine)
      "3" disponivel_false_preco_negativo seeded_tables
    = (Erro 400 "Preço inválido", seeded_tables).
Proof. repeat split; vm_compute; reflexivity. Qed.

(** C8, as amended.  In the full update of an existing dish, a
    [disponivel] that is truthy and not a boolean (the string "false", an
    array or an object included) is coerced to [true]: when the other
    fields of the body are absent or pass their validations and the store
    accepts the row, the answer is 200 and the stored flag is [true]
    afterwards.  The availability operation answers 400 to the same body
    and changes nothing, whenever the value of [disponivel] converts to a
    string.  This holds for the controller on either adapter. *)
Theorem update_coerces_disponivel {RT : JsBuiltins} {DB : Engine}
    (id usuario : string) (body : Body)
    (db : PrismaDatabase.tables) (pc : PrismaDatabase.PratoComCategoria)
    (d : PrismaDatabase.DadosAtualizacao)
    (dbj : JsonDatabase.files) (pj : Prato) (dj : JsonDatabase.DadosAtualizacao) :
  truthy (body_disponivel body) = true ->
  (∀ b, body_disponivel body ≠ JBool b) ->
  (PrismaDatabase.getPratoById (JStr id) db = PrismaDatabase.Resolved (Some pc) ->
   PrismaDatabase.prato_categoria pc ≠ None ->
   passes body db d ->
   fits_columns (PrismaDatabase.aplicar d (nova_categoria d) (PrismaDatabase.prato pc))
     = true ->
   (∃ p nc db' pc',
      AdminControllerPrisma.atualizarPrato id body db
      = (ComPrato 200 "Prato atualizado com sucesso" p nc, db')
      ∧ disponivel p = true
      ∧ PrismaDatabase.getPratoById (JStr id) db' = PrismaDatabase.Resolved (Some pc')
      ∧ disponivel (PrismaDatabase.prato pc') = true)
   ∧ (ToString_throws (body_disponivel body) = false ->
      AdminControllerPrisma.alterarDisponibilidade id body db
      = (Erro 400 "Parâmetro inválido", db)))
  ∧ (JsonDatabase.getPratoById (JStr id) dbj = Some pj ->
     passes_json body dbj dj ->
     (∃ p db',
        AdminController.atualizarPrato (Some usuario) id body dbj
        = (ComPrato 200 "Prato atualizado com sucesso" p None, db')
        ∧ disponivel p = true
        ∧ JsonDatabase.getPratoById (JStr id) db' = Some p)
     ∧ (ToString_throws (body_disponivel body) = false ->
        AdminController.alterarDisponibilidade (Some usuario) id body dbj
        = (Erro 400 "Parâmetro inválido", dbj))).
Proof.
  intros Ht Hnb. split.
  - intros Hget Hfk Hpass Hfit. split.
    + eapply atualizarPrato_coerces; eassumption.
    + intros Hconv.
      rewrite (ControllerClaims.toggle_non_boolean_prisma id body db Hnb), Hconv.
      reflexivity.
  - intros Hget Hpass. split.
    + eapply atualizarPrato_coerces_json; eassumption.
    + intros Hconv.
      rewrite (ControllerClaims.toggle_non_boolean_json usuario id body dbj Hnb), Hconv.
      reflexivity.
Qed.

(** [{disponivel: "false"}] sent for dish 3 of the seeded store and of the
    initial files. *)
Lemma update_coerces_disponivel_witness :
  (∃ p nc db',
     AdminControllerPrisma.atualizarPrato (RT := AsciiRuntime.builtins) (DB := engine)
       "3" disponivel_false_string seeded_tables
     = (ComPrato 200 "Prato atualizado com sucesso" p nc, db')
     ∧ disponivel p = true)
  ∧ AdminControllerPrisma.alterarDisponibilidade (RT := AsciiRuntime.builtins)
      (DB := engine) "3" disponivel_false_string seeded_tables
    = (Erro 400 "Parâmetro inválido", seeded_tables)
  ∧ (∃ p db',
       AdminController.atualizarPrato (RT := AsciiRuntime.builtins)
         (Some "Administrador"%string) "3" disponivel_false_string initial_files
       = (ComPrato 200 "Prato atualizado com sucesso" p None, db')
       ∧ disponivel p = true).
Proof.
  destruct (update_coerces_disponivel (RT := AsciiRuntime.builtins) (DB := engine)
              "3" "Administrador" disponivel_false_string
              seeded_tables (PrismaDatabase.with_categoria seeded_tables tiramisu)
              so_disponivel initial_files tiramisu so_disponivel_json
              eq_refl ltac:(intros b; discriminate)) as [HP HJ].
  destruct HP as [(p & nc & db' & pc' & Hp & Hd & _) Ht];
    [reflexivity|discriminate|repeat split|reflexivity|].
  destruct HJ as [(pj & dbj' & Hpj & Hdj & _) _];
    [reflexivity|repeat split|].
  split; [exists p, nc, db'; auto|]. split; [exact (Ht eq_refl)|].
  exists pj, dbj'. auto.
Defined.

End UpdateClaims.

(** ** Creating a dish *)

Module CreateClaims.
Import Examples PrismaDatabase AdminControllerPrisma Statements.

Section Prisma.

Context {RT : JsBuiltins} {DB : Engine}.


Lemma ultimo_prato_id p ps :
  id_prato (fold_left (fun best q => if id_prato best <? id_prato q then q else best)
              ps p)
  = Math_max (id_prato p) (map id_prato ps).
Proof.
  unfold Math_max. revert p. induction ps as [|q ps IH]; intros p; simpl; [reflexivity|].
  rewrite IH. f_equal.
  destruct (Z.ltb_spec (id_prato p) (id_prato q)); lia.
Qed.

Lemma proximo_id_code db :
  match ultimo_prato db with
  | Some p => id_prato p + 1
  | None => 1
  end = proximo_id db.
Proof.
  unfold ultimo_prato, proximo_id.
  destruct (pratos_table db) as [|p ps]; simpl; [reflexivity|].
  rewrite ultimo_prato_id. reflexivity.
Qed.



Lemma required_given_test body :
  required_given body ->
  negb (truthy (body_nome_prato body)) || negb (truthy (body_descricao body))
  || negb (truthy (body_preco body)) || negb (truthy (body_id_categoria body))
  = false.
Proof. intros (-> & -> & -> & ->). reflexivity. Qed.


(** A well-formed body reaches the INSERT, and the answer follows its
    outcome. *)
Lemma criarPrato_inserts (body : Body) (db : tables) (k : Z) (c : Categoria) :
  well_formed body db k c ->
  criarPrato body db
  = match insert_prato (fun id => linha id body k db) db with
    | (Resolved novo, db') =>
        (resposta 201 "Prato criado com sucesso" (with_categoria db' novo), db')
    | (Rejected e, db') => (criarPrato_catch e, db')
    end.
Proof.
  intros ([nome Hnome] & [desc Hdesc] & Hreq & Hconvp & Hconvc & Hpreco & Hint & Hk
          & Hcat & Htipo).
  unfold criarPrato. rewrite (required_given_test body Hreq).
  unfold getCategoriaById, call_parseInt, call_parseFloat, int_argument.
  rewrite Hconvc, Hconvp, Hint, Hk, Hcat, Hpreco.
  rewrite Hnome, Hdesc. simpl call_trim. cbv iota.
  unfold createPrato.
  cbn [dados_tipo_item dados_id_categoria dados_nome_prato dados_descricao
       dados_preco dados_disponivel].
  unfold int_argument. rewrite Hk.
  rewrite proximo_id_code.
  assert (Hrow : ∀ t,
    (if truthy (if truthy (body_tipo_item body) then body_tipo_item body
                else JStr "Cardápio")
     then if truthy (body_tipo_item body) then body_tipo_item body
          else JStr "Cardápio"
     else JStr "Cardápio") = JStr t ->
    t = (if truthy (body_tipo_item body)
         then string_of (body_tipo_item body) else "Cardápio"%string)).
  { intros t. destruct Htipo as [Hf|[s Hs]].
    - rewrite Hf. simpl. intros E. congruence.
    - rewrite Hs. simpl. destruct (String.eqb s "") eqn:Es; simpl;
        rewrite ?Es; simpl; intros E; congruence. }
  destruct (if truthy (if truthy (body_tipo_item body) then body_tipo_item body
                       else JStr "Cardápio")
            then if truthy (body_tipo_item body) then body_tipo_item body
                 else JStr "Cardápio"
            else JStr "Cardápio") as [| | | |t| |] eqn:Et;
    try (exfalso; destruct Htipo as [Hf|[s Hs]];
         [rewrite Hf in Et; simpl in Et; discriminate Et
         |rewrite Hs in Et; simpl in Et;
          destruct (String.eqb s "") eqn:Es; simpl in Et;
          rewrite ?Es in Et; simpl in Et; discriminate Et]).
  specialize (Hrow t eq_refl).
  assert (Hlinha :
    (fun id =>
       {| id_prato := id;
          codigo_prato := codigo_of_id (proximo_id db);
          nome_prato := trim nome;
          descricao := trim desc;
          preco := to_decimal (parseFloat_number (parseFloat (body_preco body)));
          disponivel := if is_undefined (body_disponivel body) then true
                        else Boolean (body_disponivel body);
          prato_id_categoria := k;
          tipo_item := t |}) = (fun id => linha id body k db)).
  { unfold linha. rewrite Hnome, Hdesc, Hrow. reflexivity. }
  rewrite Hlinha.
  destruct (insert_prato (fun id => linha id body k db) db) as [[novo|e] db'];
    reflexivity.
Qed.


Lemma existsb_true {A} (f : A -> bool) l a :
  In a l -> f a = true -> existsb f l = true.
Proof. intros Hin Hf. apply existsb_exists. exists a. auto. Qed.







End Prisma.



(** The same body with the price given as the number 0: the
    required-field test [!preco] takes it for a missing value. *)
Example criarPrato_numeric_zero_price :
  criarPrato (RT := AsciiRuntime.builtins) (DB := engine) bolo_gratis seeded_tables
  = (Erro 400 "Dados inválidos", seeded_tables).
Proof. reflexivity. Qed.

End CreateClaims.

(** * More on the metrics aggregator: resets, frames and runs *)

Module AggregatorRunFacts.
Import Monitoring MonitoringStatements AggregatorRuns.

Section Reset.

Context {num : Type} `{JsNumber num}.
Implicit Types (s : store (num:=num)).

(** The store after a reset: five new objects on top of the old heap. *)
Lemma reset_shape s :
  ∃ l0 l1 l2 l3 l4,
    metrics (resetMetrics s)
    = {| requests := l0; performance := l1; errors := l2;
         database := l3; security := l4 |}
    ∧ heap (resetMetrics s)
      = <[l4 := OSecurity empty_security]>
          (<[l3 := ODatabase empty_database]>
             (<[l2 := OErrors empty_errors]>
                (<[l1 := OPerformance empty_performance]>
                   (<[l0 := ORequests empty_requests]> (heap s)))))
    ∧ List.NoDup [l0; l1; l2; l3; l4]
    ∧ (∀ l, In l [l0; l1; l2; l3; l4] -> heap s !! l = None).
Proof.
  unfold resetMetrics, alloc. cbv zeta.
  set (h := heap s).
  set (l0 := fresh (dom h)).
  set (h0 := <[l0 := ORequests empty_requests]> h).
  set (l1 := fresh (dom h0)).
  set (h1 := <[l1 := OPerformance empty_performance]> h0).
  set (l2 := fresh (dom h1)).
  set (h2 := <[l2 := OErrors empty_errors]> h1).
  set (l3 := fresh (dom h2)).
  set (h3 := <[l3 := ODatabase empty_database]> h2).
  set (l4 := fresh (dom h3)).
  pose proof (is_fresh (dom h)) as F0. fold l0 in F0.
  pose proof (is_fresh (dom h0)) as F1. fold l1 in F1.
  pose proof (is_fresh (dom h1)) as F2. fold l2 in F2.
  pose proof (is_fresh (dom h2)) as F3. fold l3 in F3.
  pose proof (is_fresh (dom h3)) as F4. fold l4 in F4.
  unfold h3 in F4. rewrite dom_insert_L in F4.
  unfold h2 in F3, F4. rewrite dom_insert_L in F3, F4.
  unfold h1 in F2, F3, F4. rewrite dom_insert_L in F2, F3, F4.
  unfold h0 in F1, F2, F3, F4. rewrite dom_insert_L in F1, F2, F3, F4.
  exists l0, l1, l2, l3, l4.
  split; [reflexivity|]. split; [reflexivity|]. split.
  - repeat constructor; simpl; intros Hin;
      repeat (destruct Hin as [Hin|Hin]; [set_solver|]); exact Hin.
  - intros l Hin. apply not_elem_of_dom. simpl in Hin.
    repeat (destruct Hin as [<-|Hin]; [set_solver|]). destruct Hin.
Qed.

Lemma NoDup5 (a b c d e : loc) :
  List.NoDup [a; b; c; d; e] ->
  a ≠ b ∧ a ≠ c ∧ a ≠ d ∧ a ≠ e ∧ b ≠ c ∧ b ≠ d ∧ b ≠ e ∧ c ≠ d ∧ c ≠ e ∧ d ≠ e.
Proof.
  intros Hnd.
  inversion Hnd as [|? ? Ha Hnd1]; subst.
  inversion Hnd1 as [|? ? Hb Hnd2]; subst.
  inversion Hnd2 as [|? ? Hc Hnd3]; subst.
  inversion Hnd3 as [|? ? Hd _]; subst.
  simpl in Ha, Hb, Hc, Hd. intuition congruence.
Qed.

(** Reads the five groups of a store whose shape is known. *)
Ltac read_groups Hm Hh Hnd :=
  destruct (NoDup5 _ _ _ _ _ Hnd) as (? & ? & ? & ? & ? & ? & ? & ? & ? & ?);
  unfold internal_state, all_empty, get_requests, get_performance, get_errors,
    get_database, get_security, read_requests, read_performance, read_errors,
    read_database, read_security;
  rewrite Hm, Hh; simpl;
  repeat (rewrite ?lookup_insert_eq; rewrite ?lookup_insert_ne by congruence);
  reflexivity.

Lemma reset_reads_empty s : internal_state (resetMetrics s) = all_empty.
Proof.
  destruct (reset_shape s) as (l0 & l1 & l2 & l3 & l4 & Hm & Hh & Hnd & _).
  read_groups Hm Hh Hnd.
Qed.


(** The aggregator's view depends on the heap only at the five
    references of [metrics]. *)
Lemma internal_state_ext s1 s2 :
  metrics s1 = metrics s2 ->
  (∀ g, heap s1 !! ref_of g (metrics s2) = heap s2 !! ref_of g (metrics s2)) ->
  internal_state s1 = internal_state s2.
Proof.
  intros Hm Hh.
  unfold internal_state, get_requests, get_performance, get_errors,
    get_database, get_security, read_requests, read_performance, read_errors,
    read_database, read_security.
  rewrite Hm.
  pose proof (Hh GRequests) as E1. pose proof (Hh GPerformance) as E2.
  pose proof (Hh GErrors) as E3. pose proof (Hh GDatabase) as E4.
  pose proof (Hh GSecurity) as E5. simpl in E1, E2, E3, E4, E5.
  rewrite E1, E2, E3, E4, E5. reflexivity.
Qed.

Lemma ref_of_assign g g' l (m : Metrics) :
  ref_of g' (assign g l m) = l ∨ ref_of g' (assign g l m) = ref_of g' m.
Proof. destruct g, g'; simpl; auto. Qed.

(** Mutations through a value whose references all differ from the
    groups of [s0] leave those groups as they are. *)
Lemma stale_mutations (s0 : store (num:=num)) mus :
  ∀ snap s,
    List.Forall (stale s0) mus ->
    (∀ g g', ref_of g (spread snap) ≠ ref_of g' (metrics s0)) ->
    metrics s = metrics s0 ->
    (∀ g, heap s !! ref_of g (metrics s0) = heap s0 !! ref_of g (metrics s0)) ->
    internal_state (mutate_all mus (snap, s)).2 = internal_state s0.
Proof.
  induction mus as [|mu mus IH]; intros snap s Hst Hrefs Hm Hh.
  - simpl. apply internal_state_ext; assumption.
  - inversion Hst as [|? ? Hmu Hrest]; subst.
    unfold mutate_all. simpl fold_left. fold (mutate_all mus).
    destruct mu as [g l|g o]; simpl mutate.
    + apply IH; try assumption.
      intros g1 g2. simpl.
      destruct (ref_of_assign g g1 l (spread snap)) as [-> | ->].
      * apply Hmu.
      * apply Hrefs.
    + apply IH; try assumption.
      intros g1. unfold write. simpl.
      rewrite lookup_insert_ne; [apply Hh|apply Hrefs].
Qed.

(** X2.  A reset detaches every snapshot taken before it: whatever the
    holder of such a snapshot writes into the groups it reaches, or binds
    to the properties of its value, the aggregator keeps reading the
    empty counters of the reset. *)
Theorem reset_detaches_snapshots (proc : Process num) s
    (mus : list (mutation (num:=num))) :
  allocated s ->
  List.Forall (stale (resetMetrics s)) mus ->
  internal_state (mutate_all mus (getMetrics proc s, resetMetrics s)).2 = all_empty.
Proof.
  intros Halloc Hst.
  rewrite <- (reset_reads_empty s).
  apply stale_mutations; try assumption; try reflexivity.
  intros g g'. change (spread (getMetrics proc s)) with (metrics s).
  destruct (reset_shape s) as (l0 & l1 & l2 & l3 & l4 & Hm & _ & _ & Hfresh).
  rewrite Hm. intros E. destruct (Halloc g) as [o Ho].
  rewrite E, Hfresh in Ho; [discriminate|].
  destruct g'; simpl; auto 6.
Qed.

End Reset.

(** ** One group does not disturb another *)

Section Frames.

Context {num : Type} `{JsNumber num}.
Implicit Types (s : store (num:=num)).

Lemma heap_write_other l l' (o : object (num:=num)) s :
  l' ≠ l -> heap (write l o s) !! l' = heap s !! l'.
Proof. intros Hne. unfold write. simpl. by rewrite lookup_insert_ne. Qed.

Lemma distinct_groups_refs s g g' :
  distinct_groups s -> g ≠ g' -> ref_of g (metrics s) ≠ ref_of g' (metrics s).
Proof.
  intros Hd Hg. apply NoDup5 in Hd.
  destruct Hd as (? & ? & ? & ? & ? & ? & ? & ? & ? & ?).
  destruct g, g'; simpl; congruence.
Qed.

Lemma get_other_groups s s' :
  metrics s' = metrics s ->
  (∀ g, heap s' !! ref_of g (metrics s) = heap s !! ref_of g (metrics s)
        ∨ g = GRequests ∨ g = GPerformance) ->
  get_errors s' = get_errors s
  ∧ get_database s' = get_database s
  ∧ get_security s' = get_security s.
Proof.
  intros Hm Hh.
  unfold get_errors, get_database, get_security, read_errors, read_database,
    read_security. rewrite Hm.
  destruct (Hh GErrors) as [E1|[|]]; try discriminate.
  destruct (Hh GDatabase) as [E2|[|]]; try discriminate.
  destruct (Hh GSecurity) as [E3|[|]]; try discriminate.
  simpl in E1, E2, E3. rewrite E1, E2, E3. auto.
Qed.

(** One request served, in full. *)
Lemma handle_full (x : Exchange (num:=num)) s r p :
  get_requests s = Some r ->
  get_performance s = Some p ->
  requests (metrics s) ≠ performance (metrics s) ->
  ∃ s',
    handle x s = Some s'
    ∧ metrics s' = metrics s
    ∧ get_requests s'
      = Some {| total := nadd (total r) (n_of_Z 1);
                byMethod := bump (method (exchange_req x)) (byMethod r);
                byStatus := bump (statusCode x) (byStatus r);
                byEndpoint := bump (endpoint_of (exchange_req x)) (byEndpoint r) |}
    ∧ (∃ avg,
         get_performance s'
         = Some (if slow_request x
                 then {| averageResponseTime := avg;
                         slowRequests := nadd (slowRequests p) (n_of_Z 1);
                         fastRequests := fastRequests p |}
                 else {| averageResponseTime := avg;
                         slowRequests := slowRequests p;
                         fastRequests := nadd (fastRequests p) (n_of_Z 1) |}))
    ∧ (∀ l, l ≠ requests (metrics s) -> l ≠ performance (metrics s) ->
            heap s' !! l = heap s !! l).
Proof.
  intros Hr Hp Hne.
  unfold handle, metricsCollector. rewrite Hr. simpl.
  unfold metricsCollector_finish.
  rewrite MonitoringFacts.get_requests_set_requests. simpl.
  unfold updatePerformanceMetrics.
  rewrite !MonitoringFacts.get_performance_set_requests by assumption.
  rewrite Hp, MonitoringFacts.get_requests_set_requests. simpl.
  eexists. split; [reflexivity|]. split; [reflexivity|].
  rewrite MonitoringFacts.get_performance_set_performance.
  rewrite MonitoringFacts.get_requests_set_performance by assumption.
  rewrite MonitoringFacts.get_requests_set_requests.
  split; [reflexivity|]. split.
  - eexists. unfold slow_request.
    destruct (ngt (responseTime x) (n_of_Z 1000)); reflexivity.
  - intros l Hl1 Hl2. unfold set_performance, set_requests.
    rewrite !heap_write_other; auto.
Qed.

(** X3.  The groups are independent.  When the five groups are five
    different objects, recording a database operation changes nothing a
    reader sees in the request, performance, error and security groups;
    serving a request changes nothing in the error, database and security
    groups; and handling an error changes nothing in the request,
    performance, database and security groups. *)
Theorem groups_are_independent s :
  distinct_groups s ->
  (∀ operation duration s',
     recordDatabaseOperation operation duration s = Some s' ->
     get_requests s' = get_requests s ∧ get_performance s' = get_performance s
     ∧ get_errors s' = get_errors s ∧ get_security s' = get_security s)
  ∧ (∀ x s',
       handle x s = Some s' ->
       get_errors s' = get_errors s ∧ get_database s' = get_database s
       ∧ get_security s' = get_security s)
  ∧ (∀ error req new_Date Date_now s',
       errorMetrics error req new_Date Date_now s = Some s' ->
       get_requests s' = get_requests s ∧ get_performance s' = get_performance s
       ∧ get_database s' = get_database s ∧ get_security s' = get_security s).
Proof.
  intros Hd. split; [|split].
  - intros operation duration s' Hrec.
    unfold recordDatabaseOperation in Hrec.
    destruct (get_database s) as [d|]; [|discriminate]. simpl in Hrec.
    injection Hrec as <-. unfold set_database.
    unfold get_requests, get_performance, get_errors, get_security,
      read_requests, read_performance, read_errors, read_security.
    rewrite MonitoringFacts.metrics_write.
    rewrite !heap_write_other.
    + auto.
    + apply (distinct_groups_refs s GSecurity GDatabase Hd); discriminate.
    + apply (distinct_groups_refs s GErrors GDatabase Hd); discriminate.
    + apply (distinct_groups_refs s GPerformance GDatabase Hd); discriminate.
    + apply (distinct_groups_refs s GRequests GDatabase Hd); discriminate.
  - intros x s' Hh.
    assert (Hne : requests (metrics s) ≠ performance (metrics s))
      by (apply (distinct_groups_refs s GRequests GPerformance Hd); discriminate).
    destruct (get_requests s) as [r|] eqn:Hr.
    2:{ unfold handle, metricsCollector in Hh. rewrite Hr in Hh. discriminate Hh. }
    destruct (get_performance s) as [p|] eqn:Hp.
    2:{ unfold handle, metricsCollector in Hh. rewrite Hr in Hh. simpl in Hh.
        unfold metricsCollector_finish in Hh.
        rewrite MonitoringFacts.get_requests_set_requests in Hh. simpl in Hh.
        unfold updatePerformanceMetrics in Hh.
        rewrite !MonitoringFacts.get_performance_set_requests in Hh by assumption.
        rewrite Hp in Hh. discriminate Hh. }
    destruct (handle_full x s r p Hr Hp Hne) as (s'' & Hh' & Hm & _ & _ & Hother).
    rewrite Hh in Hh'. injection Hh' as <-.
    apply get_other_groups; [exact Hm|].
    intros g. destruct g; auto; left; apply Hother;
      first [apply (distinct_groups_refs s _ GRequests Hd); discriminate
            |apply (distinct_groups_refs s _ GPerformance Hd); discriminate].
  - intros error req new_Date Date_now s' Herr.
    unfold errorMetrics in Herr.
    destruct (get_errors s) as [e|]; [|discriminate]. simpl in Herr.
    injection Herr as <-. unfold set_errors.
    unfold get_requests, get_performance, get_database, get_security,
      read_requests, read_performance, read_database, read_security.
    rewrite MonitoringFacts.metrics_write.
    rewrite !heap_write_other.
    + auto.
    + apply (distinct_groups_refs s GSecurity GErrors Hd); discriminate.
    + apply (distinct_groups_refs s GDatabase GErrors Hd); discriminate.
    + apply (distinct_groups_refs s GPerformance GErrors Hd); discriminate.
    + apply (distinct_groups_refs s GRequests GErrors Hd); discriminate.
Qed.

End Frames.

(** ** Counters after a run, in exact arithmetic *)

Section ExactRuns.

Local Open Scope Qc_scope.

Lemma count_if_snoc {A} (test : A -> bool) (l : list A) (x : A) :
  count_if test (l ++ [x]) = (count_if test l + (if test x then 1 else 0))%Z.
Proof.
  unfold count_if. rewrite List.filter_app, length_app. simpl.
  destruct (test x); simpl; lia.
Qed.

Lemma count_if_nonneg {A} (test : A -> bool) (l : list A) : (0 <= count_if test l)%Z.
Proof. unfold count_if. lia. Qed.

Lemma count_if_split {A} (test : A -> bool) (l : list A) :
  (count_if test l + count_if (fun x => negb (test x)) l = Z.of_nat (length l))%Z.
Proof.
  unfold count_if. induction l as [|a l IH]; simpl; [reflexivity|].
  destruct (test a); simpl; lia.
Qed.

Lemma exact_truthy (k : Z) : (0 < k)%Z -> Exact.truthy (Exact.of_Z k) = true.
Proof.
  intros Hk. unfold Exact.truthy.
  destruct (Qc_eq_bool (Exact.of_Z k) 0) eqn:E; [|reflexivity].
  apply Qc_eq_bool_correct in E.
  destruct (MonitoringFacts.exact_of_Z_pos k Hk E).
Qed.

Lemma or_zero_counted (k : Z) :
  (0 <= k)%Z -> or_zero (counted (num:=Qc) k) = Exact.of_Z k.
Proof.
  intros Hk. unfold counted, or_zero.
  destruct (Z.eqb_spec k 0) as [->|Hne]; [reflexivity|].
  simpl. rewrite exact_truthy by lia. reflexivity.
Qed.

Lemma exact_of_Z_succ (k : Z) : Exact.of_Z k + Exact.of_Z 1 = Exact.of_Z (k + 1).
Proof. rewrite MonitoringFacts.exact_of_Z_add. reflexivity. Qed.

Lemma exact_of_Z_length {A} (l : list A) (x : A) :
  Exact.of_Z (Z.of_nat (length l)) + Exact.of_Z 1
  = Exact.of_Z (Z.of_nat (length (l ++ [x]))).
Proof.
  rewrite exact_of_Z_succ, length_app. simpl. f_equal. lia.
Qed.

(** A counter of a map is bumped by the values that carry its key. *)
Lemma bump_counts {K} `{Countable K} (eqb : K -> K -> bool) {A} (key : A -> K)
    (pre : list A) (x : A) (m : gmap K Qc) :
  (∀ a b, eqb a b = true ↔ a = b) ->
  (∀ k, m !! k = counted (count_if (fun y => eqb (key y) k) pre)) ->
  ∀ k, bump (key x) m !! k
       = counted (count_if (fun y => eqb (key y) k) (pre ++ [x])).
Proof.
  intros Heqb Hm k. unfold bump. rewrite count_if_snoc.
  destruct (decide (key x = k)) as [<-|Hne].
  - rewrite lookup_insert_eq, Hm, or_zero_counted by apply count_if_nonneg.
    replace (eqb (key x) (key x)) with true by (symmetry; apply Heqb; reflexivity).
    pose proof (count_if_nonneg (fun y => eqb (key y) (key x)) pre) as Hc.
    unfold counted.
    destruct (Z.eqb_spec (count_if (fun y => eqb (key y) (key x)) pre + 1) 0)
      as [E|_]; [lia|].
    f_equal. simpl. apply exact_of_Z_succ.
  - rewrite lookup_insert_ne by exact Hne. rewrite Hm.
    destruct (eqb (key x) k) eqn:E.
    + apply Heqb in E. contradiction.
    + rewrite Z.add_0_r. reflexivity.
Qed.

Lemma string_eqb_iff (a b : string) : String.eqb a b = true ↔ a = b.
Proof. apply String.eqb_eq. Qed.

(** One more request keeps the counters in step with the requests
    served. *)
Lemma counts_requests_step (pre : list (Exchange (num:=Qc))) x r p avg :
  counts_requests pre r p ->
  counts_requests (pre ++ [x])
    {| total := total r + Exact.of_Z 1;
       byMethod := bump (method (exchange_req x)) (byMethod r);
       byStatus := bump (statusCode x) (byStatus r);
       byEndpoint := bump (endpoint_of (exchange_req x)) (byEndpoint r) |}
    (if slow_request x
     then {| averageResponseTime := avg;
             slowRequests := slowRequests p + Exact.of_Z 1;
             fastRequests := fastRequests p |}
     else {| averageResponseTime := avg;
             slowRequests := slowRequests p;
             fastRequests := fastRequests p + Exact.of_Z 1 |}).
Proof.
  intros (Ht & Hs & Hf & Hm & Hc & He).
  unfold counts_requests. simpl total. simpl byMethod. simpl byStatus.
  simpl byEndpoint.
  split; [rewrite Ht; apply exact_of_Z_length|].
  rewrite !count_if_snoc.
  split; [|split].
  - destruct (slow_request x); simpl.
    + rewrite Hs. apply exact_of_Z_succ.
    + rewrite Hs, Z.add_0_r. reflexivity.
  - destruct (slow_request x); simpl.
    + rewrite Hf, Z.add_0_r. reflexivity.
    + rewrite Hf. apply exact_of_Z_succ.
  - split; [|split].
    + intros m.
      apply (bump_counts String.eqb (fun y => method (exchange_req y)) pre x
               (byMethod r) string_eqb_iff Hm).
    + intros c.
      apply (bump_counts Z.eqb (fun y => statusCode y) pre x (byStatus r)
               Z.eqb_eq Hc).
    + intros e.
      apply (bump_counts String.eqb (fun y => endpoint_of (exchange_req y)) pre x
               (byEndpoint r) string_eqb_iff He).
Qed.

Lemma serve_counts (xs : list (Exchange (num:=Qc))) :
  ∀ pre (s : store (num:=Qc)) r p,
    get_requests s = Some r ->
    get_performance s = Some p ->
    requests (metrics s) ≠ performance (metrics s) ->
    counts_requests pre r p ->
    ∃ s' r' p',
      serve xs s = Some s'
      ∧ get_requests s' = Some r'
      ∧ get_performance s' = Some p'
      ∧ counts_requests (pre ++ xs) r' p'.
Proof.
  induction xs as [|x xs IH]; intros pre s r p Hr Hp Hne Hinv.
  - exists s, r, p. rewrite app_nil_r. auto.
  - destruct (handle_full x s r p Hr Hp Hne)
      as (s1 & Hh & Hm & Hr1 & [avg Hp1] & _).
    assert (Hne1 : requests (metrics s1) ≠ performance (metrics s1))
      by (rewrite Hm; exact Hne).
    destruct (IH (pre ++ [x]) s1 _ _ Hr1 Hp1 Hne1
                (counts_requests_step pre x r p avg Hinv))
      as (s' & r' & p' & Hs & Hr' & Hp' & Hinv').
    exists s', r', p'. simpl serve. rewrite Hh. simpl.
    rewrite <- app_assoc in Hinv'. auto.
Qed.

Lemma counts_requests_initial :
  counts_requests (num:=Qc) [] empty_requests empty_performance.
Proof.
  unfold counts_requests. simpl. repeat split; intros; apply lookup_empty.
Qed.

Lemma initial_store_groups :
  get_requests (num:=Qc) initial_store = Some empty_requests
  ∧ get_performance (num:=Qc) initial_store = Some empty_performance
  ∧ get_errors (num:=Qc) initial_store = Some empty_errors
  ∧ get_database (num:=Qc) initial_store = Some empty_database.
Proof. repeat split. Qed.

(** X4.  In exact arithmetic, after the requests [xs] have been served one
    after the other from the initial state, the total is their number,
    [slowRequests] is the number of those that took more than 1000 ms and
    [fastRequests] the number of the others: every request is counted in
    exactly one of the two, so slow + fast = total. *)
Theorem slow_and_fast_partition_the_requests (xs : list (Exchange (num:=Qc))) :
  ∃ s' r p,
    serve xs initial_store = Some s'
    ∧ get_requests s' = Some r
    ∧ get_performance s' = Some p
    ∧ total r = Exact.of_Z (Z.of_nat (length xs))
    ∧ slowRequests p = Exact.of_Z (count_if slow_request xs)
    ∧ fastRequests p = Exact.of_Z (count_if (fun x => negb (slow_request x)) xs)
    ∧ slowRequests p + fastRequests p = total r.
Proof.
  destruct initial_store_groups as (Hr & Hp & _ & _).
  destruct (serve_counts xs [] initial_store _ _ Hr Hp ltac:(discriminate)
              counts_requests_initial)
    as (s' & r & p & Hs & Hr' & Hp' & Ht & Hsl & Hf & _).
  simpl app in *. exists s', r, p.
  repeat (split; [assumption|]).
  rewrite Hsl, Hf, Ht, <- MonitoringFacts.exact_of_Z_add.
  f_equal. apply count_if_split.
Qed.

(** X5.  In exact arithmetic, after the requests [xs] have been served one
    after the other from the initial state, [byMethod], [byStatus] and
    [byEndpoint] hold, for every method, status code and endpoint, the
    number of requests that carried it, and no entry for one that no
    request carried.  A request is counted under its route's path when a
    route matched and under its own path otherwise. *)
Theorem request_counters_count_by_key (xs : list (Exchange (num:=Qc))) :
  ∃ s' r,
    serve xs initial_store = Some s'
    ∧ get_requests s' = Some r
    ∧ (∀ m, byMethod r !! m
            = counted (count_if (fun x => String.eqb (method (exchange_req x)) m) xs))
    ∧ (∀ c, byStatus r !! c = counted (count_if (fun x => statusCode x =? c)%Z xs))
    ∧ (∀ e, byEndpoint r !! e
            = counted (count_if
                         (fun x => String.eqb (endpoint_of (exchange_req x)) e) xs)).
Proof.
  destruct initial_store_groups as (Hr & Hp & _ & _).
  destruct (serve_counts xs [] initial_store _ _ Hr Hp ltac:(discriminate)
              counts_requests_initial)
    as (s' & r & p & Hs & Hr' & Hp' & _ & _ & _ & Hm & Hc & He).
  simpl app in *. exists s', r. auto.
Qed.

(** *** Database operations *)

Lemma get_database_set_database (d : Database (num:=Qc)) (s : store (num:=Qc)) :
  get_database (set_database d s) = Some d.
Proof.
  unfold get_database, set_database, write, read_database; simpl.
  by rewrite lookup_insert_eq.
Qed.

Lemma sum_snoc (ds : list Qc) (d : Qc) : sum (ds ++ [d]) = sum ds + d.
Proof. unfold sum. rewrite fold_left_app. reflexivity. Qed.

Lemma recordDatabaseOperation_step operation (duration : Qc) (s : store (num:=Qc)) d :
  get_database s = Some d ->
  ∃ s',
    recordDatabaseOperation operation duration s = Some s'
    ∧ get_database s'
      = Some {| queries := queries d + Exact.of_Z 1;
                averageQueryTime :=
                  (averageQueryTime d * (queries d + Exact.of_Z 1 - Exact.of_Z 1)
                   + duration) / (queries d + Exact.of_Z 1);
                slowQueries := if slow_query (operation, duration)
                               then slowQueries d + Exact.of_Z 1
                               else slowQueries d |}.
Proof.
  intros Hd. unfold recordDatabaseOperation. rewrite Hd. simpl.
  eexists. split; [reflexivity|].
  rewrite get_database_set_database. reflexivity.
Qed.

Lemma record_all_counts (ops : list (string * Qc)) :
  ∀ pre (s : store (num:=Qc)) d,
    get_database s = Some d ->
    counts_queries pre d ->
    ∃ s' d',
      record_all ops s = Some s'
      ∧ get_database s' = Some d'
      ∧ counts_queries (pre ++ ops) d'.
Proof.
  induction ops as [|[operation duration] ops IH]; intros pre s d Hd Hinv.
  - exists s, d. rewrite app_nil_r. auto.
  - destruct (recordDatabaseOperation_step operation duration s d Hd)
      as (s1 & Hs1 & Hd1).
    destruct Hinv as (Hq & Havg & Hslow).
    simpl in Hq, Havg, Hslow.
    destruct (IH (pre ++ [(operation, duration)]) s1 _ Hd1)
      as (s' & d' & Hs & Hd' & Hinv').
    { unfold counts_queries. simpl queries. simpl averageQueryTime.
      simpl slowQueries. simpl n_of_Z. simpl nmul.
      split; [rewrite Hq; apply exact_of_Z_length|]. split.
      - rewrite map_app. simpl map. rewrite sum_snoc, <- Havg.
        rewrite <- (exact_of_Z_length pre (operation, duration)), <- Hq.
        assert (Hnz : queries d + Exact.of_Z 1 ≠ 0).
        { rewrite Hq, exact_of_Z_succ. apply MonitoringFacts.exact_of_Z_pos. lia. }
        change (Exact.of_Z 1) with 1 in *. field. exact Hnz.
      - rewrite count_if_snoc. unfold slow_query at 2. simpl.
        destruct (Exact.gt duration (Exact.of_Z 500)).
        + rewrite Hslow. apply exact_of_Z_succ.
        + rewrite Hslow, Z.add_0_r. reflexivity. }
    exists s', d'. simpl record_all. rewrite Hs1. simpl.
    rewrite <- app_assoc in Hinv'. auto.
Qed.

(** X6.  In exact arithmetic, after N >= 1 database operations have been
    recorded from the initial state, [queries] is N, [averageQueryTime] is
    the arithmetic mean of the N durations, and [slowQueries] is the number
    of operations that took more than 500 ms. *)
Theorem database_average_is_mean_exact (op : string * Qc) (ops : list (string * Qc)) :
  ∃ s' d,
    record_all (op :: ops) initial_store = Some s'
    ∧ get_database s' = Some d
    ∧ queries d = Exact.of_Z (Z.of_nat (length (op :: ops)))
    ∧ averageQueryTime d = mean (map snd (op :: ops))
    ∧ slowQueries d = Exact.of_Z (count_if slow_query (op :: ops)).
Proof.
  destruct initial_store_groups as (_ & _ & _ & Hd).
  destruct (record_all_counts (op :: ops) [] initial_store _ Hd)
    as (s' & d & Hs & Hd' & Hq & Havg & Hslow).
  { unfold counts_queries. simpl. repeat split. }
  simpl app in *. exists s', d.
  repeat (split; [assumption|]). split; [|exact Hslow].
  unfold mean. rewrite length_map.
  apply MonitoringFacts.quotient_of_product; [|exact Havg].
  apply MonitoringFacts.exact_of_Z_pos. simpl length. lia.
Qed.

(** *** Errors *)

Lemma younger_than_app c l1 l2 :
  younger_than c (l1 ++ l2) = younger_than c l1 ++ younger_than c l2.
Proof. apply List.filter_app. Qed.

Lemma younger_than_twice c c' l :
  (c' <= c)%Z -> younger_than c (younger_than c' l) = younger_than c l.
Proof.
  intros Hc. unfold younger_than. induction l as [|a l IH]; simpl; [reflexivity|].
  destruct (Z.ltb_spec c' (timestamp a)); simpl.
  - rewrite IH. reflexivity.
  - rewrite IH. destruct (Z.ltb_spec c (timestamp a)); [lia|reflexivity].
Qed.

Lemma errorMetrics_step (f : Failure) (s : store (num:=Qc)) e :
  get_errors s = Some e ->
  ∃ s',
    errorMetrics (failure_error f) (failure_req f) (failure_new_Date f)
      (failure_Date_now f) s = Some s'
    ∧ get_errors s'
      = Some {| errors_total := errors_total e + Exact.of_Z 1;
                byType := bump (type (entry_of f)) (byType e);
                last24h := younger_than (cutoff f) (last24h e ++ [entry_of f]) |}.
Proof.
  intros He. unfold errorMetrics. rewrite He. simpl.
  eexists. split; [reflexivity|].
  rewrite MonitoringFacts.get_errors_set_errors. reflexivity.
Qed.

Lemma fail_all_counts (fs : list Failure) :
  ∀ pre (s : store (num:=Qc)) e c,
    get_errors s = Some e ->
    counts_errors pre e ->
    (∀ f, In f fs -> (cutoff f <= c)%Z) ->
    ∃ s' e',
      fail_all fs s = Some s'
      ∧ get_errors s' = Some e'
      ∧ counts_errors (pre ++ fs) e'
      ∧ younger_than c (last24h e') = younger_than c (last24h e ++ map entry_of fs).
Proof.
  induction fs as [|f fs IH]; intros pre s e c He Hinv Hc.
  - exists s, e. simpl. rewrite !app_nil_r. auto.
  - destruct (errorMetrics_step f s e He) as (s1 & Hs1 & He1).
    destruct Hinv as (Ht & Hty).
    edestruct (IH (pre ++ [f]) s1) as (s' & e' & Hs & He' & Hinv' & Hh).
    { exact He1. }
    { unfold counts_errors. simpl errors_total. simpl byType.
      split; [rewrite Ht; apply exact_of_Z_length|].
      intros t.
      apply (bump_counts String.eqb (fun y => type (entry_of y)) pre f
               (byType e) string_eqb_iff Hty). }
    { intros f' Hf'. apply Hc. right. exact Hf'. }
    exists s', e'. simpl fail_all. rewrite Hs1. simpl.
    rewrite <- app_assoc in Hinv'.
    split; [exact Hs|]. split; [exact He'|]. split; [exact Hinv'|].
    rewrite Hh. simpl last24h. simpl map.
    rewrite (younger_than_app c (younger_than (cutoff f) (last24h e ++ [entry_of f]))).
    rewrite younger_than_twice by (apply Hc; left; reflexivity).
    rewrite <- younger_than_app, <- app_assoc. reflexivity.
Qed.

Lemma fail_all_app (fs1 fs2 : list Failure) (s : store (num:=Qc)) :
  fail_all (fs1 ++ fs2) s
  = match fail_all fs1 s with Some s' => fail_all fs2 s' | None => None end.
Proof.
  revert s. induction fs1 as [|f fs1 IH]; intros s; simpl; [reflexivity|].
  destruct (errorMetrics _ _ _ _ s) as [s1|]; simpl; [apply IH|reflexivity].
Qed.

(** X7.  The error history after a run, in exact arithmetic.  When the
    failures [fs] and then [f] have been handled from the initial state,
    and no earlier failure was pruned at a later clock reading than [f]
    is, [errors.total] counts all of them, pruned or not, [byType] holds
    for every type the number of failures of that type (a failure without a
    name counts as 'UnknownError'), and [last24h] holds, in the order of
    arrival, exactly the entries whose timestamp is later than 24 hours
    before the clock reading taken while [f] was handled. *)
Theorem error_history_after_a_run (fs : list Failure) (f : Failure) :
  (∀ f', In f' fs -> (failure_Date_now f' <= failure_Date_now f)%Z) ->
  ∃ s' e,
    fail_all (fs ++ [f]) initial_store = Some s'
    ∧ get_errors s' = Some e
    ∧ errors_total e = Exact.of_Z (Z.of_nat (length (fs ++ [f])))
    ∧ (∀ t, byType e !! t
            = counted (count_if (fun f' => String.eqb (type (entry_of f')) t)
                         (fs ++ [f])))
    ∧ last24h e
      = List.filter (fun err => (failure_Date_now f - 24 * 60 * 60 * 1000
                                 <? timestamp err)%Z)
          (map entry_of (fs ++ [f])).
Proof.
  intros Hclock.
  destruct initial_store_groups as (_ & _ & He & _).
  destruct (fail_all_counts fs [] initial_store _ (cutoff f) He)
    as (s1 & e1 & Hs1 & He1 & Hinv1 & Hh1).
  { unfold counts_errors. simpl. split; [reflexivity|]. intros t. apply lookup_empty. }
  { intros f' Hf'. unfold cutoff. specialize (Hclock f' Hf'). lia. }
  destruct (fail_all_counts [f] fs s1 e1 (cutoff f) He1 Hinv1)
    as (s' & e & Hs & He' & [Ht Hty] & _).
  { intros f' [<-|[]]. lia. }
  exists s', e. rewrite fail_all_app, Hs1.
  split; [exact Hs|]. split; [exact He'|]. split; [exact Ht|]. split; [exact Hty|].
  simpl fail_all in Hs.
  destruct (errorMetrics_step f s1 e1 He1) as (s2 & Hs2 & He2).
  rewrite Hs2 in Hs. simpl in Hs. injection Hs as <-.
  rewrite He2 in He'. injection He' as <-. simpl last24h.
  change (younger_than (cutoff f) (last24h e1 ++ [entry_of f])
          = younger_than (cutoff f) (map entry_of (fs ++ [f]))).
  rewrite map_app, !younger_than_app, Hh1. reflexivity.
Qed.

End ExactRuns.

Section Instances.

Lemma initial_store_distinct : distinct_groups (num:=float) initial_store.
Proof.
  unfold distinct_groups. simpl.
  repeat constructor; simpl; intros Hin;
    repeat (destruct Hin as [Hin|Hin]; [discriminate Hin|]); exact Hin.
Defined.

(** A stale snapshot of the initial state, written into after a reset. *)
Lemma reset_detaches_snapshots_witness :
  internal_state
    (mutate_all [MutateGroup GRequests (ORequests tampered_requests)]
       (getMetrics a_process initial_store, resetMetrics initial_store)).2
  = all_empty.
Proof.
  apply (reset_detaches_snapshots a_process initial_store).
  - intros g. destruct g; eexists; reflexivity.
  - repeat constructor.
Defined.

(** A database operation recorded in the initial state. *)
Lemma groups_are_independent_witness :
  ∃ s', recordDatabaseOperation "findMany" 120%float initial_store = Some s'
        ∧ get_requests s' = get_requests initial_store
        ∧ get_performance s' = get_performance initial_store.
Proof.
  destruct (groups_are_independent (num:=float) initial_store initial_store_distinct)
    as (Hdb & _ & _).
  eexists. split; [reflexivity|].
  destruct (Hdb "findMany"%string 120%float _ eq_refl) as (Hr & Hp & _).
  split; [exact Hr|exact Hp].
Defined.

(** The early failure is pruned while the late one is handled; both are
    counted. *)
Lemma error_history_after_a_run_witness :
  ∃ s' e,
    fail_all [early_failure; late_failure] initial_store = Some s'
    ∧ get_errors s' = Some e
    ∧ errors_total e = Exact.of_Z 2
    ∧ last24h e = [entry_of late_failure].
Proof.
  destruct (error_history_after_a_run [early_failure] late_failure)
    as (s' & e & Hs & He & Ht & _ & Hl).
  { intros f' [<-|[]]. simpl. lia. }
  exists s', e. split; [exact Hs|]. split; [exact He|].
  split; [exact Ht|]. rewrite Hl. reflexivity.
Defined.

End Instances.

End AggregatorRunFacts.

(** * More on the two stores *)

Module StoreFacts.
Import Examples Statements StoreStatements.

Section Json.
Import JsonDatabase.

Context {RT : JsBuiltins}.

(** [update_first] splits the list at the first element that passes the
    test. *)
Lemma update_first_spec (test : Prato -> bool) (f : Prato -> Prato) l :
  match update_first test f l with
  | None => List.find test l = None
  | Some (q, l') =>
      ∃ l1 p l2, l = l1 ++ p :: l2 ∧ List.find test l1 = None ∧ test p = true
                 ∧ q = f p ∧ l' = l1 ++ f p :: l2
  end.
Proof.
  induction l as [|a l IH]; simpl; [reflexivity|].
  destruct (test a) eqn:E.
  - exists [], a, l. auto.
  - destruct (update_first test f l) as [[q l']|].
    + destruct IH as (l1 & p & l2 & -> & Hnone & Hp & -> & ->).
      exists (a :: l1), p, l2. simpl. rewrite E. auto.
    + exact IH.
Qed.

Lemma is_prato_id id p q : id_prato p = id_prato q -> is_prato id p = is_prato id q.
Proof. intros E. unfold is_prato. rewrite E. reflexivity. Qed.

Lemma keeps_identity_shape (id : jsval) (f : Prato -> Prato) (db : files) :
  (∀ p, id_prato (f p) = id_prato p ∧ codigo_prato (f p) = codigo_prato p
        ∧ tipo_item (f p) = tipo_item p) ->
  keeps_identity id db
    (if findIndex_throws id db then (Thrown, db)
     else match update_first (is_prato id) f (pratos_json db) with
          | None => (Returned None, db)
          | Some (p, pratos) =>
              (Returned (Some p),
               {| categorias_json := categorias_json db; pratos_json := pratos |})
          end).
Proof.
  intros Hf. unfold keeps_identity.
  destruct (findIndex_throws id db); [simpl; auto|].
  pose proof (update_first_spec (is_prato id) f (pratos_json db)) as Hspec.
  destruct (update_first (is_prato id) f (pratos_json db)) as [[q l']|];
    [|simpl; auto].
  destruct Hspec as (l1 & p & l2 & Hl & _ & Hp & -> & ->). simpl.
  destruct (Hf p) as (Hid & Hcode & Htipo).
  split; [|split; [reflexivity|split]].
  - rewrite Hl. unfold identity_columns. rewrite !map_app. simpl.
    rewrite Hid, Hcode, Htipo. reflexivity.
  - apply in_or_app. right. left. reflexivity.
  - rewrite (is_prato_id id (f p) p Hid). exact Hp.
Qed.

(** X8.  Neither update of the JSON-file store changes the identifier,
    the code or the item type of any dish, the number and the order of the
    dishes, or the categories.  An update returns a stored dish that has
    the requested identifier; when no dish has it the update returns null,
    and in that case, as when the conversion of the identifier throws, the
    files are left as they were. *)
Theorem json_updates_keep_identity (id : jsval) (d : DadosAtualizacao) (nova : bool)
    (db : files) :
  keeps_identity id db (updatePrato id d db)
  ∧ keeps_identity id db (updateDisponibilidadePrato id nova db).
Proof.
  split.
  - apply (keeps_identity_shape id (aplicar d) db). intros p. auto.
  - apply (keeps_identity_shape id (com_disponivel nova) db). intros p. auto.
Qed.

Lemma update_first_twice (test : Prato -> bool) (f g : Prato -> Prato) l :
  (∀ p, test (f p) = test p) ->
  (∀ p, g (f p) = g p) ->
  update_first test g
    (match update_first test f l with Some (_, l') => l' | None => l end)
  = update_first test g l.
Proof.
  intros Hf Hg. induction l as [|a l IH]; simpl; [reflexivity|].
  destruct (test a) eqn:E.
  - simpl. rewrite Hf, E, Hg. reflexivity.
  - destruct (update_first test f l) as [[q l']|] eqn:Eu.
    + simpl. rewrite E, IH. reflexivity.
    + simpl. rewrite E. reflexivity.
Qed.

Lemma update_first_none (test : Prato -> bool) (f g : Prato -> Prato) l :
  update_first test g l = None -> update_first test f l = None.
Proof.
  induction l as [|a l IH]; simpl; [reflexivity|].
  destruct (test a); [discriminate|].
  destruct (update_first test g l) as [[q l']|]; [discriminate|].
  intros _. rewrite IH; reflexivity.
Qed.

(** X9.  Setting the availability flag twice is setting it to the last
    value: the second call returns what it would have returned without
    the first, and leaves the same files. *)
Theorem json_toggle_last_write_wins (id : jsval) (b1 b2 : bool) (db : files) :
  updateDisponibilidadePrato id b2 (snd (updateDisponibilidadePrato id b1 db))
  = updateDisponibilidadePrato id b2 db.
Proof.
  unfold updateDisponibilidadePrato, findIndex_throws.
  destruct (ToString_throws id) eqn:Et; simpl andb.
  - destruct (pratos_json db) as [|a l] eqn:El; simpl.
    + rewrite El. reflexivity.
    + rewrite El. reflexivity.
  - pose proof (update_first_twice (is_prato id) (com_disponivel b1)
                  (com_disponivel b2) (pratos_json db)
                  ltac:(intros p; reflexivity) ltac:(intros p; reflexivity)) as Htw.
    fold (com_disponivel b1) (com_disponivel b2).
    destruct (update_first (is_prato id) (com_disponivel b1) (pratos_json db))
      as [[q l']|] eqn:E1; simpl.
    + rewrite Htw.
      destruct (update_first (is_prato id) (com_disponivel b2) (pratos_json db))
        as [[q2 l2]|] eqn:E2; [reflexivity|].
      rewrite (update_first_none _ (com_disponivel b1) _ _ E2) in E1.
      discriminate E1.
    + reflexivity.
Qed.




End Json.

Section Prisma.
Import PrismaDatabase AdminControllerPrisma CardapioControllerPrisma.

Context {RT : JsBuiltins} {DB : Engine}.

Lemma same_identity_refl db : same_identity db db.
Proof. unfold same_identity. auto. Qed.

Lemma identity_columns_update k (f : Prato -> Prato) l :
  (∀ p, id_prato (f p) = id_prato p ∧ codigo_prato (f p) = codigo_prato p
        ∧ tipo_item (f p) = tipo_item p) ->
  identity_columns (map (fun q => if id_prato q =? k then f q else q) l)
  = identity_columns l.
Proof.
  intros Hf. unfold identity_columns. rewrite map_map. apply map_ext.
  intros q. destruct (id_prato q =? k); [|reflexivity].
  destruct (Hf q) as (-> & -> & ->). reflexivity.
Qed.

Lemma update_prato_same_identity k f db :
  (∀ p, id_prato (f p) = id_prato p ∧ codigo_prato (f p) = codigo_prato p
        ∧ tipo_item (f p) = tipo_item p) ->
  same_identity db (snd (update_prato k f db)).
Proof.
  intros Hf. unfold update_prato.
  destruct (List.find _ _) as [p|]; [|apply same_identity_refl].
  destruct (negb (fits_columns (f p))); [apply same_identity_refl|].
  destruct (categoria_of db _); [|apply same_identity_refl].
  unfold same_identity. simpl.
  rewrite (identity_columns_update k f _ Hf). auto.
Qed.

Lemma updatePrato_same_identity id d db :
  same_identity db (snd (updatePrato id d db)).
Proof.
  unfold updatePrato.
  destruct (call_parseInt id) as [n|]; [|apply same_identity_refl].
  destruct (novo_id_categoria d) as [v|].
  - destruct (int_argument v) as [kc|e]; [|apply same_identity_refl].
    destruct (int_argument n) as [k|e]; [|apply same_identity_refl].
    apply update_prato_same_identity. intros p. auto.
  - destruct (int_argument n) as [k|e]; [|apply same_identity_refl].
    apply update_prato_same_identity. intros p. auto.
Qed.

Lemma updateDisponibilidadePrato_same_identity id nova db :
  same_identity db (snd (updateDisponibilidadePrato id nova db)).
Proof.
  unfold updateDisponibilidadePrato.
  destruct (call_parseInt id) as [n|]; [|apply same_identity_refl].
  destruct (int_argument n) as [k|e]; [|apply same_identity_refl].
  apply update_prato_same_identity. intros p. auto.
Qed.

(** X11.  Whatever the request, the two administrative operations that
    change a dish leave the identifier, the code and the item type of every
    stored dish, the number and the order of the rows, the categories and
    the sequence as they were. *)
Theorem prisma_updates_keep_identity (id : string) (body : Body) (db : tables) :
  same_identity db (snd (atualizarPrato id body db))
  ∧ same_identity db (snd (alterarDisponibilidade id body db)).
Proof.
  split.
  - unfold atualizarPrato.
    destruct (getPratoById (JStr id) db) as [[pc|]|e]; try apply same_identity_refl.
    destruct (validar_nome _) as [r|nome]; [apply same_identity_refl|].
    destruct (validar_descricao _) as [r|desc]; [apply same_identity_refl|].
    destruct (validar_preco _) as [r|prec]; [apply same_identity_refl|].
    destruct (validar_categoria _ db) as [r|cat]; [apply same_identity_refl|].
    match goal with
    | |- context [updatePrato ?i ?d db] =>
        pose proof (updatePrato_same_identity i d db) as Hu;
        destruct (updatePrato i d db) as [[pa|e] db']
    end; exact Hu.
  - unfold alterarDisponibilidade.
    destruct (ToString_throws _); [apply same_identity_refl|].
    destruct (is_undefined _ || _); [apply same_identity_refl|].
    destruct (getPratoById (JStr id) db) as [[pc|]|e]; try apply same_identity_refl.
    match goal with
    | |- context [updateDisponibilidadePrato ?i ?b db] =>
        pose proof (updateDisponibilidadePrato_same_identity i b db) as Hu;
        destruct (updateDisponibilidadePrato i b db) as [[pa|e] db']
    end; exact Hu.
Qed.

(** What a toggle answered with 200 did to the store. *)
Lemma toggle_succeeded (id : string) (body : Body) (b : bool) (db db' : tables) r :
  body_disponivel body = JBool b ->
  alterarDisponibilidade id body db = (r, db') ->
  http_status r = 200 ->
  ∃ k p c,
    int_argument (parseInt (JStr id)) = Resolved k
    ∧ List.find (fun q => id_prato q =? k) (pratos_table db) = Some p
    ∧ categoria_of db (prato_id_categoria p) = Some c
    ∧ db' = {| categorias := categorias db;
               pratos_table := com_flag k b (pratos_table db);
               pratos_id_prato_seq := pratos_id_prato_seq db |}
    ∧ r = ComPrato 200
            (if b then "Prato marcado como disponível com sucesso"
             else "Prato marcado como indisponível com sucesso")
            (com_preco_numerico (com_disponivel b p)) (Some (nome_categoria c)).
Proof.
  intros Hb Halt Hst. unfold alterarDisponibilidade in Halt.
  rewrite Hb in Halt. simpl in Halt.
  destruct (getPratoById (JStr id) db) as [[pc|]|e] eqn:Eg;
    try (injection Halt as <- <-; discriminate Hst).
  unfold updateDisponibilidadePrato, call_parseInt in Halt. simpl in Halt.
  destruct (int_argument (parseInt (JStr id))) as [k|e] eqn:Ek;
    [|injection Halt as <- <-; discriminate Hst].
  unfold update_prato in Halt.
  destruct (List.find (fun q => id_prato q =? k) (pratos_table db)) as [p|] eqn:Ef;
    [|injection Halt as <- <-; discriminate Hst].
  simpl in Halt.
  destruct (negb (fits_columns _)); [injection Halt as <- <-; discriminate Hst|].
  destruct (categoria_of db (prato_id_categoria p)) as [c|] eqn:Ec;
    [|injection Halt as <- <-; discriminate Hst].
  injection Halt as <- <-.
  exists k, p, c. split; [reflexivity|]. split; [exact Ef|]. split; [exact Ec|].
  split; [reflexivity|].
  unfold resposta, with_categoria. unfold categoria_of in *. simpl.
  rewrite Ec. reflexivity.
Qed.

(** X12.  The availability operation controls what the public sees.  Once
    it has answered 200 to [{disponivel: b}] for a dish, the public
    dish endpoint answers 404 'Prato indisponível' for that dish when [b]
    is false and shows the dish when [b] is true, while the administrative
    read shows the dish with the new flag in both cases. *)
Theorem toggle_controls_public_visibility (id : string) (body : Body) (b : bool)
    (db db' : tables) (r : Response) :
  body_disponivel body = JBool b ->
  alterarDisponibilidade id body db = (r, db') ->
  http_status r = 200 ->
  getPratoPublico id db'
  = (if b then AdminReadsPrisma.getPratoPorId id db'
     else Falha 404 "Prato indisponível")
  ∧ ∃ p nc, AdminReadsPrisma.getPratoPorId id db' = UmPrato p (Some nc)
            ∧ disponivel p = b
            ∧ In p (map com_preco_numerico (pratos_table db')).
Proof.
  intros Hb Halt Hst.
  destruct (toggle_succeeded id body b db db' r Hb Halt Hst)
    as (k & p & c & Hk & Hfind & Hc & -> & _).
  assert (Hget : getPratoById (JStr id)
                   {| categorias := categorias db;
                      pratos_table := com_flag k b (pratos_table db);
                      pratos_id_prato_seq := pratos_id_prato_seq db |}
                 = Resolved
                     (Some {| prato := com_disponivel b p;
                              prato_categoria := Some c |})).
  { unfold getPratoById, call_parseInt. simpl ToString_throws. cbv iota.
    rewrite Hk. simpl pratos_table. unfold com_flag.
    rewrite (UpdateClaims.find_update (fun q => id_prato q =? k) (com_disponivel b))
      by reflexivity.
    rewrite Hfind. simpl. unfold with_categoria, categoria_of. simpl.
    fold (categoria_of db (prato_id_categoria p)). rewrite Hc. reflexivity. }
  unfold getPratoPublico, AdminReadsPrisma.getPratoPorId. rewrite Hget. simpl.
  split.
  - destruct b; reflexivity.
  - eexists _, _. split; [reflexivity|]. split; [reflexivity|].
    apply in_map. unfold com_flag.
    apply List.find_some in Hfind. destruct Hfind as [Hin Hid].
    apply in_map_iff. exists p. rewrite Hid. auto.
Qed.

(** *** Creating a dish *)

Lemma createPrato_effect (dados : DadosPrato) (db : tables) :
  match createPrato dados db with
  | (Resolved pc, db') =>
      pratos_table db' = pratos_table db ++ [prato pc]
      ∧ id_prato (prato pc) = pratos_id_prato_seq db
      ∧ codigo_prato (prato pc) = codigo_of_id (proximo_id db)
      ∧ categorias db' = categorias db
  | (Rejected _, db') =>
      pratos_table db' = pratos_table db ∧ categorias db' = categorias db
  end.
Proof.
  unfold createPrato. rewrite CreateClaims.proximo_id_code.
  destruct (int_argument (dados_id_categoria dados)) as [k|e]; [|simpl; auto].
  destruct (if truthy (dados_tipo_item dados) then dados_tipo_item dados
            else JStr "Cardápio") as [| | | |t| |]; try (simpl; auto).
  unfold insert_prato.
  destruct (negb (fits_columns _)); [simpl; auto|].
  destruct (existsb (fun p => id_prato p =? pratos_id_prato_seq db) _);
    [simpl; auto|].
  destruct (existsb _ (pratos_table db)); [simpl; auto|].
  destruct (categoria_of db _); simpl; auto.
Qed.

Lemma criarPrato_catch_status e : http_status (criarPrato_catch e) ≠ 201.
Proof.
  destruct e as [target| | | | |]; simpl; try discriminate.
  destruct (existsb _ target); discriminate.
Qed.

(** X13.  Whatever the body, creating a dish stores a row only when the
    answer is 201: with any other status the table of dishes is left as it
    was, and with 201 exactly one row was appended, the dish of the
    response, whose identifier is the one drawn from the sequence and whose
    code is derived from the next sequential identifier.  The categories are
    never changed. *)
Theorem criarPrato_stores_only_on_201 (body : Body) (db : tables) :
  categorias (snd (criarPrato body db)) = categorias db
  ∧ (http_status (fst (criarPrato body db)) ≠ 201 ->
     pratos_table (snd (criarPrato body db)) = pratos_table db)
  ∧ (http_status (fst (criarPrato body db)) = 201 ->
     ∃ p nc,
       fst (criarPrato body db)
       = ComPrato 201 "Prato criado com sucesso" (com_preco_numerico p) nc
       ∧ pratos_table (snd (criarPrato body db)) = pratos_table db ++ [p]
       ∧ id_prato p = pratos_id_prato_seq db
       ∧ codigo_prato p = codigo_of_id (proximo_id db)).
Proof.
  assert (Hskip : ∀ (r : Response),
    http_status r ≠ 201 ->
    categorias (snd (r, db)) = categorias db
    ∧ (http_status (fst (r, db)) ≠ 201 ->
       pratos_table (snd (r, db)) = pratos_table db)
    ∧ (http_status (fst (r, db)) = 201 ->
       ∃ p nc,
         fst (r, db)
         = ComPrato 201 "Prato criado com sucesso" (com_preco_numerico p) nc
         ∧ pratos_table (snd (r, db)) = pratos_table db ++ [p]
         ∧ id_prato p = pratos_id_prato_seq db
         ∧ codigo_prato p = codigo_of_id (proximo_id db))).
  { intros r Hr. simpl. split; [reflexivity|]. split; [reflexivity|].
    intros E. destruct (Hr E). }
  unfold criarPrato.
  destruct (negb (truthy (body_nome_prato body)) || _ || _ || _);
    [apply Hskip; discriminate|].
  destruct (getCategoriaById (body_id_categoria body) db) as [[c|]|e];
    [|apply Hskip; discriminate|apply Hskip, criarPrato_catch_status].
  destruct (call_parseFloat (body_preco body)) as [precoNumerico|];
    [|apply Hskip; discriminate].
  destruct (preco_invalido precoNumerico); [apply Hskip; discriminate|].
  destruct (call_trim (body_nome_prato body)) as [nome|];
    [|apply Hskip; discriminate].
  destruct (call_trim (body_descricao body)) as [desc|];
    [|apply Hskip; discriminate].
  match goal with
  | |- context [createPrato ?d db] =>
      pose proof (createPrato_effect d db) as He;
      destruct (createPrato d db) as [[pc|e] db']
  end.
  - destruct He as (Ht & Hid & Hcode & Hc). simpl.
    split; [exact Hc|]. split; [intros E; destruct (E eq_refl)|].
    intros _. eexists _, _. split; [reflexivity|]. auto.
  - destruct He as (Ht & Hc). simpl.
    split; [exact Hc|]. split; [intros _; exact Ht|].
    intros E. destruct (criarPrato_catch_status e E).
Qed.

(** X14.  When the identifier that the sequence provides already belongs
    to a stored dish, as after prisma/seed.js, which inserts its rows with
    explicit identifiers and leaves the sequence at its start, a
    well-formed create request whose row fits the columns is answered 500:
    the primary key rejects the row, the handler's [catch] only recognises
    a conflict on [codigo_prato], no dish is stored, and the sequence has
    moved on by one. *)
Theorem stale_sequence_blocks_creation (body : Body) (db : tables) (k : Z)
    (c : Categoria) (q : Prato) :
  well_formed body db k c ->
  fits_columns (linha (pratos_id_prato_seq db) body k db) = true ->
  In q (pratos_table db) ->
  id_prato q = pratos_id_prato_seq db ->
  criarPrato body db
  = (Erro 500 "Erro interno do servidor",
     {| categorias := categorias db;
        pratos_table := pratos_table db;
        pratos_id_prato_seq := pratos_id_prato_seq db + 1 |}).
Proof.
  intros Hwf Hfit Hq Hid.
  rewrite (CreateClaims.criarPrato_inserts body db k c Hwf).
  unfold insert_prato. rewrite Hfit. simpl negb. cbv iota.
  rewrite (CreateClaims.existsb_true _ _ q Hq) by (apply Z.eqb_eq; exact Hid).
  reflexivity.
Qed.

(** *** The public menu *)

Lemma fold_left_sum {A} (f : A -> nat) (l : list A) (n : nat) :
  fold_left (fun total g => (total + f g)%nat) l n = (n + list_sum (map f l))%nat.
Proof.
  revert n. induction l as [|a l IH]; intros n; simpl; [lia|].
  rewrite IH. lia.
Qed.

Lemma list_sum_cons (a : nat) (l : list nat) :
  list_sum (a :: l) = (a + list_sum l)%nat.
Proof. reflexivity. Qed.

Lemma list_sum_perm (l l' : list nat) :
  Permutation l l' -> list_sum l = list_sum l'.
Proof. induction 1; simpl; lia. Qed.

(** Under unique identifiers at most one category owns a dish. *)
Lemma one_owner (k : Z) (cats : list Categoria) :
  List.NoDup (map id_categoria cats) ->
  list_sum (map (fun c => if k =? id_categoria c then 1%nat else 0%nat) cats)
  = if existsb (fun c => id_categoria c =? k) cats then 1%nat else 0%nat.
Proof.
  induction cats as [|c cats IH]; intros Hnd; simpl; [reflexivity|].
  inversion Hnd as [|? ? Hnotin Hnd']; subst.
  rewrite (IH Hnd'). rewrite (Z.eqb_sym (id_categoria c) k).
  destruct (Z.eqb_spec k (id_categoria c)) as [->|Hne]; simpl; [|reflexivity].
  destruct (existsb (fun c0 => id_categoria c0 =? id_categoria c) cats) eqn:E;
    [|reflexivity].
  apply existsb_exists in E. destruct E as (c' & Hin & Heq).
  apply Z.eqb_eq in Heq. destruct Hnotin. rewrite <- Heq.
  apply in_map. exact Hin.
Qed.

Lemma available_count (ps : list Prato) (cats : list Categoria) :
  List.NoDup (map id_categoria cats) ->
  list_sum (map (fun c => length (available_of ps c)) cats)
  = length (List.filter
              (fun p => disponivel p
                        && existsb (fun c => id_categoria c =? prato_id_categoria p) cats)
              ps).
Proof.
  intros Hnd. induction ps as [|p ps IH].
  - simpl. clear Hnd. induction cats as [|c cats IHc]; simpl; [reflexivity|].
    exact IHc.
  - assert (Hsplit :
      list_sum (map (fun c => length (available_of (p :: ps) c)) cats)
      = Nat.add
          (list_sum (map (fun c => if prato_id_categoria p =? id_categoria c
                                   then if disponivel p then 1%nat else 0%nat
                                   else 0%nat) cats))
          (list_sum (map (fun c => length (available_of ps c)) cats))).
    { clear. induction cats as [|c cats IHc]; [reflexivity|].
      rewrite !map_cons, !list_sum_cons, IHc.
      assert (Hc : length (available_of (p :: ps) c)
                   = Nat.add (if prato_id_categoria p =? id_categoria c
                              then if disponivel p then 1%nat else 0%nat
                              else 0%nat)
                       (length (available_of ps c))).
      { unfold available_of. cbn [List.filter].
        destruct (prato_id_categoria p =? id_categoria c), (disponivel p);
          reflexivity. }
      rewrite Hc. lia. }
    rewrite Hsplit, IH. simpl List.filter.
    destruct (disponivel p); simpl.
    + rewrite (one_owner (prato_id_categoria p) cats Hnd).
      destruct (existsb _ cats); simpl; lia.
    + replace (list_sum (map (fun c => if prato_id_categoria p =? id_categoria c
                                       then 0%nat else 0%nat) cats)) with 0%nat.
      * reflexivity.
      * clear. induction cats as [|c cats IHc]; simpl; [reflexivity|].
        destruct (prato_id_categoria p =? id_categoria c); simpl; exact IHc.
Qed.

Lemma groups_sum db (l : list Categoria) :
  list_sum
    (map (fun g => length (pratos g))
       (map formatar
          (map (fun '(cat, ps) =>
                  {| categoria := nome_categoria cat;
                     grupo_ordem_exibicao := ordem_exibicao cat;
                     pratos := ps |})
             (List.filter (fun '(cat, ps) => (0 <? length ps)%nat)
                (map (fun cat => (cat, pratos_of db cat)) l)))))
  = list_sum (map (fun c => length (available_of (pratos_table db) c)) l).
Proof.
  induction l as [|c l IH]; simpl; [reflexivity|].
  assert (Hlen : length (pratos_of db c) = length (available_of (pratos_table db) c)).
  { unfold pratos_of. apply SortFacts.sort_by_length. }
  destruct (0 <? length (pratos_of db c))%nat eqn:E; simpl.
  - rewrite length_map, IH, Hlen. reflexivity.
  - apply Nat.ltb_ge in E. rewrite IH. lia.
Qed.

Lemma groups_count db (l : list Categoria) :
  length
    (List.filter (fun '(cat, ps) => (0 <? length ps)%nat)
       (map (fun cat => (cat, pratos_of db cat)) l))
  = length (List.filter (has_available (pratos_table db)) l).
Proof.
  induction l as [|c l IH]; simpl; [reflexivity|].
  unfold has_available at 1.
  assert (Hlen : length (pratos_of db c) = length (available_of (pratos_table db) c)).
  { unfold pratos_of. apply SortFacts.sort_by_length. }
  rewrite <- Hlen.
  destruct (0 <? length (pratos_of db c))%nat; simpl; rewrite IH; reflexivity.
Qed.

(** X15.  The totals of the public menu.  When the category identifiers
    are unique and every stored dish belongs to a stored category, as the
    primary and foreign keys of the schema ensure, the metadata of the
    public menu counts the store: [total_pratos] is the number of
    available dishes, [total_categorias], the number of groups listed, is
    the number of categories that own an available dish, and the listing of
    categories reports the same number. *)
Theorem public_menu_totals (agora : string) (db : tables) :
  List.NoDup (map id_categoria (categorias db)) ->
  (∀ p, In p (pratos_table db) -> categoria_of db (prato_id_categoria p) ≠ None) ->
  ∃ gs md cs,
    getCardapioPublico agora db = Cardapio gs md
    ∧ metadata_total_pratos md
      = length (List.filter (fun p => disponivel p) (pratos_table db))
    ∧ total_categorias md = length gs
    ∧ total_categorias md
      = length (List.filter (has_available (pratos_table db)) (categorias db))
    ∧ getCategoriasDisponiveis db
      = CategoriasDisponiveis cs (total_categorias md).
Proof.
  intros Hnd Hfk. unfold getCardapioPublico, getCategoriasDisponiveis.
  unfold getPratosDisponiveis.
  eexists _, _, _. split; [reflexivity|]. simpl.
  split; [|split; [reflexivity|split]].
  - rewrite fold_left_sum. simpl. rewrite groups_sum.
    rewrite (list_sum_perm _
               (map (fun c => length (available_of (pratos_table db) c))
                  (categorias db))).
    2:{ apply Permutation_map. symmetry. apply SortFacts.sort_by_perm. }
    rewrite (available_count _ _ Hnd).
    f_equal. apply List.filter_ext_in. intros p Hp.
    destruct (disponivel p); [|reflexivity]. simpl.
    specialize (Hfk p Hp). unfold categoria_of in Hfk.
    destruct (List.find _ (categorias db)) as [c|] eqn:Ef; [|destruct (Hfk eq_refl)].
    apply List.find_some in Ef. destruct Ef as [Hin Heq].
    apply existsb_exists. exists c. auto.
  - rewrite !length_map, groups_count.
    apply Permutation_length, MenuFacts.filter_perm. symmetry.
    apply SortFacts.sort_by_perm.
  - rewrite !length_map. reflexivity.
Qed.

End Prisma.

(** *** The public menu on the JSON-file store *)

Lemma json_groups_sum (ps : list Prato) (l : list Categoria) :
  list_sum
    (map (fun g => length (pratos g))
       (List.filter (fun grupo => (0 <? length (pratos grupo))%nat)
          (map (fun cat =>
                  {| categoria := nome_categoria cat;
                     grupo_ordem_exibicao := ordem_exibicao cat;
                     pratos := List.filter
                                 (fun prato => prato_id_categoria prato =? id_categoria cat)
                                 (List.filter (fun prato => disponivel prato) ps) |})
             l)))
  = list_sum (map (fun c => length (available_of ps c)) l)
  ∧ length
      (List.filter (fun grupo => (0 <? length (pratos grupo))%nat)
         (map (fun cat =>
                 {| categoria := nome_categoria cat;
                    grupo_ordem_exibicao := ordem_exibicao cat;
                    pratos := List.filter
                                (fun prato => prato_id_categoria prato =? id_categoria cat)
                                (List.filter (fun prato => disponivel prato) ps) |})
            l))
    = length (List.filter (has_available ps) l).
Proof.
  induction l as [|c l [IH1 IH2]]; simpl; [auto|].
  rewrite MenuFacts.filter_filter. fold (available_of ps c).
  unfold has_available at 1.
  destruct (0 <? length (available_of ps c))%nat eqn:E; simpl.
  - rewrite IH1, IH2. auto.
  - apply Nat.ltb_ge in E. rewrite IH1, IH2. split; [lia|reflexivity].
Qed.

(** X17.  The totals of the public menu on the JSON-file store, which has
    no foreign keys.  When the category identifiers are unique,
    [total_pratos] is the number of available dishes whose category is
    stored (an available dish that names no stored category is not
    counted), [total_categorias] is the number of categories that own an
    available dish, and the listing of categories reports the same
    number. *)
Theorem json_public_menu_totals (agora : string) (db : JsonDatabase.files) :
  List.NoDup (map id_categoria (JsonDatabase.categorias_json db)) ->
  ∃ gs md cs,
    CardapioController.getCardapioPublico agora db = Cardapio gs md
    ∧ metadata_total_pratos md
      = length (List.filter
                  (fun p => disponivel p
                            && existsb (fun c => id_categoria c =? prato_id_categoria p)
                                 (JsonDatabase.categorias_json db))
                  (JsonDatabase.pratos_json db))
    ∧ total_categorias md = length gs
    ∧ total_categorias md
      = length (List.filter (has_available (JsonDatabase.pratos_json db))
                  (JsonDatabase.categorias_json db))
    ∧ CardapioController.getCategoriasDisponiveis db
      = CategoriasDisponiveis cs (total_categorias md).
Proof.
  intros Hnd.
  unfold CardapioController.getCardapioPublico,
    CardapioController.getCategoriasDisponiveis, JsonDatabase.getPratosDisponiveis,
    JsonDatabase.getPratos, JsonDatabase.getCategorias.
  destruct (json_groups_sum (JsonDatabase.pratos_json db)
              (sort_by by_ordem_exibicao (JsonDatabase.categorias_json db)))
    as [Hsum Hlen].
  eexists _, _, _. split; [reflexivity|]. simpl.
  split; [|split; [reflexivity|split]].
  - rewrite fold_left_sum. simpl. rewrite Hsum.
    rewrite (list_sum_perm _
               (map (fun c => length (available_of (JsonDatabase.pratos_json db) c))
                  (JsonDatabase.categorias_json db))).
    2:{ apply Permutation_map. symmetry. apply SortFacts.sort_by_perm. }
    apply (available_count _ _ Hnd).
  - rewrite Hlen. apply Permutation_length, MenuFacts.filter_perm. symmetry.
    apply SortFacts.sort_by_perm.
  - rewrite length_map. reflexivity.
Qed.

(** *** The key check *)

Section KeyCheck.
Import Auth.

Lemma prefix_app (p t : string) : String.prefix p (p ++ t) = true.
Proof.
  induction p as [|a p IH]; simpl; [destruct t; reflexivity|].
  destruct (ascii_dec a a) as [_|Hne]; [exact IH|destruct (Hne eq_refl)].
Qed.

Lemma prefix_inv (p s : string) :
  String.prefix p s = true -> s = (p ++ substring_from (String.length p) s)%string.
Proof.
  revert s. induction p as [|a p IH]; intros s; simpl.
  - intros _. reflexivity.
  - destruct s as [|b s]; simpl; [intros E; discriminate E|].
    destruct (ascii_dec a b) as [->|]; [|intros E; discriminate E].
    intros Hp. rewrite (IH s Hp) at 1. reflexivity.
Qed.

Lemma pela_chave_spec (apiKey : option string) :
  (match apiKey with
   | Some k => if String.eqb k "admin-key-123" then Proximo administrador
               else NaoAutorizado
   | None => NaoAutorizado
   end = Proximo administrador
   ∨ match apiKey with
     | Some k => if String.eqb k "admin-key-123" then Proximo administrador
                 else NaoAutorizado
     | None => NaoAutorizado
     end = NaoAutorizado)
  ∧ (match apiKey with
     | Some k => if String.eqb k "admin-key-123" then Proximo administrador
                 else NaoAutorizado
     | None => NaoAutorizado
     end = Proximo administrador
     ↔ apiKey = Some "admin-key-123"%string).
Proof.
  destruct apiKey as [k|].
  - destruct (String.eqb_spec k "admin-key-123") as [->|Hne].
    + split; [auto|]. split; reflexivity.
    + split; [auto|]. split; [intros E; discriminate E|].
      intros [= E]. destruct (Hne E).
  - split; [auto|]. split; intros E; discriminate E.
Qed.

(** X16.  Who passes the demonstration key check.  A request passes, as
    the administrator, exactly when its Authorization header is 'Bearer '
    followed by at least one character, or when that header does not start
    with 'Bearer ' and the X-API-Key header is 'admin-key-123'; everything
    else is answered 401.  Hence any non-empty bearer token is accepted
    whatever the key, and a header that is 'Bearer ' alone is refused even
    with the right key. *)
Theorem who_passes_the_key_check (headers : Headers) :
  (verificarAutenticacao headers = Proximo administrador
   ∨ verificarAutenticacao headers = NaoAutorizado)
  ∧ (verificarAutenticacao headers = Proximo administrador
     ↔ (∃ token, token ≠ ""%string
                 ∧ authorization headers = Some ("Bearer " ++ token)%string)
       ∨ ((∀ rest, authorization headers ≠ Some ("Bearer " ++ rest)%string)
          ∧ x_api_key headers = Some "admin-key-123"%string)).
Proof.
  unfold verificarAutenticacao. cbv zeta.
  destruct (pela_chave_spec (x_api_key headers)) as [Hk1 Hk2].
  destruct (authorization headers) as [h|] eqn:Eh.
  - destruct (negb (String.eqb h "") && startsWith h "Bearer ") eqn:Eb.
    + apply andb_true_iff in Eb. destruct Eb as [_ Hp].
      unfold startsWith in Hp. apply prefix_inv in Hp. simpl String.length in Hp.
      destruct (substring_from 7 h) as [|a t] eqn:Etoken; simpl.
      * split; [auto|]. split; [intros E; discriminate E|].
        intros [(token & Hne & [= E])|[Hno _]].
        -- rewrite E in Etoken. simpl in Etoken. destruct (Hne Etoken).
        -- destruct (Hno ""%string). rewrite Hp at 1. reflexivity.
      * split; [auto|]. split; [|reflexivity].
        intros _. left. exists (String a t). split; [discriminate|].
        rewrite Hp at 1. reflexivity.
    + split; [exact Hk1|]. rewrite Hk2. split.
      * intros Hkey. right. split; [|exact Hkey].
        intros rest [= E]. rewrite E in Eb. unfold startsWith in Eb.
        rewrite (prefix_app "Bearer " rest) in Eb. simpl in Eb. discriminate Eb.
      * intros [(token & _ & [= E])|[_ Hkey]]; [|exact Hkey].
        rewrite E in Eb. unfold startsWith in Eb.
        rewrite (prefix_app "Bearer " token) in Eb. simpl in Eb. discriminate Eb.
  - split; [exact Hk1|]. rewrite Hk2. split.
    + intros Hkey. right. split; [intros rest E; discriminate E|exact Hkey].
    + intros [(token & _ & E)|[_ Hkey]]; [discriminate E|exact Hkey].
Qed.

End KeyCheck.

Section Instances.
Import PrismaDatabase AdminControllerPrisma CardapioControllerPrisma.


(** The bruschetta of the seeded store is taken off the public menu. *)
Lemma toggle_controls_public_visibility_witness :
  getPratoPublico (RT := AsciiRuntime.builtins) "1" seeded_tables
  = UmPrato bruschetta (Some "Entradas"%string)
  ∧ getPratoPublico (RT := AsciiRuntime.builtins) "1"
      (snd (alterarDisponibilidade (RT := AsciiRuntime.builtins) (DB := engine)
              "1" (so_flag false) seeded_tables))
    = Falha 404 "Prato indisponível".
Proof.
  split; [reflexivity|].
  destruct (toggle_controls_public_visibility (RT := AsciiRuntime.builtins)
              (DB := engine) "1" (so_flag false) false seeded_tables
              (snd (alterarDisponibilidade (RT := AsciiRuntime.builtins)
                      (DB := engine) "1" (so_flag false) seeded_tables))
              (fst (alterarDisponibilidade (RT := AsciiRuntime.builtins)
                      (DB := engine) "1" (so_flag false) seeded_tables)))
    as [Hpub _].
  - reflexivity.
  - reflexivity.
  - reflexivity.
  - exact Hpub.
Defined.

(** The body of the specification's example, created in the seeded
    store. *)
Lemma criarPrato_stores_only_on_201_witness :
  ∃ p nc,
    fst (criarPrato (RT := AsciiRuntime.builtins) (DB := engine) bolo seeded_tables)
    = ComPrato 201 "Prato criado com sucesso" (com_preco_numerico p) nc
    ∧ pratos_table (snd (criarPrato (RT := AsciiRuntime.builtins) (DB := engine)
                           bolo seeded_tables))
      = [bruschetta; salmao; tiramisu; p]
    ∧ id_prato p = 4.
Proof.
  destruct (criarPrato_stores_only_on_201 (RT := AsciiRuntime.builtins)
              (DB := engine) bolo seeded_tables) as (_ & _ & Hcreated).
  destruct (Hcreated eq_refl) as (p & nc & Hr & Ht & Hid & _).
  exists p, nc. split; [exact Hr|]. split; [exact Ht|exact Hid].
Defined.

(** The same body on the rows as prisma/seed.js leaves them. *)
Lemma stale_sequence_blocks_creation_witness :
  criarPrato (RT := AsciiRuntime.builtins) (DB := engine) bolo seeded_by_script
  = (Erro 500 "Erro interno do servidor",
     {| categorias := categorias seeded_by_script;
        pratos_table := pratos_table seeded_by_script;
        pratos_id_prato_seq := 2 |}).
Proof.
  apply (stale_sequence_blocks_creation (RT := AsciiRuntime.builtins) (DB := engine)
           bolo seeded_by_script 1 entradas bruschetta).
  - unfold well_formed, required_given. simpl.
    repeat split; try reflexivity; try (eexists; reflexivity).
    left. reflexivity.
  - reflexivity.
  - left. reflexivity.
  - reflexivity.
Defined.

(** The seeded store: two of its three dishes are available, in two of
    its four categories. *)
Lemma public_menu_totals_witness :
  ∃ gs md,
    getCardapioPublico (DB := engine)
      "2025-01-01T00:00:00.000Z" seeded_tables = Cardapio gs md
    ∧ metadata_total_pratos md = 2%nat
    ∧ total_categorias md = 2%nat.
Proof.
  destruct (public_menu_totals (DB := engine)
              "2025-01-01T00:00:00.000Z" seeded_tables)
    as (gs & md & cs & Hmenu & Hp & _ & Hc & _).
  - simpl. repeat constructor; simpl; intros Hin;
      repeat (destruct Hin as [Hin|Hin]; [discriminate Hin|]); exact Hin.
  - intros p [<-|[<-|[<-|[]]]]; discriminate.
  - exists gs, md. split; [exact Hmenu|]. split; [exact Hp|exact Hc].
Defined.

(** The initial files: two of the three dishes are available. *)
Lemma json_public_menu_totals_witness :
  ∃ gs md,
    CardapioController.getCardapioPublico "2025-01-01T00:00:00.000Z" initial_files
    = Cardapio gs md
    ∧ metadata_total_pratos md = 2%nat
    ∧ total_categorias md = 2%nat.
Proof.
  destruct (json_public_menu_totals "2025-01-01T00:00:00.000Z" initial_files)
    as (gs & md & cs & Hmenu & Hp & _ & Hc & _).
  - simpl. repeat constructor; simpl; intros Hin;
      repeat (destruct Hin as [Hin|Hin]; [discriminate Hin|]); exact Hin.
  - exists gs, md. split; [exact Hmenu|]. split; [exact Hp|exact Hc].
Defined.

(** Any bearer token passes, whatever the key. *)
Lemma who_passes_the_key_check_witness :
  Auth.verificarAutenticacao bearer_abc = Auth.Proximo Auth.administrador.
Proof.
  destruct (who_passes_the_key_check bearer_abc) as [_ [_ Hpass]].
  apply Hpass. left. exists "abc"%string. split; [discriminate|reflexivity].
Defined.

End Instances.

End StoreFacts.
